(** * The Xpress interface of CVXPY (cvxpy/problems/solvers/xpress_intf.py)

  A shallow embedding of [makeMstart], [XPRESS.solve] and
  [XPRESS.format_results], and the properties of the warm-start cache, the
  status tables, the column-start builder and the two cone encodings.

  Conventions of the embedding.
  - Python integers and numpy integer arrays are [Z] and [list Z].
  - Coefficients (numpy float64) are modelled as [Z]: exact numbers with a
    decidable equality.  Rounding, infinities and NaN are outside the model.
  - A Python exception is the [Raise] outcome of a computation; the state
    reached when it was raised is kept, as in Python.
  - The Xpress library is a black box.  A problem object is modelled by the
    sequence of calls made on it; what the optimizer answers is a parameter
    of the development. *)

From Stdlib Require Import ZArith String Ascii List Bool Lia Sorted.
From stdpp Require Import base tactics option list strings pretty.
Import ListNotations.

Local Open Scope Z_scope.

(** ** Python values, exceptions and sequences *)

Module Py.

Inductive exn : Set :=
| ValueError | KeyError | IndexError | TypeError | AttributeError
| SolverError.

Inductive result (A : Type) : Type :=
| Ok (a : A)
| Raise (e : exn).
Arguments Ok {A} a.
Arguments Raise {A} e.

Definition rbind {A B} (r : result A) (k : A -> result B) : result B :=
  match r with
  | Ok a => k a
  | Raise e => Raise e
  end.

(** The few Python values that the interface compares across types. *)
Inductive value : Set :=
| PyNone
| PyInt (z : Z)
| PyStr (s : string).

Definition value_eqb (a b : value) : bool :=
  match a, b with
  | PyNone, PyNone => true
  | PyInt x, PyInt y => x =? y
  | PyStr x, PyStr y => String.eqb x y
  | _, _ => false
  end.

(** [len l] *)
Definition len {A} (l : list A) : Z := Z.of_nat (length l).

(** [l[i]] on a sequence: a negative index counts from the end, an index
    out of range raises [IndexError]. *)
Definition getitem {A} (l : list A) (i : Z) : result A :=
  let j := if i <? 0 then len l + i else i in
  if j <? 0 then Raise IndexError
  else match l !! Z.to_nat j with
       | Some x => Ok x
       | None => Raise IndexError
       end.

(** [l[i] = x], same index rule. *)
Definition setitem {A} (l : list A) (i : Z) (x : A) : result (list A) :=
  let j := if i <? 0 then len l + i else i in
  if (j <? 0) || (len l <=? j) then Raise IndexError
  else Ok (<[Z.to_nat j := x]> l).

(** A slice bound: negative bounds count from the end, and every bound is
    clipped to the sequence. *)
Definition slice_bound (n i : Z) : Z :=
  if i <? 0 then Z.max 0 (n + i) else Z.min i n.

Definition slice_lo (n : Z) (lo : option Z) : Z :=
  match lo with Some i => slice_bound n i | None => 0 end.

Definition slice_hi (n : Z) (hi : option Z) : Z :=
  match hi with Some i => slice_bound n i | None => n end.

(** [l[lo:hi]] *)
Definition slice {A} (l : list A) (lo hi : option Z) : list A :=
  let a := slice_lo (len l) lo in
  let b := slice_hi (len l) hi in
  take (Z.to_nat (b - a)) (drop (Z.to_nat a) l).

(** [[x] * k]: nothing when [k] is not positive. *)
Definition times {A} (x : A) (k : Z) : list A := replicate (Z.to_nat k) x.

(** [range (lo, hi)] and [range (k)] *)
Definition range2 (lo hi : Z) : list Z :=
  map (fun i => lo + Z.of_nat i) (seq 0 (Z.to_nat (hi - lo))).

Definition range (k : Z) : list Z := range2 0 k.

(** [[f (i) for i in l]] when evaluating [f] can raise. *)
Fixpoint comprehension {A B} (f : A -> result B) (l : list A)
  : result (list B) :=
  match l with
  | [] => Ok []
  | a :: l' =>
      rbind (f a) (fun b =>
      rbind (comprehension f l') (fun bs => Ok (b :: bs)))
  end.

(** A dictionary written as a literal, and [d[k]]. *)
Fixpoint dict_get {V} (d : list (Z * V)) (k : Z) : result V :=
  match d with
  | [] => Raise KeyError
  | (k', v) :: d' => if k =? k' then Ok v else dict_get d' k
  end.

End Py.

Export Py.

Notation "x <-? r ; k" := (rbind r (fun x => k))
(at level 100, r at next level, right associativity).

(** ** numpy *)

Module numpy.

(** One more than the largest entry; [0] for the empty array. *)
Definition span (x : list Z) : Z :=
  foldr (fun v m => Z.max (v + 1) m) 0 x.

Definition occurrences (i : Z) (x : list Z) : Z :=
  len (filter (fun v => v = i) x).

(** [numpy.bincount (x)]: entry [i] counts the occurrences of [i] in [x];
    a negative entry is refused. *)
Definition bincount (x : list Z) : result (list Z) :=
  if existsb (fun v => v <? 0) x then Raise ValueError
  else Ok (map (fun i => occurrences i x) (range (span x))).

Fixpoint cumsum_from (acc : Z) (x : list Z) : list Z :=
  match x with
  | [] => []
  | v :: x' => (acc + v) :: cumsum_from (acc + v) x'
  end.

(** [numpy.cumsum (x)] *)
Definition cumsum (x : list Z) : list Z := cumsum_from 0 x.

(** [x != y] on two one-dimensional arrays: elementwise on equal lengths,
    an array of length one is broadcast, and other shapes cannot be
    compared. *)
Definition ne {A} `{EqDecision A} (x y : list A) : result (list bool) :=
  if (length x =? length y)%nat
  then Ok (zip_with (fun a b => bool_decide (a <> b)) x y)
  else match x, y with
       | [a], _ => Ok (map (fun b => bool_decide (a <> b)) y)
       | _, [b] => Ok (map (fun a => bool_decide (a <> b)) x)
       | _, _ => Raise ValueError
       end.

Fixpoint where_from (i : Z) (mask : list bool) : list Z :=
  match mask with
  | [] => []
  | m :: mask' =>
      if m then i :: where_from (i + 1) mask' else where_from (i + 1) mask'
  end.

(** [numpy.where (mask) [0]] *)
Definition where_ (mask : list bool) : list Z := where_from 0 mask.

(** [x[idx]] with an integer index array. *)
Definition take_ {A} (x : list A) (idx : list Z) : result (list A) :=
  comprehension (getitem x) idx.

(** [x[mask]] with a boolean mask, which must be as long as [x]. *)
Definition compress {A} (x : list A) (mask : list bool) : result (list A) :=
  if (length x =? length mask)%nat
  then Ok (omap (fun p : A * bool => if p.2 then Some p.1 else None)
                (zip x mask))
  else Raise IndexError.

(** [any (mask)] *)
Definition any (mask : list bool) : bool := existsb id mask.

End numpy.

(** ** scipy.sparse *)

Module scipy.

Inductive format : Set := CSC | CSR.

(** A compressed sparse matrix: its shape and its stored entries
    [(row, column, value)] in storage order (by column for CSC, by row for
    CSR).  A stored value may be an explicit zero. *)
Record spmatrix : Set := {
  sp_format : format;
  sp_nrow : Z;
  sp_ncol : Z;
  sp_entries : list (Z * Z * Z)
}.

Definition e_row (e : Z * Z * Z) : Z := e.1.1.
Definition e_col (e : Z * Z * Z) : Z := e.1.2.
Definition e_val (e : Z * Z * Z) : Z := e.2.

(** [A.data]: every stored value. *)
Definition data (A : spmatrix) : list Z := map e_val (sp_entries A).

(** [A.indices]: the minor index of every stored value. *)
Definition indices (A : spmatrix) : list Z :=
  match sp_format A with
  | CSC => map e_row (sp_entries A)
  | CSR => map e_col (sp_entries A)
  end.

(** [A.nonzero ()]: the coordinates of the stored values that are not
    zero (the matrix in coordinate form, masked by [data != 0]). *)
Definition nonzero (A : spmatrix) : list Z * list Z :=
  let nz := filter (fun e => e_val e <> 0) (sp_entries A) in
  (map e_row nz, map e_col nz).

(** Subscript of the pair returned by [nonzero]. *)
Definition pair_getitem {A} (p : A * A) (i : Z) : result A :=
  if (i =? 0) || (i =? -2) then Ok p.1
  else if (i =? 1) || (i =? -1) then Ok p.2
  else Raise IndexError.

(** [A[lo:hi]]: the rows [lo .. hi - 1], renumbered from zero. *)
Definition getrows (A : spmatrix) (lo hi : option Z) : spmatrix :=
  let a := slice_lo (sp_nrow A) lo in
  let b := slice_hi (sp_nrow A) hi in
  {| sp_format := sp_format A;
     sp_nrow := Z.max 0 (b - a);
     sp_ncol := sp_ncol A;
     sp_entries :=
       map (fun e => (e_row e - a, e_col e, e_val e))
           (filter (fun e => a <= e_row e < b) (sp_entries A)) |}.

(** [A[i]]: one row, as a matrix with a single row. *)
Definition getrow (A : spmatrix) (i : Z) : result spmatrix :=
  let j := if i <? 0 then sp_nrow A + i else i in
  if (j <? 0) || (sp_nrow A <=? j) then Raise IndexError
  else Ok (getrows A (Some j) (Some (j + 1))).

Fixpoint insert_by_row (e : Z * Z * Z) (l : list (Z * Z * Z))
  : list (Z * Z * Z) :=
  match l with
  | [] => [e]
  | e' :: l' =>
      if e_row e <=? e_row e' then e :: l else e' :: insert_by_row e l'
  end.

(** [A.tocsr ()]: the same entries, ordered by row; the entries of a row
    keep their relative order. *)
Definition tocsr (A : spmatrix) : spmatrix :=
  {| sp_format := CSR;
     sp_nrow := sp_nrow A;
     sp_ncol := sp_ncol A;
     sp_entries := foldr insert_by_row [] (sp_entries A) |}.

(** [A[i, j]]: stored values at one position add up. *)
Definition get (A : spmatrix) (i j : Z) : Z :=
  foldr Z.add 0
    (map e_val
       (filter (fun e => e_row e = i /\ e_col e = j) (sp_entries A))).

Definition coords (A : spmatrix) : list (Z * Z) :=
  map (fun e => (e_row e, e_col e)) (sp_entries A).

Fixpoint insert_by_col (p : Z * Z) (l : list (Z * Z)) : list (Z * Z) :=
  match l with
  | [] => [p]
  | q :: l' =>
      if (p.2 <? q.2) || ((p.2 =? q.2) && (p.1 <=? q.1))
      then p :: l else q :: insert_by_col p l'
  end.

(** [(A != B).tocoo ()]: the positions at which the two matrices differ,
    as [(row, col)] pairs by column.  Matrices of different shapes compare
    as the boolean [True], which has no method [tocoo]. *)
Definition ne (A B : spmatrix) : result (list (Z * Z)) :=
  if (sp_nrow A =? sp_nrow B) && (sp_ncol A =? sp_ncol B)
  then Ok (foldr insert_by_col []
             (filter (fun p => get A p.1 p.2 <> get B p.1 p.2)
                     (remove_dups (coords A ++ coords B))))
  else Raise AttributeError.

End scipy.

Import scipy.

(** ** makeMstart *)

Definition makeMstart (A : spmatrix) (n : Z) (ifCol : Z) : result (list Z) :=
coordinates <-? pair_getitem (nonzero A) ifCol;
mstart <-? numpy.bincount coordinates;
let mstart := [0] ++ mstart ++ Py.times 0 (n - len mstart) in
Ok (numpy.cumsum mstart).


(** ** The Xpress library *)

Module xpress.

(** [xpress.infinity] and its negation, or a number. *)
Inductive bound : Set :=
| minus_infinity
| infinity
| finite (z : Z).

(** A variable object: an entry of [problem.getVariable ()], or the [i]-th
    variable created by [xpress.var (lb = ...)] for the cone number [cone]. *)
Inductive var : Set :=
| column (j : Z)
| cone_var (cone : Z) (i : Z) (lb : bound).

(** Expressions over variable objects, as the overloaded operators of the
    library build them. *)
#[local] Set Warnings "-register-all".
Inductive expr : Set :=
| const (z : Z)
| term (v : var)
| mul (a b : expr)
| sub (a b : expr)
| pow (a : expr) (n : Z)
| Sum (l : list expr).
#[local] Set Warnings "register-all".

(** [lhs <= rhs], possibly named through [xpress.constraint]. *)
Record constraint : Set := {
  c_lhs : expr;
  c_rhs : expr;
  c_name : option string
}.

(** A row or column given by its index or by its object. *)
Inductive ref : Set :=
| by_index (i : Z)
| by_object (v : var).

(** The value of a solver option. *)
Inductive optvalue : Set :=
| opt_number (z : Z)
| opt_dict (d : list (string * Z))
| opt_object.

(** The methods of a problem that the interface calls to change it.  The two
    arguments of [loadproblem] that are always [None] (range and mnel) are
    left out; [set_control name v] is the assignment
    [problem.controls.name = v]. *)
Inductive call : Set :=
| loadproblem (probname : string) (qrtypes : list ascii) (rhs : list Z)
    (objcoef : list Z) (mstart mrwind : list Z) (dmatval : list Z)
    (lb ub : list bound)
| chgcoltype (mindex : list Z) (qctype : list ascii)
| addVariable (v : list var)
| addrows (qrtype : list ascii) (rhs : list Z) (mstart mclind : list Z)
    (dmatval : list Z)
| chgmcoef (mrow : list ref) (mcol : list ref) (dval : list Z)
| addConstraint (c : constraint)
| setObjective (e : expr)
| chgobj (mindex : list Z) (obj : list Z)
| chgrhs (mindex : list Z) (rhs : list Z)
| set_control (name : string) (v : Z)
| setControl (v : optvalue)
| setControl_dict (d : list (string * optvalue))
| solve.

(** A problem object is the sequence of the calls made on it since
    [xpress.problem ()]. *)
Abbreviation problem := (list call).

(** [problem.attributes.rows]: the rows loaded, added, and one for every
    constraint added. *)
Definition rows_after (n : Z) (c : call) : Z :=
  match c with
  | loadproblem _ qrtypes _ _ _ _ _ _ _ => len qrtypes
  | addrows qrtype _ _ _ _ => n + len qrtype
  | addConstraint _ => n + 1
  | _ => n
  end.

Definition rows (p : problem) : Z := foldl rows_after 0 p.

Definition set_coltypes (types : list ascii) (mindex : list Z)
  (qctype : list ascii) : list ascii :=
  foldl (fun ts (it : Z * ascii) =>
           if it.1 <? 0 then ts else <[Z.to_nat it.1 := it.2]> ts)
        types (zip mindex qctype).

(** The type of every column: continuous when loaded or added, until
    [chgcoltype] changes it. *)
Definition coltypes_after (ts : list ascii) (c : call) : list ascii :=
  match c with
  | loadproblem _ _ _ objcoef _ _ _ _ _ => replicate (length objcoef) "C"%char
  | addVariable v => ts ++ replicate (length v) "C"%char
  | chgcoltype mindex qctype => set_coltypes ts mindex qctype
  | _ => ts
  end.

Definition coltypes (p : problem) : list ascii := foldl coltypes_after [] p.

(** [problem.getcoltype (coltype, first, last)]: the types of the columns
    [first .. last], which must exist. *)
Definition getcoltype (p : problem) (first last : Z) : result (list ascii) :=
  if (0 <=? first) && (first <=? last) && (last <? len (coltypes p))
  then Ok (take (Z.to_nat (last - first + 1))
                (drop (Z.to_nat first) (coltypes p)))
  else Raise SolverError.

(** [problem.getVariable ()]: one variable object per column loaded. *)
Definition getVariable (p : problem) : list var :=
  map column (range (len (coltypes p))).

(** What the optimizer reports after [problem.solve ()]. *)
Record outcome : Set := {
  ProbStatus : Z;
  ObjVal : Z;
  Solution : list Z;
  Dual : list Z
}.

(** The part of the library that is a parameter: the optimizer, which
    answers a problem or fails, and the names of the controls
    ([xpress.controls.__dict__.keys ()]). *)
Record library : Type := {
  optimize : problem -> result outcome;
  control_names : list string
}.

(** The problem statuses.  The numbers are those of the Xpress Optimizer
    (attributes LPSTATUS and MIPSTATUS). *)
Definition lp_unstarted : Z := 0.
Definition lp_optimal : Z := 1.
Definition lp_infeas : Z := 2.
Definition lp_cutoff : Z := 3.
Definition lp_unfinished : Z := 4.
Definition lp_unbounded : Z := 5.
Definition lp_cutoff_in_dual : Z := 6.
Definition lp_unsolved : Z := 7.
Definition lp_nonconvex : Z := 8.

Definition mip_not_loaded : Z := 0.
Definition mip_lp_not_optimal : Z := 1.
Definition mip_lp_optimal : Z := 2.
Definition mip_no_sol_found : Z := 3.
Definition mip_solution : Z := 4.
Definition mip_infeas : Z := 5.
Definition mip_optimal : Z := 6.
Definition mip_unbounded : Z := 7.

End xpress.

(** ** cvxpy.settings *)

Module s.

(** Modelled from the spec: cvxpy/settings.py is not among the sources.  The
    canonical statuses are the four of the status tables; [SOLUTION_PRESENT]
    lists the statuses for which a solution is present, [OPTIMAL] and the
    inaccurate optimum. *)
Definition OPTIMAL : string := "optimal".
Definition INFEASIBLE : string := "infeasible".
Definition UNBOUNDED : string := "unbounded".
Definition SOLVER_ERROR : string := "solver_error".
Definition OPTIMAL_INACCURATE : string := "optimal_inaccurate".
Definition SOLUTION_PRESENT : list string := [OPTIMAL; OPTIMAL_INACCURATE].

End s.

(** ** The interface: its data *)

(** The problem data that [get_problem_data] returns: [data[s.C]],
    [data[s.A]] (a CSC matrix), [data[s.B]], the dimensions
    [data[s.DIMS][s.EQ_DIM]], [s.LEQ_DIM] and [s.SOC_DIM], and the index lists
    [data[s.BOOL_IDX]] and [data[s.INT_IDX]]. *)
Record problem_data : Set := {
  data_C : list Z;
  data_A : spmatrix;
  data_B : list Z;
  dims_EQ_DIM : Z;
  dims_LEQ_DIM : Z;
  dims_SOC_DIM : list Z;
  data_BOOL_IDX : list Z;
  data_INT_IDX : list Z
}.

(** What [solve] learns from [objective] and [constraints]: the number of
    parameters of the objective ([len (get_expr_params (objective))]), the
    number of parameters of each constraint, and the problem data
    ([get_problem_data (objective, constraints, cached_data)]). *)
Record canonical : Set := {
  objective_params : Z;
  constraints_params : list Z;
  problem_data_of : problem_data
}.

(** [solver_cache.prev_result], a dictionary; ['problem'] is a reference to
    a problem object. *)
Record prev_result_dict : Set := {
  prev_problem : nat;
  prev_obj : list Z;
  prev_mat : spmatrix;
  prev_rhs : list Z;
  prev_cone_ind : list Z;
  prev_vartype : list ascii
}.

(** The objects that [solve] reads and changes: the problem objects created
    so far, in the order of their creation (a reference is a position here),
    [self.prob_], and [cached_data[self.name ()].prev_result]. *)
Record world : Set := {
  problems : list xpress.problem;
  prob_ : option nat;
  prev_result : option prev_result_dict
}.

(** [results_dict]; a field that is [None] is a key that is absent. *)
Record results_dict_t : Set := {
  rd_problem : nat;
  rd_status : Z;
  rd_obj_value : Z;
  rd_x : option (list Z);
  rd_y : option (list Z);
  rd_IIS : option value
}.

(** [new_results], keyed by [s.STATUS], [s.PRIMAL], [s.VALUE], [s.EQ_DUAL]
    and [s.IIS]; a field that is [None] is a key that is absent. *)
Record results : Set := {
  STATUS : option string;
  PRIMAL : option (list Z);
  VALUE : option Z;
  EQ_DUAL : option (list Z);
  IIS : option value
}.

(** ** Computations that change the world and may raise *)

Definition M (A : Type) : Type := world -> world * result A.

Definition ret {A} (a : A) : M A := fun w => (w, Ok a).

Definition bind {A B} (m : M A) (k : A -> M B) : M B :=
  fun w =>
    match m w with
    | (w', Ok a) => k a w'
    | (w', Raise e) => (w', Raise e)
    end.

Definition lift {A} (r : result A) : M A := fun w => (w, r).

Notation "x <- m ;; k" := (bind m (fun x => k))
  (at level 100, m at next level, right associativity).
Notation "m ;; k" := (bind m (fun _ => k))
  (at level 100, right associativity).

(** [xpress.problem ()] *)
Definition new_problem : M nat :=
  fun w =>
    ({| problems := problems w ++ [[]];
        prob_ := prob_ w;
        prev_result := prev_result w |},
     Ok (length (problems w))).

(** [self.prob_ = h] *)
Definition set_prob (h : nat) : M unit :=
  fun w =>
    ({| problems := problems w;
        prob_ := Some h;
        prev_result := prev_result w |},
     Ok tt).

(** [solver_cache.prev_result = d] *)
Definition set_prev_result (d : prev_result_dict) : M unit :=
  fun w =>
    ({| problems := problems w;
        prob_ := prob_ w;
        prev_result := Some d |},
     Ok tt).

(** The problem object behind a reference. *)
Definition problem_at (w : world) (h : nat) : xpress.problem :=
  default [] (problems w !! h).

Definition read_problem (h : nat) : M xpress.problem :=
  fun w => (w, Ok (problem_at w h)).

(** A call on the problem object behind a reference. *)
Definition call_ (h : nat) (c : xpress.call) : M unit :=
  fun w =>
    ({| problems := alter (fun p => p ++ [c]) h (problems w);
        prob_ := prob_ w;
        prev_result := prev_result w |},
     Ok tt).

(** [for a in l: acc = body (acc, a)] *)
Fixpoint for_ {A S} (l : list A) (body : S -> A -> M S) (acc : S) : M S :=
  match l with
  | [] => ret acc
  | a :: l' => acc' <- body acc a ;; for_ l' body acc'
  end.

(** The same loop when the body only computes. *)
Fixpoint rfor {A S} (l : list A) (body : S -> A -> result S) (acc : S)
  : result S :=
  match l with
  | [] => Ok acc
  | a :: l' => acc' <-? body acc a ; rfor l' body acc'
  end.

Definition get_prev_result : M (option prev_result_dict) :=
  fun w => (w, Ok (prev_result w)).

(** ** The interface: class XPRESS *)

(** Map of Xpress' LP status to CVXPY status. *)
Definition status_map_lp : list (Z * string) :=
  [ (xpress.lp_unstarted, s.SOLVER_ERROR);
    (xpress.lp_optimal, s.OPTIMAL);
    (xpress.lp_infeas, s.INFEASIBLE);
    (xpress.lp_cutoff, s.SOLVER_ERROR);
    (xpress.lp_unfinished, s.SOLVER_ERROR);
    (xpress.lp_unbounded, s.UNBOUNDED);
    (xpress.lp_cutoff_in_dual, s.SOLVER_ERROR);
    (xpress.lp_unsolved, s.SOLVER_ERROR);
    (xpress.lp_nonconvex, s.SOLVER_ERROR) ].

(** Same map, for MIPs. *)
Definition status_map_mip : list (Z * string) :=
  [ (xpress.mip_not_loaded, s.SOLVER_ERROR);
    (xpress.mip_lp_not_optimal, s.SOLVER_ERROR);
    (xpress.mip_lp_optimal, s.SOLVER_ERROR);
    (xpress.mip_no_sol_found, s.SOLVER_ERROR);
    (xpress.mip_solution, s.SOLVER_ERROR);
    (xpress.mip_infeas, s.INFEASIBLE);
    (xpress.mip_optimal, s.OPTIMAL);
    (xpress.mip_unbounded, s.UNBOUNDED) ].

(** Modelled from the spec: [Solver.is_mip] is inherited from
    cvxpy/problems/solvers/solver.py, which is not among the sources.  The
    problem is mixed-integer when it declares a boolean or an integer
    variable. *)
Definition is_mip (data : problem_data) : bool :=
  (0 <? len (data_BOOL_IDX data)) || (0 <? len (data_INT_IDX data)).

(** The table that applies to the problem, and the lookup in it
    ([self.status_map_mip [status]] or [self.status_map_lp [status]]). *)
Definition status_map (data : problem_data) : list (Z * string) :=
  if is_mip data then status_map_mip else status_map_lp.

Definition translate_status (data : problem_data) (status : Z)
  : result string :=
  dict_get (status_map data) status.

(** [l[mask]] for a Python list [l] and a numpy array of booleans: a list is
    indexed by an integer or a slice, and an array of booleans is neither. *)
Definition list_getitem_mask {A} (l : list A) (mask : list bool)
  : result (list A) :=
  Raise TypeError.

(** [d[k]] for a key that may be absent. *)
Definition key {A} (field : option A) : result A :=
  match field with
  | Some v => Ok v
  | None => Raise KeyError
  end.

Fixpoint opts_get (d : list (string * xpress.optvalue)) (k : string)
  : option xpress.optvalue :=
  match d with
  | [] => None
  | (k', v) :: d' => if String.eqb k k' then Some v else opts_get d' k
  end.

(** The condition of the warm start (lines 189-193): the cached dictionary
    when the previous problem is to be used again. *)
Definition previous (warm_start : bool) (cache : option prev_result_dict)
  (data : problem_data) : option prev_result_dict :=
  let n := len (data_C data) in
  let nrows := dims_EQ_DIM data + dims_LEQ_DIM data in
  if warm_start then
    match cache with
    | Some prev =>
        if (n =? len (prev_obj prev))
           && (nrows =? len (prev_rhs prev))
           && bool_decide (dims_SOC_DIM data = prev_cone_ind prev)
        then Some prev else None
    | None => None
    end
  else None.

(** Lines 205-208: the objective coefficients that changed. *)
Definition update_objective (h : nat) (cp : canonical) (c c0 : list Z)
  : M unit :=
  if 0 <? objective_params cp then
    mask <- lift (numpy.ne c c0) ;;
    let dci := numpy.where_ mask in
    obj <- lift (numpy.take_ c dci) ;;
    call_ h (xpress.chgobj dci obj)
  else ret tt.

(** Lines 217-226: the matrix coefficients and right-hand sides that
    changed. *)
Definition update_constraints (h : nat) (cp : canonical)
  (A A0 : spmatrix) (b b0 : list Z) : M unit :=
  if existsb (fun k => 0 <? k) (constraints_params cp) then
    dAi <- lift (scipy.ne A A0) ;;
    mask <- lift (numpy.ne b b0) ;;
    let dbi := numpy.where_ mask in
    (if 0 <? len dAi then
       call_ h (xpress.chgmcoef
                  (map (fun p => xpress.by_index p.1) dAi)
                  (map (fun p => xpress.by_index p.2) dAi)
                  (map (fun p => scipy.get A p.1 p.2) dAi))
     else ret tt) ;;
    (if 0 <? len dbi then
       rhs <- lift (numpy.take_ b dbi) ;;
       call_ h (xpress.chgrhs dbi rhs)
     else ret tt)
  else ret tt.

(** Lines 228-234: the variable types that changed. *)
Definition update_coltypes (h : nat) (c : list Z) (vartype0 : list ascii)
  : M unit :=
  p <- read_problem h ;;
  vartype <- lift (xpress.getcoltype p 0 (len c - 1)) ;;
  vti <- lift (numpy.ne vartype vartype0) ;;
  if numpy.any vti then
    mindex <- lift (numpy.compress (range (len c)) vti) ;;
    qctype <- lift (list_getitem_mask vartype vti) ;;
    call_ h (xpress.chgcoltype mindex qctype)
  else ret tt.

(** Lines 195-234: re-solving a problem that was previously solved.  The
    calls of [get_sym_data] and [split_constr] there yield values that are
    not used. *)
Definition warm_start_update (cp : canonical) (prev : prev_result_dict)
  (c : list Z) (A : spmatrix) (b : list Z) : M nat :=
  let h := prev_problem prev in
  set_prob h ;;
  let c0 := prev_obj prev in
  let A0 := prev_mat prev in
  let b0 := prev_rhs prev in
  let vartype0 := prev_vartype prev in
  update_objective h cp c c0 ;;
  update_constraints h cp A A0 b b0 ;;
  update_coltypes h c vartype0 ;;
  ret h.

(** Lines 307-325: the cone over the rows of [A] and [b] as one quadratic
    constraint over the variables [x]. *)
Definition back_substitution (A : spmatrix) (b : list Z)
  (x : list xpress.var) : result xpress.constraint :=
  let Plhs := getrows A (Some 1) None in
  Prhs <-? getrow A 0 ;
  let '(indRowL, indColL) := nonzero Plhs in
  let '(indRowR, indColR) := nonzero Prhs in
  let coeL := scipy.data Plhs in
  let coeR := scipy.data Prhs in
  let lhs := map xpress.const (Py.slice b (Some 1) None) in
  rhs <-? getitem b 0 ;
  lhs <-? rfor (range (len coeL))
            (fun lhs i =>
               r <-? getitem indRowL i ;
               old <-? getitem lhs r ;
               coe <-? getitem coeL i ;
               j <-? getitem indColL i ;
               v <-? getitem x j ;
               setitem lhs r
                 (xpress.sub old (xpress.mul (xpress.const coe) (xpress.term v))))
            lhs ;
  rhs <-? rfor (range (len coeR))
            (fun rhs i =>
               coe <-? getitem coeR i ;
               j <-? getitem indColR i ;
               v <-? getitem x j ;
               Ok (xpress.sub rhs
                     (xpress.mul (xpress.const coe) (xpress.term v))))
            (xpress.const rhs) ;
  squares <-? comprehension
                (fun i => e <-? getitem lhs i ; Ok (xpress.pow e 2))
                (range (len lhs)) ;
  Ok {| xpress.c_lhs := xpress.Sum squares;
        xpress.c_rhs := xpress.pow rhs 2;
        xpress.c_name := None |}.

(** Line 330: the variables created for the cone number [iCone]. *)
Definition new_cone_variables (iCone k : Z) : list xpress.var :=
  map (fun i =>
         xpress.cone_var iCone i
           (if 0 <? i then xpress.minus_infinity else xpress.finite 0))
      (range k).

(** Lines 350-352: the cone over the new variables. *)
Definition cone_constraint (conevar : list xpress.var) (iCone k : Z)
  : result xpress.constraint :=
  squares <-? comprehension
                (fun i => v <-? getitem conevar i ;
                          Ok (xpress.pow (xpress.term v) 2))
                (range2 1 k) ;
  apex <-? getitem conevar 0 ;
  Ok {| xpress.c_lhs := xpress.Sum squares;
        xpress.c_rhs := xpress.pow (xpress.term apex) 2;
        xpress.c_name := Some ("cone_" +:+ pretty iCone) |}.

(** Lines 329-352: new variables for the cone, rows that tie them to the
    rows of the cone, and the cone over them. *)
Definition auxiliary_variables (h : nat) (A : spmatrix) (b : list Z)
  (iCone k : Z) : M unit :=
  let conevar := new_cone_variables iCone k in
  call_ h (xpress.addVariable conevar) ;;
  p <- read_problem h ;;
  let initrow := xpress.rows p in
  mstart <- lift (makeMstart A k 0) ;;
  call_ h (xpress.addrows (Py.times "E"%char k) b mstart
             (scipy.indices A) (scipy.data A)) ;;
  call_ h (xpress.chgmcoef
             (map (fun i => xpress.by_index (initrow + i)) (range k))
             (map xpress.by_object conevar)
             (Py.times 1 k)) ;;
  if 1 <? k then
    cone <- lift (cone_constraint conevar iCone k) ;;
    call_ h (xpress.addConstraint cone)
  else ret tt.

(** Lines 275-354: the body of the loop over the cone sizes; the loop
    carries [currow] and [iCone]. *)
Definition soc_block (translate_back_QP_ : bool) (h : nat)
  (data : problem_data) (x : list xpress.var) (st : Z * Z) (k : Z)
  : M (Z * Z) :=
  let currow := st.1 in
  let iCone := st.2 in
  let A := tocsr (getrows (data_A data) (Some currow) (Some (currow + k))) in
  let b := Py.slice (data_B data) (Some currow) (Some (currow + k)) in
  let currow := currow + k in
  (if translate_back_QP_ then
     cone <- lift (back_substitution A b x) ;;
     call_ h (xpress.addConstraint cone)
   else auxiliary_variables h A b iCone k) ;;
  ret (currow, iCone + 1).

(** Line 357: the objective. *)
Definition objective_expr (c : list Z) (x : list xpress.var)
  : result xpress.expr :=
  terms <-? comprehension
              (fun i => ci <-? getitem c i ;
                        xi <-? getitem x i ;
                        Ok (xpress.mul (xpress.const ci) (xpress.term xi)))
              (range (len c)) ;
  Ok (xpress.Sum terms).

(** Lines 240-357: no warm start, create the problem from scratch. *)
Definition cold_load (translate_back_QP_ : bool) (data : problem_data)
  (c : list Z) (A : spmatrix) (b : list Z) (nrowsEQ nrowsLEQ nrows : Z)
  : M nat :=
  h <- new_problem ;;
  set_prob h ;;
  mstart <- lift (makeMstart A (len c) 1) ;;
  call_ h (xpress.loadproblem "CVXproblem"
             (Py.times "E"%char nrowsEQ ++ Py.times "L"%char nrowsLEQ)
             b c mstart (scipy.indices A) (scipy.data A)
             (Py.times xpress.minus_infinity (len c))
             (Py.times xpress.infinity (len c))) ;;
  p <- read_problem h ;;
  let x := xpress.getVariable p in
  call_ h (xpress.chgcoltype
             (data_BOOL_IDX data ++ data_INT_IDX data)
             (Py.times "B"%char (len (data_BOOL_IDX data))
              ++ Py.times "I"%char (len (data_INT_IDX data)))) ;;
  for_ (dims_SOC_DIM data) (soc_block translate_back_QP_ h data x) (nrows, 0) ;;
  objective <- lift (objective_expr c x) ;;
  call_ h (xpress.setObjective objective) ;;
  ret h.

(** Lines 369-381: the logging controls and the solver options. *)
Definition set_options (lib : xpress.library) (h : nat) (verbose : bool)
  (solver_opts : list (string * xpress.optvalue)) : M unit :=
  (if verbose then
     call_ h (xpress.set_control "miplog" 2) ;;
     call_ h (xpress.set_control "lplog" 1) ;;
     call_ h (xpress.set_control "outputlog" 1)
   else
     call_ h (xpress.set_control "miplog" 0) ;;
     call_ h (xpress.set_control "lplog" 0) ;;
     call_ h (xpress.set_control "outputlog" 0)) ;;
  (match opts_get solver_opts "solver_opts" with
   | Some v => call_ h (xpress.setControl v)
   | None => ret tt
   end) ;;
  call_ h (xpress.setControl_dict
             (filter (fun kv => kv.1 ∈ xpress.control_names lib) solver_opts)).

(** XPRESS.format_results *)
Definition format_results (results_dict : results_dict_t)
  (data : problem_data) : M results :=
  (if negb (value_eqb (PyInt (rd_status results_dict)) (PyStr s.SOLVER_ERROR))
   then
     let h := rd_problem results_dict in
     set_prob h ;;
     p <- read_problem h ;;
     vartypes <- lift (xpress.getcoltype p 0 (len (data_C data) - 1)) ;;
     set_prev_result
       {| prev_problem := h;
          prev_obj := data_C data;
          prev_mat := data_A data;
          prev_rhs := data_B data;
          prev_cone_ind := dims_SOC_DIM data;
          prev_vartype := vartypes |}
   else ret tt) ;;
  status <- lift (translate_status data (rd_status results_dict)) ;;
  solution <-
    (if bool_decide (status ∈ s.SOLUTION_PRESENT) then
       x <- lift (key (rd_x results_dict)) ;;
       let value := rd_obj_value results_dict in
       if negb (is_mip data) then
         y <- lift (key (rd_y results_dict)) ;;
         ret (Some x, Some value, Some y)
       else ret (Some x, Some value, None)
     else ret (None, None, None)) ;;
  iis <- lift (key (rd_IIS results_dict)) ;;
  ret {| STATUS := Some status;
         PRIMAL := solution.1.1;
         VALUE := solution.1.2;
         EQ_DUAL := solution.2;
         IIS := Some iis |}.

(** Lines 166-357 of [solve]: the problem of the previous call, updated, or
    a problem created from scratch. *)
Definition load (translate_back_QP_ : bool) (cp : canonical)
  (warm_start : bool) : M nat :=
  let data := problem_data_of cp in
  let c := data_C data in
  let nrowsEQ := dims_EQ_DIM data in
  let nrowsLEQ := dims_LEQ_DIM data in
  let nrows := nrowsEQ + nrowsLEQ in
  let b := Py.slice (data_B data) None (Some nrows) in
  let A := getrows (data_A data) None (Some nrows) in
  cache <- get_prev_result ;;
  match previous warm_start cache data with
  | Some prev => warm_start_update cp prev c A b
  | None => cold_load translate_back_QP_ data c A b nrowsEQ nrowsLEQ nrows
  end.

(** Lines 386-407 of [solve]: [results_dict], given what the optimizer
    reports and the translated status. *)
Definition results_dict (h : nat) (o : xpress.outcome) (status : string)
  (data : problem_data) : results_dict_t :=
  if bool_decide (status ∈ s.SOLUTION_PRESENT) then
    {| rd_problem := h;
       rd_status := xpress.ProbStatus o;
       rd_obj_value := xpress.ObjVal o;
       rd_x := Some (xpress.Solution o);
       rd_y := if negb (is_mip data) then Some (xpress.Dual o) else None;
       rd_IIS := Some PyNone |}
  else if String.eqb status s.INFEASIBLE then
    {| rd_problem := h;
       rd_status := xpress.ProbStatus o;
       rd_obj_value := xpress.ObjVal o;
       rd_x := None; rd_y := None;
       rd_IIS := Some (PyInt 1) |}
  else
    {| rd_problem := h;
       rd_status := xpress.ProbStatus o;
       rd_obj_value := xpress.ObjVal o;
       rd_x := None; rd_y := None; rd_IIS := None |}.

(** Lines 383-409 of [solve]: solve, read the status and the solution, and
    report. *)
Definition run (lib : xpress.library) (h : nat) (data : problem_data)
  : M results :=
  call_ h xpress.solve ;;
  p <- read_problem h ;;
  o <- lift (xpress.optimize lib p) ;;
  status <- lift (translate_status data (xpress.ProbStatus o)) ;;
  format_results (results_dict h o status data) data.

(** XPRESS.solve.  The output of [print] is not modelled, and
    [solver_opts ['original_problem']] is read into a variable that is not
    used. *)
Definition solve (lib : xpress.library) (translate_back_QP_ : bool)
  (cp : canonical) (warm_start verbose : bool)
  (solver_opts : list (string * xpress.optvalue)) : M results :=
  let verbose := true in
  h <- load translate_back_QP_ cp warm_start ;;
  set_options lib h verbose solver_opts ;;
  run lib h (problem_data_of cp).

(** ** Vocabulary of the statements *)

(** The sum of an array. *)
Definition total (x : list Z) : Z := foldr Z.add 0 x.

(** What a computation may do to the world when all its calls go to the
    problem behind [h]: the cache stays, no problem is created, the other
    problems stay, the problem behind [h] receives calls, and [self.prob_]
    stays or becomes [h]. *)
Record calls_on (h : nat) (w w' : world) : Prop := {
  co_cache : prev_result w' = prev_result w;
  co_count : length (problems w') = length (problems w);
  co_others : forall h', h' <> h -> problems w' !! h' = problems w !! h';
  co_calls : exists cs, problem_at w' h = problem_at w h ++ cs;
  co_prob : prob_ w' = prob_ w \/ prob_ w' = Some h
}.

Definition only_calls {A} (h : nat) (m : M A) : Prop :=
  forall w, calls_on h w (m w).1.

(** Computations that leave the world as it is. *)
Definition pure {A} (m : M A) : Prop := forall w, (m w).1 = w.

(** Computations that, when they return, return [h]. *)
Definition returns {A} (h : A) (m : M A) : Prop :=
  forall w a, (m w).2 = Ok a -> a = h.

(** Every reference of the world refers to a problem. *)
Definition wf_world (w : world) : Prop :=
  forall prev, prev_result w = Some prev ->
               (prev_problem prev < length (problems w))%nat.

(** The world after the calls [cs] on the problem behind [h]. *)
Definition append_calls (h : nat) (cs : list xpress.call) (w : world) : world :=
  {| problems := alter (fun p => p ++ cs) h (problems w);
     prob_ := prob_ w;
     prev_result := prev_result w |}.

(** The calls of [set_options] when [verbose] holds. *)
Definition verbose_controls : list xpress.call :=
  [ xpress.set_control "miplog" 2;
    xpress.set_control "lplog" 1;
    xpress.set_control "outputlog" 1 ].

(** The calls of [set_options] that pass the solver options on. *)
Definition option_calls (lib : xpress.library)
  (solver_opts : list (string * xpress.optvalue)) : list xpress.call :=
  match opts_get solver_opts "solver_opts" with
  | Some v => [xpress.setControl v]
  | None => []
  end
  ++ [xpress.setControl_dict
        (filter (fun kv => kv.1 ∈ xpress.control_names lib) solver_opts)].

(** The value of an expression when the variables have the values [rho]. *)
Fixpoint eval (rho : xpress.var -> Z) (e : xpress.expr) : Z :=
  match e with
  | xpress.const z => z
  | xpress.term v => rho v
  | xpress.mul a b => eval rho a * eval rho b
  | xpress.sub a b => eval rho a - eval rho b
  | xpress.pow a n => eval rho a ^ n
  | xpress.Sum l => foldr (fun a acc => eval rho a + acc) 0 l
  end.

(** [l[i]] for an index in range, and [0] otherwise. *)
Definition item (l : list Z) (i : Z) : Z := default 0 (l !! Z.to_nat i).

(** The stored entries of the row [i] of [A], in storage order. *)
Definition row_entries (A : spmatrix) (i : Z) : list (Z * Z * Z) :=
  filter (fun e => e_row e = i) (sp_entries A).

(** [acc - coefficient * x[column]] for a stored entry. *)
Definition subtract_entry (acc : xpress.expr) (e : Z * Z * Z) : xpress.expr :=
  xpress.sub acc
    (xpress.mul (xpress.const (e_val e)) (xpress.term (xpress.column (e_col e)))).

(** Following the specification of the back-substitution: the expression
    [b_i - A[i] . x], built from [b_i] by subtracting coefficient times
    variable for the stored entries of the row, one after the other. *)
Definition row_expr (A : spmatrix) (b : list Z) (i : Z) : xpress.expr :=
  foldl subtract_entry (xpress.const (item b i)) (row_entries A i).

(** Following the specification of the back-substitution: one constraint
    [sum (lhs_i^2) <= rhs^2], over the leg rows [1 .. k-1] and the apex row
    [0] of the cone. *)
Definition back_substitution_spec (A : spmatrix) (b : list Z) (k : Z)
  : xpress.constraint :=
  {| xpress.c_lhs :=
       xpress.Sum (map (fun i => xpress.pow (row_expr A b i) 2) (range2 1 k));
     xpress.c_rhs := xpress.pow (row_expr A b 0) 2;
     xpress.c_name := None |}.

(** The axis along which a format compresses its entries: the argument
    [ifCol] that [makeMstart] is given for a matrix of that format, the
    coordinate of an entry along that axis, and its other coordinate, which
    is the one that [A.indices] holds. *)
Definition major_axis (f : format) : Z :=
  match f with CSC => 1 | CSR => 0 end.

Definition major (f : format) (e : Z * Z * Z) : Z :=
  match f with CSC => e_col e | CSR => e_row e end.

Definition minor (f : format) (e : Z * Z * Z) : Z :=
  match f with CSC => e_row e | CSR => e_col e end.

(** The stored entries of [A] whose coordinate along the compressed axis is
    [j], in storage order. *)
Definition segment (A : spmatrix) (j : Z) : list (Z * Z * Z) :=
  filter (fun e => major (sp_format A) e = j) (sp_entries A).

(** The right-hand sides that a call passes for the rows that it loads or
    adds. *)
Definition rhs_passed (c : xpress.call) : list Z :=
  match c with
  | xpress.loadproblem _ _ rhs _ _ _ _ _ _ => rhs
  | xpress.addrows _ rhs _ _ _ => rhs
  | _ => []
  end.

(** The term [c[i] * x[i]] of the objective over the columns loaded. *)
Definition objective_term (c : list Z) (i : Z) : xpress.expr :=
  xpress.mul (xpress.const (item c i)) (xpress.term (xpress.column i)).

(** The array [l] after the values [vals] are written at the positions
    [idx], one after the other: what [chgobj] and [chgrhs] are asked to do
    to the objective and to the right-hand side. *)
Definition written (l : list Z) (idx vals : list Z) : list Z :=
  foldl (fun acc (iv : Z * Z) => <[Z.to_nat iv.1 := iv.2]> acc) l (zip idx vals).

(** ** Examples *)

(** An optimizer that reports the given status, whatever the problem. *)
Definition ex_library (status : Z) : xpress.library :=
  {| xpress.optimize := fun _ =>
       Ok {| xpress.ProbStatus := status;
             xpress.ObjVal := 1;
             xpress.Solution := [1; 0];
             xpress.Dual := [1] |};
     xpress.control_names := ["miplog"; "maxtime"] |}.

(** Minimize [x0 + x1] subject to [x0 + x1 = 1]. *)
Definition ex_lp : problem_data :=
  {| data_C := [1; 1];
     data_A := {| sp_format := CSC; sp_nrow := 1; sp_ncol := 2;
                  sp_entries := [(0, 0, 1); (0, 1, 1)] |};
     data_B := [1];
     dims_EQ_DIM := 1;
     dims_LEQ_DIM := 0;
     dims_SOC_DIM := [];
     data_BOOL_IDX := [];
     data_INT_IDX := [] |}.

Definition ex_lp_problem : canonical :=
  {| objective_params := 1;
     constraints_params := [1];
     problem_data_of := ex_lp |}.

(** Minimize [t] subject to [u = 1] and [(t, u, v)] in the cone of size
    three: the rows of the cone are [(0, 0, 0) - (-t, -u, -v)]. *)
Definition ex_socp : problem_data :=
  {| data_C := [1; 0; 0];
     data_A := {| sp_format := CSC; sp_nrow := 4; sp_ncol := 3;
                  sp_entries := [(1, 0, -1); (0, 1, 1); (2, 1, -1); (3, 2, -1)] |};
     data_B := [1; 0; 0; 0];
     dims_EQ_DIM := 1;
     dims_LEQ_DIM := 0;
     dims_SOC_DIM := [3];
     data_BOOL_IDX := [];
     data_INT_IDX := [] |}.

Definition ex_socp_problem : canonical :=
  {| objective_params := 0;
     constraints_params := [0; 0];
     problem_data_of := ex_socp |}.

(** A cone of size two whose leg row stores a zero: [data[s.A]] has the
    entries [A[0, 0] = -1], [A[1, 0] = 0] (stored) and [A[1, 1] = -3]. *)
Definition ex_stored_zero : problem_data :=
  {| data_C := [1; 0];
     data_A := {| sp_format := CSC; sp_nrow := 2; sp_ncol := 2;
                  sp_entries := [(0, 0, -1); (1, 0, 0); (1, 1, -3)] |};
     data_B := [0; 0];
     dims_EQ_DIM := 0;
     dims_LEQ_DIM := 0;
     dims_SOC_DIM := [2];
     data_BOOL_IDX := [];
     data_INT_IDX := [] |}.

Definition ex_stored_zero_problem : canonical :=
  {| objective_params := 0;
     constraints_params := [0];
     problem_data_of := ex_stored_zero |}.

(** A matrix with one row and four columns, and one stored value in the
    last column. *)
Definition ex_row : spmatrix :=
  {| sp_format := CSC; sp_nrow := 1; sp_ncol := 4;
     sp_entries := [(0, 3, 1)] |}.

(** A matrix with unsorted entries, a column without entries and a stored
    zero. *)
Definition ex_matrix : spmatrix :=
  {| sp_format := CSC; sp_nrow := 2; sp_ncol := 4;
     sp_entries := [(0, 2, 7); (0, 0, 5); (1, 0, 1); (1, 3, 0); (0, 3, 2)] |}.

(** Before the first call: no problem, no cache entry. *)
Definition ex_world : world :=
  {| problems := []; prob_ := None; prev_result := None |}.

(** One problem with two continuous columns, and a cache entry that says
    the second column is binary. *)
Definition ex_world_types : world :=
  {| problems :=
       [[xpress.loadproblem "CVXproblem" ["E"%char] [1] [1; 1] [0; 1; 2]
           [0; 0] [1; 1]
           [xpress.minus_infinity; xpress.minus_infinity]
           [xpress.infinity; xpress.infinity]]];
     prob_ := Some 0%nat;
     prev_result :=
       Some {| prev_problem := 0;
               prev_obj := [1; 1];
               prev_mat := data_A ex_lp;
               prev_rhs := [1];
               prev_cone_ind := [];
               prev_vartype := ["C"%char; "B"%char] |} |}.

(** The world after a first solve of [ex_lp] that the optimizer reports as
    optimal. *)
Definition ex_world_solved : world :=
  (solve (ex_library xpress.lp_optimal) false ex_lp_problem false false []
     ex_world).1.

(** A cone of size two over two variables, without stored zeros: the rows
    are [(0, 0) - (-x0, -3 x1)]. *)
Definition ex_cone : problem_data :=
  {| data_C := [1; 0];
     data_A := {| sp_format := CSC; sp_nrow := 2; sp_ncol := 2;
                  sp_entries := [(0, 0, -1); (1, 1, -3)] |};
     data_B := [0; 0];
     dims_EQ_DIM := 0;
     dims_LEQ_DIM := 0;
     dims_SOC_DIM := [2];
     data_BOOL_IDX := [];
     data_INT_IDX := [] |}.

(** Minimize [x0 + x1 + x2] subject to [x0 + x1 + x2 <= 2], with [x1]
    boolean and [x2] integer. *)
Definition ex_mip : problem_data :=
  {| data_C := [1; 1; 1];
     data_A := {| sp_format := CSC; sp_nrow := 1; sp_ncol := 3;
                  sp_entries := [(0, 0, 1); (0, 1, 1); (0, 2, 1)] |};
     data_B := [2];
     dims_EQ_DIM := 0;
     dims_LEQ_DIM := 1;
     dims_SOC_DIM := [];
     data_BOOL_IDX := [1];
     data_INT_IDX := [2] |}.

Definition ex_mip_problem : canonical :=
  {| objective_params := 0;
     constraints_params := [0];
     problem_data_of := ex_mip |}.

(** The problem [ex_lp] with other coefficients and no parameter:
    minimize [5 x0 + 7 x1] subject to [2 x0 + 3 x1 = 4]. *)
Definition ex_lp_fixed : canonical :=
  {| objective_params := 0;
     constraints_params := [0];
     problem_data_of :=
       {| data_C := [5; 7];
          data_A := {| sp_format := CSC; sp_nrow := 1; sp_ncol := 2;
                       sp_entries := [(0, 0, 2); (0, 1, 3)] |};
          data_B := [4];
          dims_EQ_DIM := 1;
          dims_LEQ_DIM := 0;
          dims_SOC_DIM := [];
          data_BOOL_IDX := [];
          data_INT_IDX := [] |} |}.

Definition ex_cone_problem : canonical :=
  {| objective_params := 0;
     constraints_params := [0];
     problem_data_of := ex_cone |}.

(** A solver output for [ex_lp]: the status [lp_optimal], a solution and
    its duals. *)
Definition ex_results_dict : results_dict_t :=
  {| rd_problem := 0;
     rd_status := xpress.lp_optimal;
     rd_obj_value := 1;
     rd_x := Some [1; 0];
     rd_y := Some [1];
     rd_IIS := Some PyNone |}.

(** The problem [ex_lp] with a stored entry in the column [-1]. *)
Definition ex_negative_column : canonical :=
  {| objective_params := 0;
     constraints_params := [0];
     problem_data_of :=
       {| data_C := [1; 1];
          data_A := {| sp_format := CSC; sp_nrow := 1; sp_ncol := 2;
                       sp_entries := [(0, -1, 1); (0, 1, 1)] |};
          data_B := [1];
          dims_EQ_DIM := 1;
          dims_LEQ_DIM := 0;
          dims_SOC_DIM := [];
          data_BOOL_IDX := [];
          data_INT_IDX := [] |} |}.

(** * Properties *)

(** ** Sequences *)

Lemma len_nonneg {A} (l : list A) : 0 <= len l.
Proof. unfold len. lia. Qed.

Lemma len_app {A} (l k : list A) : len (l ++ k) = len l + len k.
Proof. unfold len. rewrite length_app. lia. Qed.

Lemma len_times {A} (x : A) (k : Z) : len (Py.times x k) = Z.max 0 k.
Proof. unfold len, Py.times. rewrite length_replicate. lia. Qed.

Lemma len_range2 (lo hi : Z) : len (range2 lo hi) = Z.max 0 (hi - lo).
Proof. unfold len, range2. rewrite length_map, length_seq. lia. Qed.

Lemma len_range (k : Z) : len (range k) = Z.max 0 k.
Proof. unfold range. rewrite len_range2. lia. Qed.

(** ** The column-start array *)

Lemma total_app (x y : list Z) : total (x ++ y) = total x + total y.
Proof. unfold total. induction x as [|v x IH]; simpl; lia. Qed.

Lemma total_replicate_0 (k : nat) : total (replicate k 0) = 0.
Proof. unfold total. induction k; simpl; lia. Qed.

Lemma cumsum_from_length (acc : Z) (x : list Z) :
  length (numpy.cumsum_from acc x) = length x.
Proof. revert acc. induction x as [|v x IH]; intros acc; simpl; [done|]. by rewrite IH. Qed.

Lemma cumsum_from_bound (acc : Z) (x : list Z) :
  Forall (fun v => 0 <= v) x ->
  Forall (fun v => acc <= v) (numpy.cumsum_from acc x).
Proof.
  revert acc. induction x as [|v x IH]; intros acc Hx; simpl; [constructor|].
  inversion Hx as [|? ? Hv Hx']; subst. constructor; [lia|].
  eapply Forall_impl; [apply IH, Hx'|]. simpl. intros; lia.
Qed.

Lemma cumsum_from_sorted (acc : Z) (x : list Z) :
  Forall (fun v => 0 <= v) x ->
  StronglySorted Z.le (numpy.cumsum_from acc x).
Proof.
  revert acc. induction x as [|v x IH]; intros acc Hx; simpl; [constructor|].
  inversion Hx as [|? ? Hv Hx']; subst. constructor; [by apply IH|].
  by apply cumsum_from_bound.
Qed.

Lemma cumsum_from_last (acc : Z) (x : list Z) :
  x <> [] -> last (numpy.cumsum_from acc x) = Some (acc + total x).
Proof.
  revert acc. induction x as [|v x IH]; intros acc Hx; [done|].
  destruct x as [|v' x].
  - simpl. unfold total. simpl. f_equal. lia.
  - change (numpy.cumsum_from acc (v :: v' :: x))
      with ((acc + v) :: numpy.cumsum_from (acc + v) (v' :: x)).
    rewrite last_cons, IH by done. unfold total. simpl. f_equal. lia.
Qed.

Lemma occurrences_nonneg (i : Z) (x : list Z) : 0 <= numpy.occurrences i x.
Proof. apply len_nonneg. Qed.

Lemma occurrences_cons (i v : Z) (x : list Z) :
  numpy.occurrences i (v :: x)
  = (if decide (v = i) then 1 else 0) + numpy.occurrences i x.
Proof.
  unfold numpy.occurrences, len. rewrite filter_cons.
  destruct (decide (v = i)); simpl; lia.
Qed.

Lemma total_indicator (v : Z) (m : nat) :
  total (map (fun i => if decide (v = i) then 1 else 0)
             (map (fun i => 0 + Z.of_nat i) (seq 0 m)))
  = if decide (0 <= v < Z.of_nat m) then 1 else 0.
Proof.
  induction m as [|m IH].
  - simpl. destruct (decide _); [lia|done].
  - rewrite seq_S, !map_app, total_app, IH. simpl. unfold total. simpl.
    repeat destruct (decide _); lia.
Qed.

Lemma total_map_add {A} (f g : A -> Z) (l : list A) :
  total (map (fun i => f i + g i) l) = total (map f l) + total (map g l).
Proof. unfold total. induction l as [|a l IH]; simpl; lia. Qed.

Lemma total_occurrences (x : list Z) (m : Z) :
  Forall (fun v => 0 <= v < m) x ->
  total (map (fun i => numpy.occurrences i x) (range m)) = len x.
Proof.
  induction x as [|v x IH]; intros Hx.
  - unfold range, range2, total. induction (seq 0 _); simpl; [done|].
    unfold numpy.occurrences in *. simpl. unfold len in *. simpl in *. lia.
  - inversion Hx as [|? ? Hv Hx']; subst.
    erewrite map_ext; [|intros i; apply occurrences_cons].
    rewrite (total_map_add (fun i => if decide (v = i) then 1 else 0)).
    rewrite IH by done. unfold range, range2.
    rewrite total_indicator. unfold len. simpl.
    destruct (decide _); lia.
Qed.

Lemma span_nonneg (x : list Z) : 0 <= numpy.span x.
Proof. unfold numpy.span. induction x; simpl; lia. Qed.

Lemma span_bound (x : list Z) : Forall (fun v => v < numpy.span x) x.
Proof.
  unfold numpy.span. induction x as [|v x IH]; simpl; constructor; [lia|].
  eapply Forall_impl; [exact IH|]. simpl. intros; lia.
Qed.

Lemma span_le (x : list Z) (n : Z) :
  0 <= n -> Forall (fun v => v < n) x -> numpy.span x <= n.
Proof.
  intros Hn. unfold numpy.span. induction 1; simpl; lia.
Qed.

Lemma bincount_nonneg (x : list Z) :
  Forall (fun v => 0 <= v) x ->
  numpy.bincount x = Ok (map (fun i => numpy.occurrences i x) (range (numpy.span x))).
Proof.
  intros Hx. unfold numpy.bincount.
  destruct (existsb _ x) eqn:E; [|done].
  apply existsb_exists in E as (v & Hin & Hv).
  rewrite Forall_forall in Hx. apply list_elem_of_In, Hx in Hin. lia.
Qed.

Lemma bincount_negative (x : list Z) :
  Exists (fun v => v < 0) x -> numpy.bincount x = Raise ValueError.
Proof.
  intros Hx. unfold numpy.bincount.
  destruct (existsb _ x) eqn:E; [done|].
  apply Exists_exists in Hx as (v & Hin & Hv).
  assert (existsb (fun v => v <? 0) x = true) as E'; [|congruence].
  apply existsb_exists. exists v. split; [by apply list_elem_of_In|lia].
Qed.

(** The array that [makeMstart] accumulates: a leading zero, the counts, and
    zeros up to the length [n] when the counts are fewer. *)
Lemma makeMstart_eq (A : spmatrix) (n ifCol : Z) (coords : list Z) :
  pair_getitem (nonzero A) ifCol = Ok coords ->
  Forall (fun v => 0 <= v) coords ->
  makeMstart A n ifCol
  = Ok (numpy.cumsum
          ([0] ++ map (fun i => numpy.occurrences i coords) (range (numpy.span coords))
               ++ Py.times 0 (n - Z.max 0 (numpy.span coords)))).
Proof.
  intros Hc Hx. unfold makeMstart. rewrite Hc. simpl.
  rewrite bincount_nonneg by done. simpl.
  unfold len at 1. rewrite length_map. fold (len (range (numpy.span coords))).
  by rewrite len_range.
Qed.

Lemma column_starts_facts (coords : list Z) (n : Z) :
  Forall (fun v => 0 <= v) coords ->
  let mstart :=
    numpy.cumsum
      ([0] ++ map (fun i => numpy.occurrences i coords) (range (numpy.span coords))
           ++ Py.times 0 (n - Z.max 0 (numpy.span coords))) in
  len mstart = Z.max n (numpy.span coords) + 1
  /\ StronglySorted Z.le mstart
  /\ last mstart = Some (len coords).
Proof.
  intros Hx. cbv zeta.
  pose proof (span_nonneg coords) as Hs.
  set (counts := map (fun i => numpy.occurrences i coords) (range (numpy.span coords))).
  assert (len counts = numpy.span coords) as Hlen.
  { unfold counts, len. rewrite length_map. fold (len (range (numpy.span coords))).
    rewrite len_range. lia. }
  assert (Forall (fun v => 0 <= v)
            ([0] ++ counts ++ Py.times 0 (n - Z.max 0 (numpy.span coords)))) as Hpos.
  { apply Forall_app. split; [by repeat constructor|].
    apply Forall_app. split.
    - unfold counts. apply Forall_map, Forall_true. intros i. apply occurrences_nonneg.
    - unfold Py.times. apply Forall_replicate. lia. }
  split; [|split].
  - unfold numpy.cumsum, len. rewrite cumsum_from_length.
    fold (len ([0] ++ counts ++ Py.times 0 (n - Z.max 0 (numpy.span coords)))).
    rewrite !len_app, len_times, Hlen. unfold len. simpl. lia.
  - by apply cumsum_from_sorted.
  - unfold numpy.cumsum. rewrite cumsum_from_last by done.
    rewrite !total_app. unfold Py.times. rewrite total_replicate_0.
    unfold counts. rewrite total_occurrences.
    + unfold total. simpl. f_equal. lia.
    + pose proof (span_bound coords) as Hb.
      rewrite Forall_forall in *. intros v Hv. split; [by apply Hx|by apply Hb].
Qed.

(** C5, amended.  For the coordinates of the nonzeros of a matrix along one
    axis: when none is negative, [makeMstart] returns an array that is
    non-decreasing, whose last entry is the number of coordinates, and whose
    length is the larger of [n] and one more than the largest coordinate,
    plus one; the length is [n + 1] when [n] is not negative and every
    coordinate is below [n].  A negative coordinate makes [numpy.bincount]
    raise [ValueError]. *)
Theorem makeMstart_column_starts (A : spmatrix) (n ifCol : Z) (coords : list Z) :
  pair_getitem (nonzero A) ifCol = Ok coords ->
  (Forall (fun v => 0 <= v) coords ->
   exists mstart,
     makeMstart A n ifCol = Ok mstart
     /\ len mstart = Z.max n (numpy.span coords) + 1
     /\ (0 <= n -> Forall (fun v => v < n) coords -> len mstart = n + 1)
     /\ StronglySorted Z.le mstart
     /\ last mstart = Some (len coords))
  /\ (Exists (fun v => v < 0) coords ->
      makeMstart A n ifCol = Raise ValueError).
Proof.
  intros Hc. split.
  - intros Hx. eexists. split; [by apply makeMstart_eq|].
    destruct (column_starts_facts coords n Hx) as (Hl & Hsorted & Hlast).
    split; [exact Hl|]. split; [|by split].
    intros Hn Hb. rewrite Hl. pose proof (span_le coords n Hn Hb).
    pose proof (span_nonneg coords). lia.
  - intros Hneg. unfold makeMstart. rewrite Hc. simpl.
    by rewrite bincount_negative.
Qed.

(** The arrays of the nonzeros that [loadproblem] and [addrows] receive:
    [mstart] counts the coordinates of [A.nonzero ()], which leaves out the
    stored zeros, and [A.indices] and [A.data] hold every stored value.  When
    a zero is stored, the last entry of [mstart] is less than the number of
    values passed. *)
Theorem stored_zero_column_starts (A : spmatrix) (n ifCol : Z) (mstart : list Z) :
  Exists (fun e => e_val e = 0) (sp_entries A) ->
  makeMstart A n ifCol = Ok mstart ->
  exists nnz, last mstart = Some nnz /\ nnz < len (scipy.data A)
              /\ len (scipy.indices A) = len (scipy.data A).
Proof.
  intros Hz Hm.
  assert (forall coords,
            pair_getitem (nonzero A) ifCol = Ok coords ->
            len coords < len (scipy.data A)) as Hlt.
  { intros coords Hc. unfold pair_getitem in Hc.
    apply Exists_exists in Hz as (e & He & Hv).
    assert (length (filter (fun e => (e_val e <> 0)%Z) (sp_entries A))
            < length (sp_entries A))%nat as Hf
      by (eapply length_filter_lt; [exact He|]; simpl; lia).
    unfold nonzero in Hc. simpl in Hc.
    repeat case_match; inversion Hc; subst;
      unfold scipy.data, len; rewrite !length_map; lia. }
  unfold makeMstart in Hm.
  destruct (pair_getitem (nonzero A) ifCol) as [coords|e] eqn:Hc; [|done].
  simpl in Hm.
  destruct (existsb (fun v => v <? 0) coords) eqn:Hneg.
  { unfold numpy.bincount in Hm. rewrite Hneg in Hm. done. }
  assert (Forall (fun v => 0 <= v) coords) as Hx.
  { apply Forall_forall. intros v Hv.
    destruct (Z.ltb_spec v 0) as [Hlt0|]; [|done].
    assert (existsb (fun v => v <? 0) coords = true) as E; [|congruence].
    apply existsb_exists. exists v. split; [by apply list_elem_of_In|lia]. }
  pose proof (makeMstart_eq A n ifCol coords Hc Hx) as E.
  unfold makeMstart in E. rewrite Hc in E. simpl in E. rewrite E in Hm.
  inversion Hm; subst mstart.
  destruct (column_starts_facts coords n Hx) as (_ & _ & Hlast).
  exists (len coords). split; [exact Hlast|]. split; [by apply Hlt|].
  unfold scipy.indices, scipy.data, len. destruct (sp_format A); by rewrite !length_map.
Qed.

(** ** Computations *)

Lemma bind_Ok {A B} (m : M A) (k : A -> M B) (w w1 : world) (a : A) :
  m w = (w1, Ok a) -> bind m k w = k a w1.
Proof. intros H. unfold bind. by rewrite H. Qed.

Lemma bind_Raise {A B} (m : M A) (k : A -> M B) (w w1 : world) (e : exn) :
  m w = (w1, Raise e) -> bind m k w = (w1, Raise e).
Proof. intros H. unfold bind. by rewrite H. Qed.

Lemma bind_inv {A B} (m : M A) (k : A -> M B) (w w' : world) (r : result B) :
  bind m k w = (w', r) ->
  (exists w1 a, m w = (w1, Ok a) /\ k a w1 = (w', r))
  \/ (exists e, m w = (w', Raise e) /\ r = Raise e).
Proof.
  unfold bind. destruct (m w) as [w1 [a|e]]; intros H.
  - left. by exists w1, a.
  - right. exists e. by inversion H.
Qed.

Lemma calls_on_refl (h : nat) (w : world) : calls_on h w w.
Proof.
  split; try done; [|by left]. exists []. by rewrite app_nil_r.
Qed.

Lemma calls_on_trans (h : nat) (w1 w2 w3 : world) :
  calls_on h w1 w2 -> calls_on h w2 w3 -> calls_on h w1 w3.
Proof.
  intros [C1 N1 O1 [cs1 L1] P1] [C2 N2 O2 [cs2 L2] P2]. split.
  - congruence.
  - congruence.
  - intros h' Hh. rewrite O2, O1; done.
  - exists (cs1 ++ cs2). rewrite L2, L1. by rewrite app_assoc.
  - destruct P2 as [P2|P2]; [rewrite P2; exact P1|by right].
Qed.

Lemma only_calls_ret {A} (h : nat) (a : A) : only_calls h (ret a).
Proof. intros w. apply calls_on_refl. Qed.

Lemma only_calls_lift {A} (h : nat) (r : result A) : only_calls h (lift r).
Proof. intros w. apply calls_on_refl. Qed.

Lemma only_calls_read (h h' : nat) : only_calls h (read_problem h').
Proof. intros w. apply calls_on_refl. Qed.

Lemma only_calls_bind {A B} (h : nat) (m : M A) (k : A -> M B) :
  only_calls h m -> (forall a, only_calls h (k a)) -> only_calls h (bind m k).
Proof.
  intros Hm Hk w. unfold bind. specialize (Hm w).
  destruct (m w) as [w1 [a|e]]; simpl in *; [|done].
  eapply calls_on_trans; [exact Hm|apply Hk].
Qed.

Lemma problem_at_call (h : nat) (c : xpress.call) (w : world) :
  (h < length (problems w))%nat ->
  problem_at (call_ h c w).1 h = problem_at w h ++ [c].
Proof.
  intros Hh. unfold problem_at, call_. simpl.
  destruct (lookup_lt_is_Some_2 _ _ Hh) as [p Hp].
  rewrite list_lookup_alter_eq, Hp. done.
Qed.

Lemma only_calls_call (h : nat) (c : xpress.call) : only_calls h (call_ h c).
Proof.
  intros w. unfold call_. split; simpl; try done.
  - by rewrite length_alter.
  - intros h' Hh. by rewrite list_lookup_alter_ne.
  - unfold problem_at. simpl. rewrite list_lookup_alter_eq.
    destruct (problems w !! h); simpl; [by eexists|]. exists []. done.
  - by left.
Qed.

Lemma only_calls_set_prob (h : nat) : only_calls h (set_prob h).
Proof.
  intros w. unfold set_prob. split; simpl; try done; [|by right].
  exists []. by rewrite app_nil_r.
Qed.

Lemma only_calls_for {A S} (h : nat) (l : list A) (body : S -> A -> M S) (acc : S) :
  (forall acc a, only_calls h (body acc a)) -> only_calls h (for_ l body acc).
Proof.
  intros Hb. revert acc. induction l as [|a l IH]; intros acc; simpl.
  - apply only_calls_ret.
  - apply only_calls_bind; [apply Hb|]. intros acc'. apply IH.
Qed.

Create HintDb calls discriminated.
#[export] Hint Resolve only_calls_ret only_calls_lift only_calls_read
  only_calls_call only_calls_set_prob : calls.

Ltac calls :=
  repeat first
    [ apply only_calls_bind; [|intros ?]
    | apply only_calls_for; intros ? ?
    | solve [auto with calls]
    | match goal with
      | |- only_calls _ (if ?b then _ else _) => destruct b
      | |- only_calls _ (match ?o with Some _ => _ | None => _ end) => destruct o
      end ].

Lemma only_calls_update_objective h cp c c0 :
  only_calls h (update_objective h cp c c0).
Proof. unfold update_objective. calls. Qed.

Lemma only_calls_update_constraints h cp A A0 b b0 :
  only_calls h (update_constraints h cp A A0 b b0).
Proof. unfold update_constraints. calls. Qed.

Lemma only_calls_update_coltypes h c vartype0 :
  only_calls h (update_coltypes h c vartype0).
Proof. unfold update_coltypes. calls. Qed.

Lemma only_calls_warm_start_update cp prev c A b :
  only_calls (prev_problem prev) (warm_start_update cp prev c A b).
Proof.
  unfold warm_start_update.
  pose proof only_calls_update_objective. pose proof only_calls_update_constraints.
  pose proof only_calls_update_coltypes. calls.
Qed.

Lemma only_calls_auxiliary_variables h A b iCone k :
  only_calls h (auxiliary_variables h A b iCone k).
Proof. unfold auxiliary_variables. calls. Qed.

Lemma only_calls_soc_block tb h data x st k :
  only_calls h (soc_block tb h data x st k).
Proof.
  unfold soc_block. pose proof only_calls_auxiliary_variables. calls.
Qed.

Lemma only_calls_set_options lib h verbose opts :
  only_calls h (set_options lib h verbose opts).
Proof. unfold set_options. calls. Qed.

Lemma pure_ret {A} (a : A) : pure (ret a).
Proof. done. Qed.

Lemma pure_lift {A} (r : result A) : pure (lift r).
Proof. done. Qed.

Lemma pure_bind {A B} (m : M A) (k : A -> M B) :
  pure m -> (forall a, pure (k a)) -> pure (bind m k).
Proof.
  intros Hm Hk w. unfold bind. specialize (Hm w).
  destruct (m w) as [w1 [a|e]]; simpl in *; subst; [apply Hk|done].
Qed.

Lemma returns_ret {A} (h : A) : returns h (ret h).
Proof. intros w a H. by inversion H. Qed.

Lemma returns_bind {A B} (h : B) (m : M A) (k : A -> M B) :
  (forall a, returns h (k a)) -> returns h (bind m k).
Proof.
  intros Hk w b. unfold bind. destruct (m w) as [w1 [a|e]]; simpl.
  - apply Hk.
  - done.
Qed.

Lemma bind_new_problem {B} (k : nat -> M B) (w : world) :
  bind new_problem k w
  = k (length (problems w))
      {| problems := problems w ++ [[]]; prob_ := prob_ w;
         prev_result := prev_result w |}.
Proof. reflexivity. Qed.

Lemma bind_set_prob {B} (h : nat) (k : unit -> M B) (w : world) :
  bind (set_prob h) k w
  = k tt {| problems := problems w; prob_ := Some h;
            prev_result := prev_result w |}.
Proof. reflexivity. Qed.

Lemma bind_get_prev_result {B} (k : option prev_result_dict -> M B) (w : world) :
  bind get_prev_result k w = k (prev_result w) w.
Proof. reflexivity. Qed.

Lemma bind_read_problem {B} (h : nat) (k : xpress.problem -> M B) (w : world) :
  bind (read_problem h) k w = k (problem_at w h) w.
Proof. reflexivity. Qed.

Lemma bind_lift_Ok {A B} (a : A) (k : A -> M B) (w : world) :
  bind (lift (Ok a)) k w = k a w.
Proof. reflexivity. Qed.

Lemma bind_lift_Raise {A B} (e : exn) (k : A -> M B) (w : world) :
  bind (lift (Raise e)) k w = (w, Raise e).
Proof. reflexivity. Qed.

Lemma bind_ret {A B} (a : A) (k : A -> M B) (w : world) :
  bind (ret a) k w = k a w.
Proof. reflexivity. Qed.

Lemma bind_assoc {A B C} (m : M A) (k : A -> M B) (k' : B -> M C) (w : world) :
  bind (bind m k) k' w = bind m (fun a => bind (k a) k') w.
Proof. unfold bind. by destruct (m w) as [w1 [a|e]]. Qed.

(** The world after [cold_load]: one more problem, which [self.prob_] refers
    to; the cache and the other problems are as before. *)
Lemma cold_load_world tb data c A b nE nL n (w : world) :
  let w' := (cold_load tb data c A b nE nL n w).1 in
  prev_result w' = prev_result w
  /\ length (problems w') = S (length (problems w))
  /\ prob_ w' = Some (length (problems w))
  /\ (forall h', (h' < length (problems w))%nat ->
                 problems w' !! h' = problems w !! h')
  /\ (forall h, (cold_load tb data c A b nE nL n w).2 = Ok h ->
                h = length (problems w)).
Proof.
  unfold cold_load. rewrite bind_new_problem, bind_set_prob.
  cbn [problems prob_ prev_result].
  set (h := length (problems w)).
  set (w1 := {| problems := problems w ++ [[]]; prob_ := Some h;
                prev_result := prev_result w |}).
  match goal with |- context [bind ?m ?k w1] => set (rest := bind m k) end.
  assert (only_calls h rest) as Hc.
  { unfold rest. pose proof only_calls_soc_block. calls. }
  assert (returns h rest) as Hr.
  { unfold rest. repeat (apply returns_bind; intros ?). apply returns_ret. }
  destruct (Hc w1) as [C N O _ P]. simpl. repeat split.
  - exact C.
  - rewrite N. simpl. rewrite length_app. simpl. lia.
  - destruct P as [P|P]; rewrite P; done.
  - intros h' Hh. rewrite O by (unfold h; lia). simpl.
    by rewrite lookup_app_l.
  - intros h'. apply Hr.
Qed.

(** The world after [warm_start_update]: calls on the cached problem, which
    [self.prob_] refers to. *)
Lemma warm_start_update_world cp prev c A b (w : world) :
  let w' := (warm_start_update cp prev c A b w).1 in
  calls_on (prev_problem prev) w w'
  /\ prob_ w' = Some (prev_problem prev)
  /\ (forall h, (warm_start_update cp prev c A b w).2 = Ok h ->
                h = prev_problem prev).
Proof.
  simpl. split; [apply only_calls_warm_start_update|]. split.
  - unfold warm_start_update. rewrite bind_set_prob.
    cbn [problems prob_ prev_result].
    match goal with |- context [bind ?m ?k ?w1] => set (rest := bind m k); set (w1' := w1) end.
    assert (only_calls (prev_problem prev) rest) as Hc.
    { unfold rest. pose proof only_calls_update_objective.
      pose proof only_calls_update_constraints.
      pose proof only_calls_update_coltypes. calls. }
    destruct (Hc w1') as [_ _ _ _ [P|P]]; rewrite P; done.
  - intros h. revert w h.
    change (returns (prev_problem prev) (warm_start_update cp prev c A b)).
    unfold warm_start_update. repeat (apply returns_bind; intros ?). apply returns_ret.
Qed.

(** ** Calls on a problem *)

Lemma call_eq (h : nat) (c : xpress.call) (w : world) :
  call_ h c w = (append_calls h [c] w, Ok tt).
Proof. reflexivity. Qed.

Lemma bind_call {B} (h : nat) (c : xpress.call) (k : unit -> M B) (w : world) :
  bind (call_ h c) k w = k tt (append_calls h [c] w).
Proof. reflexivity. Qed.

Lemma append_calls_nil (h : nat) (w : world) : append_calls h [] w = w.
Proof.
  unfold append_calls. destruct w as [ps p c]. simpl. f_equal.
  apply list_alter_id. intros x. apply app_nil_r.
Qed.

Lemma append_calls_app (h : nat) (cs1 cs2 : list xpress.call) (w : world) :
  append_calls h cs2 (append_calls h cs1 w) = append_calls h (cs1 ++ cs2) w.
Proof.
  unfold append_calls. simpl. f_equal.
  rewrite list_alter_alter_eq. apply list_alter_ext; [|done].
  intros x _. simpl. by rewrite app_assoc.
Qed.

Lemma problem_at_append (h : nat) (cs : list xpress.call) (w : world) :
  (h < length (problems w))%nat ->
  problem_at (append_calls h cs w) h = problem_at w h ++ cs.
Proof.
  intros Hh. unfold problem_at, append_calls. simpl.
  destruct (lookup_lt_is_Some_2 _ _ Hh) as [p Hp].
  by rewrite list_lookup_alter_eq, Hp.
Qed.

Lemma problem_at_append_ne (h h' : nat) (cs : list xpress.call) (w : world) :
  h <> h' -> problem_at (append_calls h cs w) h' = problem_at w h'.
Proof.
  intros Hh. unfold problem_at, append_calls. simpl.
  by rewrite list_lookup_alter_ne.
Qed.

Lemma length_append_calls (h : nat) (cs : list xpress.call) (w : world) :
  length (problems (append_calls h cs w)) = length (problems w).
Proof. unfold append_calls. simpl. apply length_alter. Qed.

Ltac run_calls :=
  repeat first
    [ rewrite bind_assoc | rewrite bind_call | rewrite bind_ret
    | rewrite bind_lift_Ok | rewrite bind_read_problem
    | rewrite bind_set_prob | rewrite append_calls_app ].

Lemma set_options_eq lib h opts (w : world) :
  set_options lib h true opts w
  = (append_calls h (verbose_controls ++ option_calls lib opts) w, Ok tt).
Proof.
  unfold set_options, option_calls, verbose_controls. run_calls.
  destruct (opts_get opts "solver_opts") as [v|]; run_calls;
    rewrite call_eq, append_calls_app; reflexivity.
Qed.

(** ** Reporting *)

(** The result that [format_results] builds once the cache is written. *)
Lemma format_results_eq (rd : results_dict_t) (data : problem_data) (w : world) :
  format_results rd data w
  = let h := rd_problem rd in
    let w1 := {| problems := problems w; prob_ := Some h;
                 prev_result := prev_result w |} in
    match xpress.getcoltype (problem_at w h) 0 (len (data_C data) - 1) with
    | Raise e => (w1, Raise e)
    | Ok vartypes =>
        ({| problems := problems w; prob_ := Some h;
            prev_result :=
              Some {| prev_problem := h;
                      prev_obj := data_C data;
                      prev_mat := data_A data;
                      prev_rhs := data_B data;
                      prev_cone_ind := dims_SOC_DIM data;
                      prev_vartype := vartypes |} |},
         status <-? translate_status data (rd_status rd) ;
         solution <-?
           (if bool_decide (status ∈ s.SOLUTION_PRESENT) then
              x <-? key (rd_x rd) ;
              if negb (is_mip data) then
                y <-? key (rd_y rd) ;
                Ok (Some x, Some (rd_obj_value rd), Some y)
              else Ok (Some x, Some (rd_obj_value rd), None)
            else Ok (None, None, None)) ;
         iis <-? key (rd_IIS rd) ;
         Ok {| STATUS := Some status;
               PRIMAL := solution.1.1;
               VALUE := solution.1.2;
               EQ_DUAL := solution.2;
               IIS := Some iis |})
    end.
Proof.
  unfold format_results.
  change (negb (value_eqb (PyInt (rd_status rd)) (PyStr s.SOLVER_ERROR))) with true.
  cbv iota. rewrite !bind_assoc, bind_set_prob, bind_assoc, bind_read_problem.
  cbn [problems prob_ prev_result]. rewrite bind_assoc.
  change (problem_at {| problems := problems w; prob_ := Some (rd_problem rd);
                        prev_result := prev_result w |} (rd_problem rd))
    with (problem_at w (rd_problem rd)).
  cbv zeta.
  destruct (xpress.getcoltype _ _ _) as [vartypes|e]; [|reflexivity].
  rewrite bind_lift_Ok. unfold bind at 1. unfold set_prev_result at 1.
  cbn [problems prob_ prev_result].
  destruct (translate_status data (rd_status rd)) as [status|e]; [|reflexivity].
  rewrite bind_lift_Ok. cbn [rbind].
  destruct (bool_decide (status ∈ s.SOLUTION_PRESENT)).
  - destruct (rd_x rd) as [x|]; [|reflexivity]. cbn [key rbind].
    rewrite bind_assoc, bind_lift_Ok.
    destruct (is_mip data); cbn [negb].
    + rewrite bind_ret. destruct (rd_IIS rd); reflexivity.
    + destruct (rd_y rd) as [y|]; [|reflexivity]. cbn [key rbind].
      rewrite bind_assoc, bind_lift_Ok, bind_ret.
      destruct (rd_IIS rd); reflexivity.
  - rewrite bind_ret. destruct (rd_IIS rd); reflexivity.
Qed.

Lemma run_eq (lib : xpress.library) (h : nat) (data : problem_data) (w : world) :
  run lib h data w
  = let w1 := (call_ h xpress.solve w).1 in
    match xpress.optimize lib (problem_at w1 h) with
    | Raise e => (w1, Raise e)
    | Ok o =>
        match translate_status data (xpress.ProbStatus o) with
        | Raise e => (w1, Raise e)
        | Ok status => format_results (results_dict h o status data) data w1
        end
    end.
Proof.
  unfold run. unfold bind at 1. cbn [call_ fst snd].
  rewrite bind_read_problem. cbv zeta.
  match goal with |- context [xpress.optimize lib ?p] =>
    destruct (xpress.optimize lib p) as [o|e]; [|reflexivity] end.
  rewrite bind_lift_Ok.
  destruct (translate_status data (xpress.ProbStatus o)); reflexivity.
Qed.

Lemma results_dict_problem h o status data :
  rd_problem (results_dict h o status data) = h.
Proof. unfold results_dict. repeat case_match; reflexivity. Qed.

Lemma results_dict_status h o status data :
  rd_status (results_dict h o status data) = xpress.ProbStatus o.
Proof. unfold results_dict. repeat case_match; reflexivity. Qed.


Lemma problems_run (lib : xpress.library) (h : nat) (data : problem_data) (w : world) :
  problems (run lib h data w).1 = problems (call_ h xpress.solve w).1.
Proof.
  rewrite run_eq. cbv zeta.
  destruct (xpress.optimize _ _) as [o|e]; [|reflexivity].
  destruct (translate_status _ _) as [st|e]; [|reflexivity].
  rewrite format_results_eq. cbv zeta.
  destruct (xpress.getcoltype _ _ _); reflexivity.
Qed.

(** ** The status tables *)

Lemma dict_get_spec {V} (d : list (Z * V)) (k : Z) :
  (exists v, dict_get d k = Ok v /\ (k, v) ∈ d)
  \/ (dict_get d k = Raise KeyError /\ k ∉ d.*1).
Proof.
  induction d as [|[k' v'] d IH]; simpl.
  - right. split; [done|]. apply not_elem_of_nil.
  - destruct (Z.eqb_spec k k') as [->|Hne].
    + left. exists v'. split; [done|]. apply list_elem_of_here.
    + destruct IH as [(v & Hv & Hin)|[Hr Hnin]].
      * left. exists v. split; [done|]. by apply list_elem_of_further.
      * right. split; [done|]. rewrite not_elem_of_cons. done.
Qed.

Lemma status_map_values (data : problem_data) :
  Forall (fun kv : Z * string =>
            kv.2 ∈ [s.OPTIMAL; s.INFEASIBLE; s.UNBOUNDED; s.SOLVER_ERROR])
         (status_map data).
Proof.
  unfold status_map.
  destruct (is_mip data); apply (bool_decide_unpack _); vm_compute; done.
Qed.

Lemma status_map_keys (data : problem_data) : NoDup (status_map data).*1.
Proof.
  unfold status_map.
  destruct (is_mip data); apply (bool_decide_unpack _); vm_compute; done.
Qed.

Lemma translate_status_absent (data : problem_data) (status : Z) :
  status ∉ (status_map data).*1 ->
  translate_status data status = Raise KeyError.
Proof.
  intros Hnot. unfold translate_status.
  destruct (dict_get_spec (status_map data) status) as [(st & _ & Hin)|[Hr _]];
    [|exact Hr].
  exfalso. apply Hnot. apply list_elem_of_fmap. by exists (status, st).
Qed.

(** The keys of the LP table are the statuses from [lp_unstarted] to
    [lp_nonconvex], those of the mixed-integer table the statuses from
    [mip_not_loaded] to [mip_unbounded]. *)
Lemma status_map_lp_keys (status : Z) :
  status ∈ status_map_lp.*1
  <-> xpress.lp_unstarted <= status <= xpress.lp_nonconvex.
Proof.
  unfold status_map_lp, xpress.lp_unstarted, xpress.lp_nonconvex. cbn. split.
  - intros H. repeat (apply elem_of_cons in H as [->|H]; [done|]).
    by apply elem_of_nil in H.
  - intros H.
    assert (status = 0 \/ status = 1 \/ status = 2 \/ status = 3 \/ status = 4
            \/ status = 5 \/ status = 6 \/ status = 7 \/ status = 8) as Hs by lia.
    repeat (destruct Hs as [->|Hs];
            [repeat first [apply list_elem_of_here | apply list_elem_of_further]|]).
    subst. repeat first [apply list_elem_of_here | apply list_elem_of_further].
Qed.

Lemma status_map_mip_keys (status : Z) :
  status ∈ status_map_mip.*1
  <-> xpress.mip_not_loaded <= status <= xpress.mip_unbounded.
Proof.
  unfold status_map_mip, xpress.mip_not_loaded, xpress.mip_unbounded. cbn. split.
  - intros H. repeat (apply elem_of_cons in H as [->|H]; [done|]).
    by apply elem_of_nil in H.
  - intros H.
    assert (status = 0 \/ status = 1 \/ status = 2 \/ status = 3 \/ status = 4
            \/ status = 5 \/ status = 6 \/ status = 7) as Hs by lia.
    repeat (destruct Hs as [->|Hs];
            [repeat first [apply list_elem_of_here | apply list_elem_of_further]|]).
    subst. repeat first [apply list_elem_of_here | apply list_elem_of_further].
Qed.

(** C4.  The table that applies is the mixed-integer one exactly when the
    problem declares a boolean or an integer variable.  Every native status
    of the domain of that table is translated, into the one canonical status
    of its row: for a problem that is not mixed-integer, the nine statuses
    from [lp_unstarted] to [lp_nonconvex] give [OPTIMAL] for [lp_optimal],
    [INFEASIBLE] for [lp_infeas], [UNBOUNDED] for [lp_unbounded] and
    [SOLVER_ERROR] for the six others; for a mixed-integer problem, the
    eight statuses from [mip_not_loaded] to [mip_unbounded] give [OPTIMAL]
    for [mip_optimal], [INFEASIBLE] for [mip_infeas], [UNBOUNDED] for
    [mip_unbounded] and [SOLVER_ERROR] for the five others.  A status
    outside the domain is translated into nothing: the lookup raises
    [KeyError], and in [solve] the call fails with that exception and the
    cache is not written.  No status occurs twice in a table. *)
Theorem status_translation_total (data : problem_data) (status : Z) :
  status_map data = (if is_mip data then status_map_mip else status_map_lp)
  /\ NoDup (status_map data).*1
  /\ (is_mip data = false ->
      (xpress.lp_unstarted <= status <= xpress.lp_nonconvex ->
       translate_status data status
       = Ok (if status =? xpress.lp_optimal then s.OPTIMAL
             else if status =? xpress.lp_infeas then s.INFEASIBLE
             else if status =? xpress.lp_unbounded then s.UNBOUNDED
             else s.SOLVER_ERROR))
      /\ (status < xpress.lp_unstarted \/ xpress.lp_nonconvex < status ->
          translate_status data status = Raise KeyError))
  /\ (is_mip data = true ->
      (xpress.mip_not_loaded <= status <= xpress.mip_unbounded ->
       translate_status data status
       = Ok (if status =? xpress.mip_optimal then s.OPTIMAL
             else if status =? xpress.mip_infeas then s.INFEASIBLE
             else if status =? xpress.mip_unbounded then s.UNBOUNDED
             else s.SOLVER_ERROR))
      /\ (status < xpress.mip_not_loaded \/ xpress.mip_unbounded < status ->
          translate_status data status = Raise KeyError))
  /\ ((exists st, translate_status data status = Ok st
                  /\ (status, st) ∈ status_map data
                  /\ st ∈ [s.OPTIMAL; s.INFEASIBLE; s.UNBOUNDED; s.SOLVER_ERROR])
      \/ (translate_status data status = Raise KeyError
          /\ status ∉ (status_map data).*1))
  /\ (forall lib h w o,
        xpress.optimize lib (problem_at (call_ h xpress.solve w).1 h) = Ok o ->
        xpress.ProbStatus o ∉ (status_map data).*1 ->
        (run lib h data w).2 = Raise KeyError
        /\ prev_result (run lib h data w).1 = prev_result w).
Proof.
  split; [reflexivity|]. split; [apply status_map_keys|].
  split; [|split; [|split]].
  - intros Hmip. split.
    + intros Hs. unfold translate_status, status_map. rewrite Hmip.
      unfold xpress.lp_unstarted, xpress.lp_nonconvex in Hs.
      assert (status = 0 \/ status = 1 \/ status = 2 \/ status = 3 \/ status = 4
              \/ status = 5 \/ status = 6 \/ status = 7 \/ status = 8) as Hc by lia.
      repeat (destruct Hc as [->|Hc]; [reflexivity|]). by subst.
    + intros Hs. apply translate_status_absent. unfold status_map. rewrite Hmip.
      rewrite status_map_lp_keys. lia.
  - intros Hmip. split.
    + intros Hs. unfold translate_status, status_map. rewrite Hmip.
      unfold xpress.mip_not_loaded, xpress.mip_unbounded in Hs.
      assert (status = 0 \/ status = 1 \/ status = 2 \/ status = 3 \/ status = 4
              \/ status = 5 \/ status = 6 \/ status = 7) as Hc by lia.
      repeat (destruct Hc as [->|Hc]; [reflexivity|]). by subst.
    + intros Hs. apply translate_status_absent. unfold status_map. rewrite Hmip.
      rewrite status_map_mip_keys. lia.
  - unfold translate_status.
    destruct (dict_get_spec (status_map data) status) as [(st & Hst & Hin)|H].
    + left. exists st. split; [done|]. split; [done|].
      pose proof (status_map_values data) as Hv. rewrite Forall_forall in Hv.
      apply (Hv _ Hin).
    + by right.
  - intros lib h w o Ho Hnot. rewrite run_eq. cbv zeta. rewrite Ho.
    by rewrite (translate_status_absent data _ Hnot).
Qed.

(** ** Warm start or cold load *)

Lemma previous_spec (ws : bool) (cache : option prev_result_dict)
  (data : problem_data) (prev : prev_result_dict) :
  previous ws cache data = Some prev
  <-> ws = true
      /\ cache = Some prev
      /\ len (data_C data) = len (prev_obj prev)
      /\ dims_EQ_DIM data + dims_LEQ_DIM data = len (prev_rhs prev)
      /\ dims_SOC_DIM data = prev_cone_ind prev.
Proof.
  unfold previous. destruct ws; [|split; [done|intros (? & _); done]].
  destruct cache as [p|]; [|split; [done|intros (_ & ? & _); done]].
  destruct (Z.eqb_spec (len (data_C data)) (len (prev_obj p))) as [H1|H1];
    destruct (Z.eqb_spec (dims_EQ_DIM data + dims_LEQ_DIM data) (len (prev_rhs p)))
      as [H2|H2];
    destruct (bool_decide_reflect (dims_SOC_DIM data = prev_cone_ind p)) as [H3|H3];
    simpl; split;
    try (intros [= <-]; done);
    try (intros (_ & [= <-] & ? & ? & ?); done).
Qed.

Lemma load_eq (tb : bool) (cp : canonical) (ws : bool) (w : world) :
  let data := problem_data_of cp in
  let nrows := dims_EQ_DIM data + dims_LEQ_DIM data in
  let b := Py.slice (data_B data) None (Some nrows) in
  let A := getrows (data_A data) None (Some nrows) in
  load tb cp ws w
  = match previous ws (prev_result w) data with
    | Some prev => warm_start_update cp prev (data_C data) A b w
    | None =>
        cold_load tb data (data_C data) A b
          (dims_EQ_DIM data) (dims_LEQ_DIM data) nrows w
    end.
Proof.
  cbv zeta. unfold load. rewrite bind_get_prev_result.
  destruct (previous _ _ _); reflexivity.
Qed.

Lemma solve_count lib tb cp ws verbose opts (w : world) :
  length (problems (solve lib tb cp ws verbose opts w).1)
  = length (problems (load tb cp ws w).1).
Proof.
  unfold solve. unfold bind at 1.
  destruct (load tb cp ws w) as [w1 [h|e]]; [|reflexivity]. cbn [fst].
  unfold bind.
  pose proof (only_calls_set_options lib h true opts w1) as [_ N _ _ _].
  destruct (set_options lib h true opts w1) as [w2 [[]|e]]; cbn [fst] in *; [|done].
  rewrite problems_run. simpl. by rewrite length_alter.
Qed.

(** C3.  The previous problem is used again exactly when a warm start is
    requested, the cache holds an entry, the number of variables is the
    length of the cached objective, the number of equality and inequality
    rows is the length of the cached right-hand side, and the cone sizes are
    the cached cone sizes.  Then [solve] updates the cached problem and
    creates none; in every other case it loads a new problem from scratch and
    leaves the existing ones as they are. *)
Theorem warm_start_eligibility lib tb cp ws verbose opts (w : world) :
  let data := problem_data_of cp in
  let nrows := dims_EQ_DIM data + dims_LEQ_DIM data in
  let b := Py.slice (data_B data) None (Some nrows) in
  let A := getrows (data_A data) None (Some nrows) in
  (forall prev,
     previous ws (prev_result w) data = Some prev
     <-> ws = true
         /\ prev_result w = Some prev
         /\ len (data_C data) = len (prev_obj prev)
         /\ nrows = len (prev_rhs prev)
         /\ dims_SOC_DIM data = prev_cone_ind prev)
  /\ (forall prev,
        previous ws (prev_result w) data = Some prev ->
        load tb cp ws w = warm_start_update cp prev (data_C data) A b w
        /\ length (problems (solve lib tb cp ws verbose opts w).1)
           = length (problems w)
        /\ prob_ (load tb cp ws w).1 = Some (prev_problem prev))
  /\ (previous ws (prev_result w) data = None ->
      load tb cp ws w
      = cold_load tb data (data_C data) A b
          (dims_EQ_DIM data) (dims_LEQ_DIM data) nrows w
      /\ length (problems (solve lib tb cp ws verbose opts w).1)
         = S (length (problems w))
      /\ prob_ (load tb cp ws w).1 = Some (length (problems w))
      /\ forall h, (h < length (problems w))%nat ->
                   problems (load tb cp ws w).1 !! h = problems w !! h).
Proof.
  cbv zeta. split; [intros prev; apply previous_spec|]. split.
  - intros prev Hp. rewrite solve_count, load_eq. cbv zeta. rewrite Hp.
    destruct (warm_start_update_world cp prev (data_C (problem_data_of cp))
                (getrows (data_A (problem_data_of cp)) None
                   (Some (dims_EQ_DIM (problem_data_of cp)
                          + dims_LEQ_DIM (problem_data_of cp))))
                (Py.slice (data_B (problem_data_of cp)) None
                   (Some (dims_EQ_DIM (problem_data_of cp)
                          + dims_LEQ_DIM (problem_data_of cp)))) w)
      as ([_ N _ _ _] & P & _).
    done.
  - intros Hp. rewrite solve_count, load_eq. cbv zeta. rewrite Hp.
    destruct (cold_load_world tb (problem_data_of cp) (data_C (problem_data_of cp))
                (getrows (data_A (problem_data_of cp)) None
                   (Some (dims_EQ_DIM (problem_data_of cp)
                          + dims_LEQ_DIM (problem_data_of cp))))
                (Py.slice (data_B (problem_data_of cp)) None
                   (Some (dims_EQ_DIM (problem_data_of cp)
                          + dims_LEQ_DIM (problem_data_of cp))))
                (dims_EQ_DIM (problem_data_of cp)) (dims_LEQ_DIM (problem_data_of cp))
                (dims_EQ_DIM (problem_data_of cp) + dims_LEQ_DIM (problem_data_of cp)) w)
      as (_ & N & P & O & _).
    done.
Qed.

Lemma load_valid tb cp ws (w w1 : world) (h : nat) :
  wf_world w -> load tb cp ws w = (w1, Ok h) ->
  (h < length (problems w1))%nat /\ prev_result w1 = prev_result w
  /\ prob_ w1 = Some h.
Proof.
  intros Hwf Hl. pose proof (load_eq tb cp ws w) as E. cbv zeta in E.
  rewrite Hl in E.
  destruct (previous ws (prev_result w) (problem_data_of cp)) as [prev|] eqn:Hp.
  - apply previous_spec in Hp as (_ & Hc & _).
    match type of E with _ = ?m w =>
      pose proof (warm_start_update_world cp prev _ _ _ w : let w' := (m w).1 in _)
        as ([C N _ _ _] & P & R) end.
    rewrite <- E in *. cbn [fst snd] in *. rewrite (R h eq_refl).
    split; [|done]. rewrite N. by apply Hwf.
  - match type of E with _ = ?m w =>
      pose proof (cold_load_world tb _ _ _ _ _ _ _ w : let w' := (m w).1 in _)
        as (C & N & P & _ & R) end.
    rewrite <- E in *. cbn [fst snd] in *. rewrite (R h eq_refl).
    split; [lia|done].
Qed.

Lemma solve_eq lib tb cp ws verbose opts (w : world) :
  solve lib tb cp ws verbose opts w
  = match load tb cp ws w with
    | (w1, Ok h) =>
        run lib h (problem_data_of cp)
          (append_calls h (verbose_controls ++ option_calls lib opts) w1)
    | (w1, Raise e) => (w1, Raise e)
    end.
Proof.
  unfold solve. unfold bind at 1.
  destruct (load tb cp ws w) as [w1 [h|e]]; [|reflexivity].
  unfold bind. by rewrite set_options_eq.
Qed.

(** ** The verbose argument *)

(** C9.  [solve] does the same whatever its argument [verbose] is, and
    whenever it gets as far as the options, the calls it makes on the problem
    after loading or updating it are the three assignments of the verbose
    logging controls, the solver options, and [solve]. *)
Theorem verbose_is_overwritten lib tb cp ws verbose opts :
  (forall verbose', solve lib tb cp ws verbose opts = solve lib tb cp ws verbose' opts)
  /\ forall (w w1 : world) (h : nat),
       wf_world w ->
       load tb cp ws w = (w1, Ok h) ->
       problem_at (solve lib tb cp ws verbose opts w).1 h
       = problem_at w1 h
         ++ [ xpress.set_control "miplog" 2;
              xpress.set_control "lplog" 1;
              xpress.set_control "outputlog" 1 ]
         ++ option_calls lib opts ++ [xpress.solve].
Proof.
  split; [reflexivity|]. intros w w1 h Hwf Hl.
  destruct (load_valid _ _ _ _ _ _ Hwf Hl) as (Hh & _).
  rewrite solve_eq, Hl. unfold problem_at at 1. rewrite problems_run.
  rewrite call_eq. cbn [fst]. rewrite append_calls_app.
  fold (problem_at (append_calls h ((verbose_controls ++ option_calls lib opts) ++ [xpress.solve]) w1) h).
  rewrite problem_at_append by done. unfold verbose_controls.
  by rewrite <- !app_assoc.
Qed.

(** ** The cache and the result *)

Lemma run_reported (lib : xpress.library) (h : nat) (data : problem_data)
  (w : world) (o : xpress.outcome) (st : string) (vartypes : list ascii) :
  let w1 := append_calls h [xpress.solve] w in
  xpress.optimize lib (problem_at w1 h) = Ok o ->
  translate_status data (xpress.ProbStatus o) = Ok st ->
  xpress.getcoltype (problem_at w1 h) 0 (len (data_C data) - 1) = Ok vartypes ->
  run lib h data w
  = ({| problems := problems w1; prob_ := Some h;
        prev_result :=
          Some {| prev_problem := h;
                  prev_obj := data_C data;
                  prev_mat := data_A data;
                  prev_rhs := data_B data;
                  prev_cone_ind := dims_SOC_DIM data;
                  prev_vartype := vartypes |} |},
     if bool_decide (st ∈ s.SOLUTION_PRESENT) then
       Ok {| STATUS := Some st;
             PRIMAL := Some (xpress.Solution o);
             VALUE := Some (xpress.ObjVal o);
             EQ_DUAL := if is_mip data then None else Some (xpress.Dual o);
             IIS := Some PyNone |}
     else if String.eqb st s.INFEASIBLE then
       Ok {| STATUS := Some st; PRIMAL := None; VALUE := None;
             EQ_DUAL := None; IIS := Some (PyInt 1) |}
     else Raise KeyError).
Proof.
  cbv zeta. intros Ho Hs Hc. rewrite run_eq. cbv zeta. rewrite call_eq. cbn [fst].
  rewrite Ho, Hs, format_results_eq. cbv zeta.
  rewrite results_dict_problem, results_dict_status, Hc, Hs. cbn [rbind].
  f_equal. unfold results_dict.
  destruct (bool_decide (st ∈ s.SOLUTION_PRESENT)).
  - cbn. destruct (is_mip data); reflexivity.
  - destruct (String.eqb st s.INFEASIBLE); reflexivity.
Qed.

(** C2.  Whatever the translated status is, [SOLVER_ERROR] included, [solve]
    replaces the cache entry by the problem, the data [c], [A], [b], the cone
    sizes and the variable types read back; the entry stays as it was when
    the optimizer itself fails. *)
Theorem cache_written_for_every_status (lib : xpress.library) (h : nat)
  (data : problem_data) (w : world) :
  let w1 := append_calls h [xpress.solve] w in
  (forall o st vartypes,
     xpress.optimize lib (problem_at w1 h) = Ok o ->
     translate_status data (xpress.ProbStatus o) = Ok st ->
     xpress.getcoltype (problem_at w1 h) 0 (len (data_C data) - 1) = Ok vartypes ->
     prev_result (run lib h data w).1
     = Some {| prev_problem := h;
               prev_obj := data_C data;
               prev_mat := data_A data;
               prev_rhs := data_B data;
               prev_cone_ind := dims_SOC_DIM data;
               prev_vartype := vartypes |})
  /\ (forall e,
        xpress.optimize lib (problem_at w1 h) = Raise e ->
        (run lib h data w).2 = Raise e
        /\ prev_result (run lib h data w).1 = prev_result w).
Proof.
  cbv zeta. split.
  - intros o st vartypes Ho Hs Hc.
    by rewrite (run_reported lib h data w o st vartypes Ho Hs Hc).
  - intros e He. rewrite run_eq. cbv zeta. rewrite call_eq. cbn [fst].
    by rewrite He.
Qed.

(** C6.  After the optimizer has answered and the variable types are read
    back: for [OPTIMAL] the result is returned with the evidence field
    [None]; for [INFEASIBLE] it is returned with the evidence field [1] and
    no primal value; for [UNBOUNDED] and [SOLVER_ERROR] no result is
    returned, the call raises [KeyError]. *)
Theorem infeasibility_evidence (lib : xpress.library) (h : nat)
  (data : problem_data) (w : world) (o : xpress.outcome) (st : string)
  (vartypes : list ascii) :
  let w1 := append_calls h [xpress.solve] w in
  xpress.optimize lib (problem_at w1 h) = Ok o ->
  translate_status data (xpress.ProbStatus o) = Ok st ->
  xpress.getcoltype (problem_at w1 h) 0 (len (data_C data) - 1) = Ok vartypes ->
  (st = s.OPTIMAL ->
   exists r, (run lib h data w).2 = Ok r
             /\ STATUS r = Some s.OPTIMAL /\ IIS r = Some PyNone)
  /\ (st = s.INFEASIBLE ->
      exists r, (run lib h data w).2 = Ok r
                /\ STATUS r = Some s.INFEASIBLE /\ IIS r = Some (PyInt 1)
                /\ PRIMAL r = None)
  /\ (st = s.UNBOUNDED \/ st = s.SOLVER_ERROR ->
      (run lib h data w).2 = Raise KeyError).
Proof.
  cbv zeta. intros Ho Hs Hc.
  rewrite (run_reported lib h data w o st vartypes Ho Hs Hc). cbn [snd].
  split; [|split].
  - intros ->. eexists. split; [reflexivity|]. done.
  - intros ->. eexists. split; [reflexivity|]. done.
  - intros [-> | ->]; reflexivity.
Qed.

(** ** Subscripts and comprehensions *)

Lemma getitem_lookup {A} (l : list A) (i : nat) (x : A) :
  l !! i = Some x -> getitem l (Z.of_nat i) = Ok x.
Proof.
  intros H. unfold getitem.
  destruct (Z.ltb_spec (Z.of_nat i) 0); [lia|].
  destruct (Z.ltb_spec (Z.of_nat i) 0); [lia|].
  by rewrite Nat2Z.id, H.
Qed.

Lemma getitem_Ok {A} (l : list A) (i : Z) (x : A) :
  0 <= i -> l !! Z.to_nat i = Some x -> getitem l i = Ok x.
Proof.
  intros Hi H. rewrite <- (Z2Nat.id i) by done. by apply getitem_lookup.
Qed.

Lemma range2_lookup (lo hi : Z) (i : nat) :
  (Z.of_nat i < hi - lo) -> range2 lo hi !! i = Some (lo + Z.of_nat i).
Proof.
  intros H. unfold range2. rewrite list_lookup_fmap.
  rewrite lookup_seq_lt by lia. done.
Qed.

Lemma elem_of_range2 (lo hi i : Z) : i ∈ range2 lo hi <-> lo <= i < hi.
Proof.
  unfold range2. rewrite list_elem_of_fmap. split.
  - intros (j & -> & Hj). apply elem_of_seq in Hj. lia.
  - intros H. exists (Z.to_nat (i - lo)). split; [lia|].
    apply elem_of_seq. lia.
Qed.

Lemma elem_of_range (k i : Z) : i ∈ range k <-> 0 <= i < k.
Proof. apply elem_of_range2. Qed.

Lemma getitem_map_range {A} (f : Z -> A) (k i : Z) :
  0 <= i < k -> getitem (map f (range k)) i = Ok (f i).
Proof.
  intros H. apply getitem_Ok; [lia|].
  rewrite list_lookup_fmap. unfold range.
  rewrite range2_lookup by lia. simpl. f_equal. f_equal. lia.
Qed.

Lemma comprehension_Ok {A B} (f : A -> result B) (g : A -> B) (l : list A) :
  (forall a, a ∈ l -> f a = Ok (g a)) -> comprehension f l = Ok (map g l).
Proof.
  induction l as [|a l IH]; intros H; simpl; [done|].
  rewrite H by apply list_elem_of_here. simpl.
  rewrite IH; [done|]. intros a' Ha'. apply H. by apply list_elem_of_further.
Qed.

(** ** Cones on auxiliary variables *)

Lemma Forall_insert_by_row (P : Z * Z * Z -> Prop) e l :
  P e -> Forall P l -> Forall P (insert_by_row e l).
Proof.
  intros He. induction 1 as [|e' l He' Hl IH]; simpl.
  - by repeat constructor.
  - destruct (e_row e <=? e_row e'); by repeat constructor.
Qed.

Lemma Forall_tocsr (P : Z * Z * Z -> Prop) (A : spmatrix) :
  Forall P (sp_entries A) -> Forall P (sp_entries (tocsr A)).
Proof.
  unfold tocsr. simpl. induction 1; simpl; [constructor|].
  by apply Forall_insert_by_row.
Qed.

Lemma getrows_rows (A : spmatrix) (lo hi : option Z) :
  Forall (fun e => 0 <= e_row e < sp_nrow (getrows A lo hi))
         (sp_entries (getrows A lo hi)).
Proof.
  unfold getrows. simpl. rewrite Forall_map. apply Forall_forall.
  intros e He. apply list_elem_of_filter in He as [He _].
  unfold e_row in *. simpl. lia.
Qed.

Lemma makeMstart_rows_Ok (A : spmatrix) (n : Z) :
  Forall (fun e => 0 <= e_row e) (sp_entries A) ->
  exists mstart, makeMstart A n 0 = Ok mstart.
Proof.
  intros H. eexists. apply (makeMstart_eq A n 0 (nonzero A).1 eq_refl).
  unfold nonzero. simpl. rewrite Forall_map.
  apply Forall_forall. intros e He. apply list_elem_of_filter in He as [_ He].
  rewrite Forall_forall in H. by apply H.
Qed.

Lemma cone_block_rows (A : spmatrix) (lo hi : option Z) :
  Forall (fun e => 0 <= e_row e) (sp_entries (tocsr (getrows A lo hi))).
Proof.
  apply Forall_tocsr. eapply Forall_impl; [apply getrows_rows|].
  simpl. intros; lia.
Qed.

Lemma rows_app (p q : list xpress.call) :
  xpress.rows (p ++ q) = foldl xpress.rows_after (xpress.rows p) q.
Proof. unfold xpress.rows. by rewrite foldl_app. Qed.

Lemma cone_constraint_eq (iCone k : Z) :
  1 <= k ->
  cone_constraint (new_cone_variables iCone k) iCone k
  = Ok {| xpress.c_lhs :=
            xpress.Sum
              (map (fun i => xpress.pow
                               (xpress.term
                                  (xpress.cone_var iCone i xpress.minus_infinity)) 2)
                   (range2 1 k));
          xpress.c_rhs :=
            xpress.pow (xpress.term (xpress.cone_var iCone 0 (xpress.finite 0))) 2;
          xpress.c_name := Some ("cone_" +:+ pretty iCone) |}.
Proof.
  intros Hk. unfold cone_constraint, new_cone_variables.
  rewrite (comprehension_Ok _
             (fun i => xpress.pow
                         (xpress.term (xpress.cone_var iCone i xpress.minus_infinity)) 2)).
  - simpl. rewrite getitem_map_range by lia. reflexivity.
  - intros i Hi. apply elem_of_range2 in Hi.
    rewrite getitem_map_range by lia. simpl.
    destruct (Z.ltb_spec 0 i); [done|lia].
Qed.

(** ** Comparing arrays *)

Lemma ne_same_length {A} `{EqDecision A} (x y : list A) :
  length x = length y ->
  numpy.ne x y = Ok (zip_with (fun a b => bool_decide (a <> b)) x y).
Proof. intros H. unfold numpy.ne. by rewrite H, Nat.eqb_refl. Qed.

Lemma zip_with_ne_same {A} `{EqDecision A} (x : list A) :
  zip_with (fun a b => bool_decide (a <> b)) x x = replicate (length x) false.
Proof.
  induction x as [|a x IH]; simpl; [done|]. rewrite IH. f_equal.
  by apply bool_decide_eq_false_2; intros ?.
Qed.

Lemma ne_same {A} `{EqDecision A} (x : list A) :
  numpy.ne x x = Ok (replicate (length x) false).
Proof. rewrite ne_same_length by done. by rewrite zip_with_ne_same. Qed.

Lemma where_from_false (i : Z) (n : nat) :
  numpy.where_from i (replicate n false) = [].
Proof. revert i. induction n as [|n IH]; intros i; simpl; [done|apply IH]. Qed.

Lemma where_false (n : nat) : numpy.where_ (replicate n false) = [].
Proof. apply where_from_false. Qed.

Lemma any_false (n : nat) : numpy.any (replicate n false) = false.
Proof. unfold numpy.any. induction n; simpl; done. Qed.

Lemma any_zip_with_ne {A} `{EqDecision A} (x y : list A) :
  length x = length y ->
  numpy.any (zip_with (fun a b => bool_decide (a <> b)) x y)
  = bool_decide (x <> y).
Proof.
  unfold numpy.any. revert y. induction x as [|a x IH]; intros [|b y] Hl;
    simpl in *; try done.
  rewrite IH by lia. unfold id.
  destruct (decide (a = b)) as [->|Hab].
  - rewrite (bool_decide_eq_false_2 (b <> b)) by (by intros ?). simpl.
    apply bool_decide_ext. split; [congruence|]. intros H1 H2. apply H1. congruence.
  - rewrite (bool_decide_eq_true_2 (a <> b)) by done. simpl.
    symmetry. apply bool_decide_eq_true_2. congruence.
Qed.

(** ** The variable types of a warm start *)

Lemma getcoltype_length (p : xpress.problem) (last : Z) (vartype : list ascii) :
  xpress.getcoltype p 0 last = Ok vartype -> len vartype = last + 1.
Proof.
  unfold xpress.getcoltype.
  destruct (Z.leb_spec 0 last); simpl; [|done].
  destruct (Z.ltb_spec last (len (xpress.coltypes p))); simpl; [|done].
  intros [= <-]. unfold len in *. rewrite length_take, length_drop. simpl. lia.
Qed.

Lemma update_coltypes_eq (h : nat) (c : list Z) (vartype0 vartype : list ascii)
  (w : world) :
  xpress.getcoltype (problem_at w h) 0 (len c - 1) = Ok vartype ->
  length vartype = length vartype0 ->
  update_coltypes h c vartype0 w
  = (w, if bool_decide (vartype <> vartype0) then Raise TypeError else Ok tt).
Proof.
  intros Hg Hl. unfold update_coltypes. run_calls. rewrite Hg. run_calls.
  rewrite ne_same_length by done. run_calls.
  rewrite any_zip_with_ne by done.
  destruct (bool_decide (vartype <> vartype0)); [|reflexivity].
  unfold numpy.compress.
  assert (length (range (len c))
          = length (zip_with (fun a b => bool_decide (a <> b)) vartype vartype0)) as ->.
  { rewrite length_zip_with, <- Hl, Nat.min_id.
    apply getcoltype_length in Hg. pose proof (len_range (len c)) as Hr.
    unfold len in *. lia. }
  rewrite Nat.eqb_refl. run_calls. reflexivity.
Qed.

(** C10.  In the update of a warm start, once the variable types are read
    back and are as many as the cached ones: if one of them differs from the
    cached one, the step raises [TypeError] when it subscripts the list
    [vartype] by the mask, and [chgcoltype] is not called, the problems stay
    as they are; if none differs, the step makes no call and raises
    nothing. *)
Theorem type_change_raises (h : nat) (c : list Z) (vartype0 vartype : list ascii)
  (w : world) :
  xpress.getcoltype (problem_at w h) 0 (len c - 1) = Ok vartype ->
  length vartype = length vartype0 ->
  ((exists i a b, vartype !! i = Some a /\ vartype0 !! i = Some b /\ a <> b) ->
   update_coltypes h c vartype0 w = (w, Raise TypeError))
  /\ (vartype = vartype0 -> update_coltypes h c vartype0 w = (w, Ok tt))
  /\ (forall r, update_coltypes h c vartype0 w = (w, Ok r) -> vartype = vartype0).
Proof.
  intros Hg Hl. rewrite (update_coltypes_eq h c vartype0 vartype w Hg Hl).
  split; [|split].
  - intros (i & a & b & Ha & Hb & Hab).
    rewrite bool_decide_eq_true_2; [done|]. intros ->. congruence.
  - intros ->. rewrite bool_decide_eq_false_2; [done|]. by intros ?.
  - intros r. destruct (decide (vartype = vartype0)) as [->|Hne]; [done|].
    rewrite bool_decide_eq_true_2 by done. intros [=].
Qed.

(** ** A cold load followed by a warm start *)

Lemma coltypes_app (p q : list xpress.call) :
  xpress.coltypes (p ++ q) = foldl xpress.coltypes_after (xpress.coltypes p) q.
Proof. unfold xpress.coltypes. by rewrite foldl_app. Qed.

Lemma getcoltype_ext (p q : list xpress.call) (first last : Z) :
  xpress.coltypes p = xpress.coltypes q ->
  xpress.getcoltype p first last = xpress.getcoltype q first last.
Proof. intros H. unfold xpress.getcoltype. by rewrite H. Qed.

Lemma first_call_cache lib tb cp ws verbose opts (w0 w1 : world)
  (r1 : result results) (prev : prev_result_dict) :
  prev_result w0 = None ->
  solve lib tb cp ws verbose opts w0 = (w1, r1) ->
  prev_result w1 = Some prev ->
  let data := problem_data_of cp in
  let h := length (problems w0) in
  prev = {| prev_problem := h;
            prev_obj := data_C data;
            prev_mat := data_A data;
            prev_rhs := data_B data;
            prev_cone_ind := dims_SOC_DIM data;
            prev_vartype := prev_vartype prev |}
  /\ (h < length (problems w1))%nat
  /\ xpress.getcoltype (problem_at w1 h) 0 (len (data_C data) - 1)
     = Ok (prev_vartype prev).
Proof.
  intros H0 Hs H1. cbv zeta. rewrite solve_eq in Hs.
  assert (wf_world w0) as Hwf by (intros p Hp; congruence).
  destruct (load tb cp ws w0) as [w' [h|e]] eqn:Hl.
  - destruct (load_valid _ _ _ _ _ _ Hwf Hl) as (Hh & Hc & _).
    pose proof (load_eq tb cp ws w0) as E. cbv zeta in E.
    assert (previous ws (prev_result w0) (problem_data_of cp) = None) as Hp.
    { rewrite H0. unfold previous. by destruct ws. }
    rewrite Hp, Hl in E.
    match type of E with _ = ?m w0 =>
      pose proof (cold_load_world tb _ _ _ _ _ _ _ w0 : let w' := (m w0).1 in _)
        as (_ & _ & _ & _ & R) end.
    rewrite <- E in R. cbn [snd] in R. specialize (R h eq_refl). subst h.
    rewrite run_eq in Hs. cbv zeta in Hs. rewrite call_eq in Hs. cbn [fst] in Hs.
    rewrite append_calls_app in Hs.
    set (w2 := append_calls (length (problems w0))
                 ((verbose_controls ++ option_calls lib opts) ++ [xpress.solve]) w') in *.
    assert (prev_result w2 = None) as Hc2 by (unfold w2; simpl; congruence).
    destruct (xpress.optimize lib _) as [o|e].
    2: { inversion Hs; subst. congruence. }
    destruct (translate_status _ _) as [st|e].
    2: { inversion Hs; subst. congruence. }
    rewrite format_results_eq in Hs. cbv zeta in Hs.
    rewrite results_dict_problem in Hs.
    destruct (xpress.getcoltype _ _ _) as [vartypes|e] eqn:Hg.
    2: { inversion Hs; subst. simpl in H1. congruence. }
    inversion Hs; subst. simpl in H1. inversion H1; subst. simpl.
    split; [done|]. split.
    + by rewrite length_alter.
    + exact Hg.
  - inversion Hs; subst.
    pose proof (load_eq tb cp ws w0) as E. cbv zeta in E.
    assert (previous ws (prev_result w0) (problem_data_of cp) = None) as Hp.
    { rewrite H0. unfold previous. by destruct ws. }
    rewrite Hp, Hl in E.
    match type of E with _ = ?m w0 =>
      pose proof (cold_load_world tb _ _ _ _ _ _ _ w0 : let w' := (m w0).1 in _)
        as (C & _) end.
    rewrite <- E in C. simpl in C. congruence.
Qed.

Lemma scipy_ne_same (A : spmatrix) : scipy.ne A A = Ok [].
Proof.
  unfold scipy.ne. rewrite !Z.eqb_refl. simpl. f_equal.
  induction (remove_dups (coords A ++ coords A)) as [|p l IH]; [done|].
  rewrite filter_cons_False; [exact IH|]. intros H. by apply H.
Qed.

Lemma getrows_all (A : spmatrix) (n : Z) :
  0 <= sp_nrow A <= n ->
  Forall (fun e => 0 <= e_row e < sp_nrow A) (sp_entries A) ->
  getrows A None (Some n) = A.
Proof.
  intros Hn He. destruct A as [f nr nc es]. unfold getrows. simpl in *.
  unfold slice_bound. destruct (Z.ltb_spec n 0); [lia|].
  rewrite Z.min_r by lia. f_equal; [lia|].
  induction He as [|e es He Hes IH]; [done|].
  rewrite filter_cons_True by (simpl; lia). simpl. rewrite IH.
  destruct e as [[r c] v]. unfold e_row, e_col, e_val. simpl. repeat f_equal. lia.
Qed.

Lemma slice_all {A} (l : list A) : Py.slice l None (Some (len l)) = l.
Proof.
  unfold Py.slice. simpl. unfold slice_bound.
  destruct (Z.ltb_spec (len l) 0); [unfold len in *; lia|].
  rewrite Z.min_id, Z.sub_0_r. unfold len. rewrite Nat2Z.id. simpl.
  apply firstn_all.
Qed.

Lemma update_objective_same (h : nat) (cp : canonical) (c : list Z) (w : world) :
  update_objective h cp c c w
  = (append_calls h
       (if 0 <? objective_params cp then [xpress.chgobj [] []] else []) w,
     Ok tt).
Proof.
  unfold update_objective. destruct (0 <? objective_params cp).
  - rewrite ne_same. run_calls. rewrite where_false. simpl. run_calls.
    apply call_eq.
  - by rewrite append_calls_nil.
Qed.

Lemma update_constraints_same (h : nat) (cp : canonical) (A : spmatrix)
  (b : list Z) (w : world) :
  update_constraints h cp A A b b w = (w, Ok tt).
Proof.
  unfold update_constraints. destruct (existsb _ _); [|done].
  rewrite scipy_ne_same, ne_same. run_calls. rewrite where_false. reflexivity.
Qed.

(** The problem data as [solve] expects it: the matrix has as many rows as
    the right-hand side has entries, and every stored entry lies in a row of
    the matrix. *)
Lemma round_trip_update (cp : canonical) (prev : prev_result_dict) (w : world) :
  let data := problem_data_of cp in
  let h := prev_problem prev in
  prev_obj prev = data_C data ->
  prev_mat prev = data_A data ->
  prev_rhs prev = data_B data ->
  (h < length (problems w))%nat ->
  xpress.getcoltype (problem_at w h) 0 (len (data_C data) - 1)
  = Ok (prev_vartype prev) ->
  warm_start_update cp prev (data_C data) (data_A data) (data_B data) w
  = ({| problems :=
          problems (append_calls h
                      (if 0 <? objective_params cp then [xpress.chgobj [] []]
                       else []) w);
        prob_ := Some h;
        prev_result := prev_result w |},
     Ok h).
Proof.
  cbv zeta. intros H1 H2 H3 Hh Hg. unfold warm_start_update.
  rewrite H1, H2, H3. run_calls.
  unfold bind at 1. rewrite update_objective_same.
  unfold bind at 1. rewrite update_constraints_same.
  unfold bind at 1.
  erewrite update_coltypes_eq; [| |reflexivity].
  - rewrite bool_decide_eq_false_2 by (by intros ?). reflexivity.
  - rewrite <- Hg. apply getcoltype_ext.
    match goal with |- context [append_calls ?h ?cs ?w'] =>
      change (problem_at (append_calls h cs w') h)
        with (problem_at (append_calls h cs w) h) end.
    rewrite problem_at_append by done. rewrite coltypes_app.
    by destruct (0 <? objective_params cp).
Qed.

(** The eligible case of the round trip. *)
Lemma round_trip_eligible lib tb cp ws1 verbose1 opts1 (w0 w1 : world)
  (r1 : result results) (prev : prev_result_dict) :
  let data := problem_data_of cp in
  let c := data_C data in
  let nrows := dims_EQ_DIM data + dims_LEQ_DIM data in
  let b := Py.slice (data_B data) None (Some nrows) in
  let A := getrows (data_A data) None (Some nrows) in
  let h := prev_problem prev in
  prev_result w0 = None ->
  solve lib tb cp ws1 verbose1 opts1 w0 = (w1, r1) ->
  prev_result w1 = Some prev ->
  nrows = len (data_B data) ->
  sp_nrow (data_A data) = len (data_B data) ->
  Forall (fun e => 0 <= e_row e < sp_nrow (data_A data)) (sp_entries (data_A data)) ->
  previous true (prev_result w1) data = Some prev
  /\ (exists dc, numpy.ne c (prev_obj prev) = Ok dc /\ numpy.where_ dc = [])
  /\ scipy.ne A (prev_mat prev) = Ok []
  /\ (exists db, numpy.ne b (prev_rhs prev) = Ok db /\ numpy.where_ db = [])
  /\ (exists vartype vti,
        xpress.getcoltype (problem_at w1 h) 0 (len c - 1) = Ok vartype
        /\ numpy.ne vartype (prev_vartype prev) = Ok vti
        /\ numpy.any vti = false)
  /\ load tb cp true w1
     = ({| problems :=
             problems (append_calls h
                         (if 0 <? objective_params cp then [xpress.chgobj [] []]
                          else []) w1);
           prob_ := Some h;
           prev_result := prev_result w1 |},
        Ok h).
Proof.
  cbv zeta. intros H0 Hs H1 Hrows Hshape Hentries.
  destruct (first_call_cache _ _ _ _ _ _ _ _ _ _ H0 Hs H1) as (Hprev & Hh & Hg).
  cbv zeta in Hprev, Hh, Hg.
  assert (prev_obj prev = data_C (problem_data_of cp)) as Eo by (by rewrite Hprev).
  assert (prev_mat prev = data_A (problem_data_of cp)) as Em by (by rewrite Hprev).
  assert (prev_rhs prev = data_B (problem_data_of cp)) as Er by (by rewrite Hprev).
  assert (prev_cone_ind prev = dims_SOC_DIM (problem_data_of cp)) as Ec
    by (by rewrite Hprev).
  assert (prev_problem prev = length (problems w0)) as Eh by (by rewrite Hprev).
  assert (previous true (prev_result w1) (problem_data_of cp) = Some prev) as Hp.
  { apply previous_spec. rewrite Eo, Er, Ec. done. }
  assert (getrows (data_A (problem_data_of cp)) None
            (Some (len (data_B (problem_data_of cp))))
          = data_A (problem_data_of cp)) as Hall.
  { apply getrows_all; [|done]. rewrite Hshape.
    pose proof (len_nonneg (data_B (problem_data_of cp))). lia. }
  rewrite Hrows, slice_all, Hall.
  rewrite Eo, Em, Er, Eh.
  split; [exact Hp|].
  split; [eexists; split; [apply ne_same|apply where_false]|].
  split; [apply scipy_ne_same|].
  split; [eexists; split; [apply ne_same|apply where_false]|].
  split.
  { eexists _, _. split; [exact Hg|]. split; [apply ne_same|apply any_false]. }
  pose proof (load_eq tb cp true w1) as E. cbv zeta in E.
  rewrite Hp, Hrows, slice_all, Hall in E.
  rewrite E, <- Eh. apply round_trip_update; try done; rewrite Eh; done.
Qed.

(** C1.  A first call of [solve] on an empty cache loads the problem cold.
    Once it has written the cache, a second call with a warm start on the
    same problem data changes nothing in the cached problem: the calls of
    its load phase on that problem are none, or [chgobj] with an empty index
    set.  When the rows are all equality and inequality rows the warm start
    is eligible, and the index sets of its differences are empty: no
    objective coefficient differs from the cached objective, no matrix entry
    from the cached matrix, no right-hand side from the cached one, and no
    variable type read back from the cached types.  With cone rows the warm
    start is not eligible, and the problem is loaded again from scratch. *)
Theorem warm_start_round_trip lib tb cp ws1 verbose1 opts1 (w0 w1 : world)
  (r1 : result results) (prev : prev_result_dict) :
  let data := problem_data_of cp in
  let c := data_C data in
  let nrows := dims_EQ_DIM data + dims_LEQ_DIM data in
  let b := Py.slice (data_B data) None (Some nrows) in
  let A := getrows (data_A data) None (Some nrows) in
  let h := prev_problem prev in
  prev_result w0 = None ->
  solve lib tb cp ws1 verbose1 opts1 w0 = (w1, r1) ->
  prev_result w1 = Some prev ->
  sp_nrow (data_A data) = len (data_B data) ->
  Forall (fun e => 0 <= e_row e < sp_nrow (data_A data)) (sp_entries (data_A data)) ->
  (exists cs,
     problem_at (load tb cp true w1).1 h = problem_at w1 h ++ cs
     /\ (cs = [] \/ cs = [xpress.chgobj [] []]))
  /\ (nrows = len (data_B data) ->
      previous true (prev_result w1) data = Some prev
      /\ (exists dc, numpy.ne c (prev_obj prev) = Ok dc /\ numpy.where_ dc = [])
      /\ scipy.ne A (prev_mat prev) = Ok []
      /\ (exists db, numpy.ne b (prev_rhs prev) = Ok db /\ numpy.where_ db = [])
      /\ (exists vartype vti,
            xpress.getcoltype (problem_at w1 h) 0 (len c - 1) = Ok vartype
            /\ numpy.ne vartype (prev_vartype prev) = Ok vti
            /\ numpy.any vti = false))
  /\ (nrows <> len (data_B data) ->
      previous true (prev_result w1) data = None).
Proof.
  cbv zeta. intros H0 Hs H1 Hshape Hentries.
  destruct (first_call_cache _ _ _ _ _ _ _ _ _ _ H0 Hs H1) as (Hprev & Hh & Hg).
  cbv zeta in Hprev, Hh, Hg.
  assert (prev_rhs prev = data_B (problem_data_of cp)) as Er by (by rewrite Hprev).
  assert (prev_problem prev = length (problems w0)) as Eh by (by rewrite Hprev).
  assert (dims_EQ_DIM (problem_data_of cp) + dims_LEQ_DIM (problem_data_of cp)
          <> len (data_B (problem_data_of cp)) ->
          previous true (prev_result w1) (problem_data_of cp) = None) as Hnone.
  { intros Hne.
    destruct (previous true (prev_result w1) (problem_data_of cp)) as [p|] eqn:Hp;
      [|done].
    apply previous_spec in Hp as (_ & Hc & _ & Hr & _).
    rewrite H1 in Hc. inversion Hc; subst p. rewrite Er in Hr. done. }
  split; [|split; [|exact Hnone]].
  - destruct (decide (dims_EQ_DIM (problem_data_of cp)
                      + dims_LEQ_DIM (problem_data_of cp)
                      = len (data_B (problem_data_of cp)))) as [Hrows|Hrows].
    + destruct (round_trip_eligible lib tb cp ws1 verbose1 opts1 w0 w1 r1 prev
                  H0 Hs H1 Hrows Hshape Hentries) as (_ & _ & _ & _ & _ & Hl).
      rewrite Hl. cbn [fst].
      exists (if 0 <? objective_params cp then [xpress.chgobj [] []] else []).
      split.
      * rewrite <- (problem_at_append (prev_problem prev) _ w1)
          by (by rewrite Eh).
        reflexivity.
      * destruct (0 <? objective_params cp); [by right|by left].
    + exists []. rewrite app_nil_r. split; [|by left].
      pose proof (load_eq tb cp true w1) as E. cbv zeta in E.
      rewrite (Hnone Hrows) in E. rewrite E.
      match goal with |- context [cold_load ?a ?b ?c ?d ?e ?f ?g ?i w1] =>
        pose proof (cold_load_world a b c d e f g i w1) as (_ & _ & _ & Ho & _) end.
      unfold problem_at. rewrite Ho by (by rewrite Eh). done.
  - intros Hrows.
    destruct (round_trip_eligible lib tb cp ws1 verbose1 opts1 w0 w1 r1 prev
                H0 Hs H1 Hrows Hshape Hentries) as (Hp & Hc & HA & Hb & Hv & _).
    done.
Qed.

(** ** Cones by back-substitution *)

Lemma getitem_Raise {A} (l : list A) (i : Z) (e : exn) :
  getitem l i = Raise e -> e = IndexError.
Proof.
  unfold getitem. destruct (_ <? 0); [by intros [=]|].
  destruct (l !! _); by intros [=].
Qed.

Lemma setitem_Raise {A} (l : list A) (i : Z) (x : A) (e : exn) :
  setitem l i x = Raise e -> e = IndexError.
Proof. unfold setitem. destruct (_ || _); by intros [=]. Qed.

Lemma getrow_Raise (A : spmatrix) (i : Z) (e : exn) :
  getrow A i = Raise e -> e = IndexError.
Proof. unfold getrow. destruct (_ || _); by intros [=]. Qed.

Lemma getitem_past_end {A} (l : list A) : getitem l (len l) = Raise IndexError.
Proof.
  unfold getitem, len. destruct (Z.ltb_spec (Z.of_nat (length l)) 0); [lia|].
  destruct (Z.ltb_spec (Z.of_nat (length l)) 0); [lia|].
  rewrite Nat2Z.id, lookup_ge_None_2; done.
Qed.

Lemma rfor_Raise {A S} (l : list A) (body : S -> A -> result S) (acc : S)
  (e : exn) :
  (forall acc a e', body acc a = Raise e' -> e' = e) ->
  (exists a, a ∈ l /\ forall acc, body acc a = Raise e) ->
  rfor l body acc = Raise e.
Proof.
  intros Hb (a & Ha & Hr). revert acc.
  induction l as [|a' l IH]; intros acc; [by apply elem_of_nil in Ha|].
  simpl. destruct (body acc a') as [acc'|e'] eqn:E.
  - simpl. apply elem_of_cons in Ha as [->|Ha].
    + rewrite Hr in E. done.
    + by apply IH.
  - simpl. by rewrite (Hb _ _ _ E).
Qed.

(** C8, where the code departs from it.  [Plhs.nonzero ()] leaves out the
    stored values that are zero, and [Plhs.data] keeps them: when a leg row
    of the cone stores a zero, the loop over [range (len (coeL))] runs past
    the end of [indRowL], the block raises [IndexError] and no constraint is
    added. *)
Theorem back_substitution_stored_zero (A : spmatrix) (b : list Z)
  (x : list xpress.var) :
  Exists (fun e => e_val e = 0) (sp_entries (getrows A (Some 1) None)) ->
  back_substitution A b x = Raise IndexError.
Proof.
  intros Hz. unfold back_substitution.
  destruct (getrow A 0) as [Prhs|e] eqn:Er; simpl.
  2: { by rewrite (getrow_Raise _ _ _ Er). }
  destruct (getitem b 0) as [rhs|e] eqn:Eb; simpl.
  2: { by rewrite (getitem_Raise _ _ _ Eb). }
  set (Plhs := getrows A (Some 1) None) in *.
  set (nz := filter (fun e => e_val e <> 0) (sp_entries Plhs)).
  rewrite (rfor_Raise _ _ _ IndexError); [done| |].
  - intros acc i e' H.
    repeat match type of H with
    | rbind ?r _ = _ =>
        let E := fresh "E" in
        destruct r eqn:E; simpl in H;
        [|apply getitem_Raise in E || apply setitem_Raise in E; congruence]
    end.
    by apply setitem_Raise in H.
  - exists (len (map e_row nz)). split.
    + apply elem_of_range. split; [apply len_nonneg|].
      unfold scipy.data, len. rewrite !length_map.
      apply Exists_exists in Hz as (e & He & Hv).
      apply inj_lt. eapply length_filter_lt; [exact He|]. simpl. lia.
    + intros acc. by rewrite getitem_past_end.
Qed.

(** ** Back-substitution without stored zeros *)

Lemma range2_cons (lo hi : Z) :
  lo < hi -> range2 lo hi = lo :: range2 (lo + 1) hi.
Proof.
  intros H. unfold range2.
  replace (Z.to_nat (hi - lo)) with (S (Z.to_nat (hi - (lo + 1)))) by lia.
  rewrite <- cons_seq. simpl. f_equal; [lia|].
  rewrite <- fmap_S_seq, <- list_fmap_compose.
  apply map_ext. intros i. simpl. lia.
Qed.

Lemma range2_nil (lo hi : Z) : hi <= lo -> range2 lo hi = [].
Proof. intros H. unfold range2. by replace (Z.to_nat (hi - lo)) with 0%nat by lia. Qed.

(** A loop over the positions of a list is a loop over its elements. *)
Lemma rfor_range_from {St E} (es : list E) (body : St -> Z -> result St)
  (body' : St -> E -> result St) (lo : Z) (acc : St) :
  (forall acc (i : nat) e,
     es !! i = Some e -> body acc (lo + Z.of_nat i) = body' acc e) ->
  rfor (range2 lo (lo + len es)) body acc = rfor es body' acc.
Proof.
  revert lo acc. induction es as [|e es IH]; intros lo acc H.
  - rewrite range2_nil by (unfold len; simpl; lia). done.
  - rewrite range2_cons by (unfold len; simpl; lia). simpl.
    rewrite <- (H acc 0%nat e eq_refl). rewrite Z.add_0_r.
    destruct (body acc lo) as [acc'|err]; simpl; [|done].
    replace (lo + len (e :: es)) with ((lo + 1) + len es)
      by (unfold len; simpl; lia).
    apply IH. intros acc0 i e0 Hi.
    rewrite <- (H acc0 (S i) e0 Hi). f_equal. lia.
Qed.

Lemma rfor_range {St E} (es : list E) (body : St -> Z -> result St)
  (body' : St -> E -> result St) (acc : St) :
  (forall acc (i : nat) e,
     es !! i = Some e -> body acc (Z.of_nat i) = body' acc e) ->
  rfor (range (len es)) body acc = rfor es body' acc.
Proof. intros H. unfold range. by apply (rfor_range_from es body body' 0). Qed.

(** The body of the loop of lines 319-320, for one stored entry. *)
Lemma leg_loop (n : Z) (es : list (Z * Z * Z)) (lhs : list xpress.expr) :
  Forall (fun e => 0 <= e_row e < len lhs /\ 0 <= e_col e < n) es ->
  rfor es
    (fun lhs e =>
       old <-? getitem lhs (e_row e) ;
       v <-? getitem (map xpress.column (range n)) (e_col e) ;
       setitem lhs (e_row e)
         (xpress.sub old (xpress.mul (xpress.const (e_val e)) (xpress.term v))))
    lhs
  = Ok (imap (fun r old =>
                foldl subtract_entry old
                  (filter (fun e => e_row e = Z.of_nat r) es))
             lhs).
Proof.
  revert lhs. induction es as [|e es IH]; intros lhs H; simpl.
  - f_equal. symmetry. etransitivity; [|apply list_fmap_id].
    rewrite <- imap_const. done.
  - inversion H as [|? ? [Hr Hc] H']; subst.
    destruct (lookup_lt_is_Some_2 lhs (Z.to_nat (e_row e))) as [old Hold];
      [unfold len in Hr; lia|].
    rewrite (getitem_Ok lhs (e_row e) old) by (done || lia). simpl.
    rewrite getitem_map_range by lia. simpl.
    unfold setitem. destruct (Z.ltb_spec (e_row e) 0); [lia|].
    destruct (Z.ltb_spec (e_row e) 0); [lia|].
    destruct (Z.leb_spec (len lhs) (e_row e)); [lia|]. simpl.
    rewrite IH.
    2: { eapply Forall_impl; [exact H'|]. simpl. intros e0 [Hr0 Hc0].
         unfold len in *. rewrite length_insert. done. }
    f_equal. apply list_eq. intros i.
    rewrite !list_lookup_imap.
    destruct (decide (i = Z.to_nat (e_row e))) as [->|Hi].
    + rewrite list_lookup_insert_eq by (unfold len in Hr; lia).
      rewrite Hold. simpl. f_equal.
      rewrite filter_cons_True by lia. reflexivity.
    + rewrite list_lookup_insert_ne by done.
      rewrite filter_cons_False by lia. reflexivity.
Qed.

(** The loop of lines 322-323. *)
Lemma apex_loop (n : Z) (es : list (Z * Z * Z)) (rhs : xpress.expr) :
  Forall (fun e => 0 <= e_col e < n) es ->
  rfor es
    (fun rhs e =>
       v <-? getitem (map xpress.column (range n)) (e_col e) ;
       Ok (xpress.sub rhs (xpress.mul (xpress.const (e_val e)) (xpress.term v))))
    rhs
  = Ok (foldl subtract_entry rhs es).
Proof.
  revert rhs. induction es as [|e es IH]; intros rhs H; simpl; [done|].
  inversion H as [|? ? Hc H']; subst.
  rewrite getitem_map_range by lia. simpl. by rewrite IH.
Qed.

Lemma filter_all {A} (P : A -> Prop) `{forall x, Decision (P x)} (l : list A) :
  Forall P l -> filter P l = l.
Proof.
  induction 1 as [|x l Hx Hl IH]; [done|]. by rewrite filter_cons_True, IH.
Qed.

Lemma comprehension_getitem {A B} (f : A -> B) (l : list A) :
  comprehension (fun i => e <-? getitem l i ; Ok (f e)) (range (len l))
  = Ok (map f l).
Proof.
  assert (forall pre l',
            comprehension (fun i => e <-? getitem (pre ++ l') i ; Ok (f e))
              (range2 (len pre) (len pre + len l'))
            = Ok (map f l')) as H.
  { intros pre l'. revert pre. induction l' as [|e l' IH]; intros pre.
    - rewrite range2_nil by (unfold len; simpl; lia). done.
    - rewrite range2_cons by (unfold len; simpl; lia). simpl.
      unfold len at 1. rewrite (getitem_lookup (pre ++ e :: l') (length pre) e).
      2: { by rewrite list_lookup_middle. }
      simpl.
      specialize (IH (pre ++ [e])). rewrite <- app_assoc in IH. simpl in IH.
      replace (len (pre ++ [e])) with (len pre + 1) in IH
        by (unfold len; rewrite length_app; simpl; lia).
      replace (len pre + 1 + len l') with (len pre + len (e :: l')) in IH
        by (unfold len; simpl; lia).
      fold (len pre). rewrite IH. done. }
  apply (H [] l).
Qed.

Lemma foldl_shifted_row (es : list (Z * Z * Z)) (lo hi i : Z)
  (acc : xpress.expr) :
  lo <= i + lo < hi ->
  foldl subtract_entry acc
    (filter (fun e => e_row e = i)
       (map (fun e => (e_row e - lo, e_col e, e_val e))
            (filter (fun e => lo <= e_row e < hi) es)))
  = foldl subtract_entry acc (filter (fun e => e_row e = i + lo) es).
Proof.
  intros Hi. revert acc. induction es as [|e es IH]; intros acc; [done|].
  destruct (decide (e_row e = i + lo)) as [He|He].
  - rewrite (filter_cons_True (fun e => lo <= e_row e < hi)) by lia.
    rewrite (filter_cons_True (fun e => e_row e = i + lo)) by done.
    simpl. rewrite filter_cons_True by (unfold e_row in *; simpl; lia).
    simpl. rewrite IH. reflexivity.
  - rewrite (filter_cons_False (fun e => e_row e = i + lo)) by done.
    destruct (decide (lo <= e_row e < hi)).
    + rewrite (filter_cons_True (fun e => lo <= e_row e < hi)) by done.
      simpl. rewrite filter_cons_False by (unfold e_row in *; simpl; lia).
      apply IH.
    + rewrite (filter_cons_False (fun e => lo <= e_row e < hi)) by done.
      apply IH.
Qed.

Lemma slice_from_1 {A} (l : list A) : 1 <= len l -> Py.slice l (Some 1) None = drop 1 l.
Proof.
  intros H. unfold Py.slice. simpl. unfold slice_bound. simpl.
  rewrite Z.min_l by lia.
  rewrite take_ge; [done|]. rewrite length_drop. unfold len in *. lia.
Qed.

(** When the rows of a cone store no zero, the back-substitution builds the
    constraint of the specification: the sum of the squares of
    [b_i - A[i] . x] over the leg rows is at most the square of
    [b_0 - A[0] . x]. *)
Theorem back_substitution_refines (A : spmatrix) (b : list Z) (n k : Z) :
  sp_nrow A = k ->
  len b = k ->
  1 <= k ->
  Forall (fun e => 0 <= e_row e < k /\ 0 <= e_col e < n /\ e_val e <> 0)
         (sp_entries A) ->
  back_substitution A b (map xpress.column (range n))
  = Ok (back_substitution_spec A b k).
Proof.
  intros Hrows Hb Hk Hes. unfold back_substitution.
  set (Plhs := getrows A (Some 1) None).
  assert (getrow A 0 = Ok (getrows A (Some 0) (Some 1))) as ->.
  { unfold getrow. simpl. rewrite Hrows.
    destruct (Z.leb_spec k 0); [lia|]. done. }
  set (Prhs := getrows A (Some 0) (Some 1)).
  assert (sp_entries Plhs
          = map (fun e => (e_row e - 1, e_col e, e_val e))
                (filter (fun e => 1 <= e_row e < k) (sp_entries A))) as HL.
  { unfold Plhs, getrows. simpl. rewrite Hrows. unfold slice_bound. simpl.
    replace (Z.min 1 k) with 1 by lia. done. }
  assert (sp_entries Prhs
          = map (fun e => (e_row e - 0, e_col e, e_val e))
                (filter (fun e => 0 <= e_row e < 1) (sp_entries A))) as HR.
  { unfold Prhs, getrows. simpl. rewrite Hrows. unfold slice_bound. simpl.
    replace (Z.min 0 k) with 0 by lia. replace (Z.min 1 k) with 1 by lia. done. }
  assert (Forall (fun e => 0 <= e_row e < k - 1 /\ 0 <= e_col e < n /\ e_val e <> 0)
                 (sp_entries Plhs)) as HesL.
  { rewrite HL, Forall_map. apply Forall_forall. intros e He.
    apply list_elem_of_filter in He as [Hr He].
    rewrite Forall_forall in Hes. destruct (Hes e He) as (_ & Hc & Hv).
    unfold e_row, e_col, e_val in *. simpl. lia. }
  assert (Forall (fun e => 0 <= e_col e < n /\ e_val e <> 0) (sp_entries Prhs))
    as HesR.
  { rewrite HR, Forall_map. apply Forall_forall. intros e He.
    apply list_elem_of_filter in He as [Hr He].
    rewrite Forall_forall in Hes. destruct (Hes e He) as (_ & Hc & Hv).
    unfold e_row, e_col, e_val in *. simpl. lia. }
  clearbody Plhs Prhs. cbn [rbind]. unfold nonzero.
  rewrite (filter_all (fun e => e_val e <> 0) (sp_entries Plhs))
    by (eapply Forall_impl; [exact HesL|]; simpl; tauto).
  rewrite (filter_all (fun e => e_val e <> 0) (sp_entries Prhs))
    by (eapply Forall_impl; [exact HesR|]; simpl; tauto).
  destruct b as [|b0 b']; [unfold len in Hb; simpl in Hb; lia|].
  change (getitem (b0 :: b') 0) with (Ok (A:=Z) b0). simpl rbind.
  rewrite slice_from_1 by (unfold len; simpl; lia).
  change (drop 1 (b0 :: b')) with b'.
  unfold scipy.data.
  replace (len (map e_val (sp_entries Plhs))) with (len (sp_entries Plhs))
    by (unfold len; by rewrite length_map).
  replace (len (map e_val (sp_entries Prhs))) with (len (sp_entries Prhs))
    by (unfold len; by rewrite length_map).
  rewrite (rfor_range (sp_entries Plhs) _
             (fun lhs e =>
                old <-? getitem lhs (e_row e) ;
                v <-? getitem (map xpress.column (range n)) (e_col e) ;
                setitem lhs (e_row e)
                  (xpress.sub old
                     (xpress.mul (xpress.const (e_val e)) (xpress.term v))))).
  2: { intros acc i e Hi. cbv beta.
       rewrite (getitem_lookup (map e_row (sp_entries Plhs)) i (e_row e))
         by (by rewrite list_lookup_fmap, Hi).
       rewrite (getitem_lookup (map e_val (sp_entries Plhs)) i (e_val e))
         by (by rewrite list_lookup_fmap, Hi).
       rewrite (getitem_lookup (map e_col (sp_entries Plhs)) i (e_col e))
         by (by rewrite list_lookup_fmap, Hi).
       simpl. reflexivity. }
  rewrite (leg_loop n).
  2: { eapply Forall_impl; [exact HesL|]. simpl. intros e (Hr & Hc & _).
       unfold len in *. rewrite length_map. simpl in Hb. lia. }
  simpl rbind.
  rewrite (rfor_range (sp_entries Prhs) _
             (fun rhs e =>
                v <-? getitem (map xpress.column (range n)) (e_col e) ;
                Ok (xpress.sub rhs
                      (xpress.mul (xpress.const (e_val e)) (xpress.term v))))).
  2: { intros acc i e Hi. cbv beta.
       rewrite (getitem_lookup (map e_val (sp_entries Prhs)) i (e_val e))
         by (by rewrite list_lookup_fmap, Hi).
       rewrite (getitem_lookup (map e_col (sp_entries Prhs)) i (e_col e))
         by (by rewrite list_lookup_fmap, Hi).
       simpl. reflexivity. }
  rewrite (apex_loop n)
    by (eapply Forall_impl; [exact HesR|]; simpl; tauto).
  simpl rbind. rewrite comprehension_getitem. simpl rbind.
  unfold back_substitution_spec. f_equal. f_equal.
  - f_equal. apply list_eq. intros i.
    rewrite !list_lookup_fmap, list_lookup_imap, list_lookup_fmap.
    destruct (decide (Z.of_nat i < k - 1)) as [Hi|Hi].
    + rewrite range2_lookup by lia.
      destruct (lookup_lt_is_Some_2 b' i) as [bi Hbi];
        [unfold len in Hb; simpl in Hb; lia|].
      rewrite Hbi. simpl. f_equal. f_equal.
      rewrite HL, (foldl_shifted_row _ 1 k) by lia.
      unfold row_expr, row_entries, item.
      replace (Z.to_nat (1 + Z.of_nat i)) with (S i) by lia. simpl. rewrite Hbi.
      simpl. f_equal. apply list_filter_iff. intros e. lia.
    + rewrite (lookup_ge_None_2 b') by (unfold len in Hb; simpl in Hb; lia).
      rewrite lookup_ge_None_2; [done|].
      pose proof (len_range2 1 k) as Hl. unfold len in Hl. lia.
  - f_equal. rewrite HR.
    pose proof (foldl_shifted_row (sp_entries A) 0 1 0 (xpress.const b0)) as Hf.
    rewrite <- (filter_all (fun e => e_row e = 0)
                  (map (fun e => (e_row e - 0, e_col e, e_val e))
                       (filter (fun e => 0 <= e_row e < 1) (sp_entries A)))).
    + rewrite Hf by lia. reflexivity.
    + rewrite Forall_map. apply Forall_forall. intros e He.
      apply list_elem_of_filter in He as [Hr _]. unfold e_row in *. simpl. lia.
Qed.

Lemma eval_foldl_subtract (rho : xpress.var -> Z) (es : list (Z * Z * Z))
  (acc : xpress.expr) :
  eval rho (foldl subtract_entry acc es)
  = eval rho acc
    - total (map (fun e => e_val e * rho (xpress.column (e_col e))) es).
Proof.
  revert acc. induction es as [|e es IH]; intros acc; simpl.
  - unfold total. simpl. lia.
  - rewrite IH. unfold total. simpl. lia.
Qed.

(** The value of [row_expr A b i] is [b_i] minus the product of the row [i]
    of [A] with the values of the variables. *)
Lemma eval_row_expr (rho : xpress.var -> Z) (A : spmatrix) (b : list Z) (i : Z) :
  eval rho (row_expr A b i)
  = item b i
    - total (map (fun e => e_val e * rho (xpress.column (e_col e)))
                 (row_entries A i)).
Proof. unfold row_expr. by rewrite eval_foldl_subtract. Qed.

Lemma eval_Sum (rho : xpress.var -> Z) (l : list xpress.expr) :
  eval rho (xpress.Sum l) = total (map (eval rho) l).
Proof. unfold total. simpl. induction l as [|a l IH]; simpl; [done|]. by rewrite IH. Qed.

(** With back-substitution, the block of a cone of size [k >= 1] whose rows
    store no zero makes one call on the problem: it adds the constraint of
    the specification.  No variable and no row is added.  For values [rho]
    of the variables, the two sides of the constraint are the sum of the
    squares of [b_i - A[i] . x] over the leg rows, and the square of
    [b_0 - A[0] . x]. *)
Theorem cone_back_substitution (h : nat) (data : problem_data)
  (n currow iCone k : Z) (w : world) :
  let A := tocsr (getrows (data_A data) (Some currow) (Some (currow + k))) in
  let b := Py.slice (data_B data) (Some currow) (Some (currow + k)) in
  sp_nrow A = k ->
  len b = k ->
  1 <= k ->
  Forall (fun e => 0 <= e_row e < k /\ 0 <= e_col e < n /\ e_val e <> 0)
         (sp_entries A) ->
  soc_block true h data (map xpress.column (range n)) (currow, iCone) k w
  = (append_calls h [xpress.addConstraint (back_substitution_spec A b k)] w,
     Ok (currow + k, iCone + 1))
  /\ forall rho,
       eval rho (xpress.c_lhs (back_substitution_spec A b k))
       = total (map (fun i =>
                       (item b i
                        - total (map (fun e => e_val e * rho (xpress.column (e_col e)))
                                     (row_entries A i))) ^ 2)
                    (range2 1 k))
       /\ eval rho (xpress.c_rhs (back_substitution_spec A b k))
          = (item b 0
             - total (map (fun e => e_val e * rho (xpress.column (e_col e)))
                          (row_entries A 0))) ^ 2.
Proof.
  cbv zeta. intros Hrows Hb Hk Hes. split.
  - unfold soc_block. cbn [fst snd].
    rewrite (back_substitution_refines _ _ n k Hrows Hb Hk Hes).
    run_calls. reflexivity.
  - intros rho. unfold back_substitution_spec. cbn [xpress.c_lhs xpress.c_rhs].
    split.
    + rewrite eval_Sum, map_map. f_equal. apply map_ext. intros i.
      cbn [eval]. by rewrite eval_row_expr.
    + cbn [eval]. by rewrite eval_row_expr.
Qed.

(** ** The references of the world *)

Lemma load_world tb cp ws (w : world) :
  prev_result (load tb cp ws w).1 = prev_result w
  /\ (length (problems w) <= length (problems (load tb cp ws w).1))%nat.
Proof.
  pose proof (load_eq tb cp ws w) as E. cbv zeta in E. rewrite E.
  destruct (previous ws (prev_result w) (problem_data_of cp)) as [prev|].
  - match goal with |- context [warm_start_update ?a ?b ?c ?d ?e w] =>
      pose proof (warm_start_update_world a b c d e w) as ([C N _ _ _] & _) end.
    split; [done|lia].
  - match goal with |- context [cold_load ?a ?b ?c ?d ?e ?f ?g ?i w] =>
      pose proof (cold_load_world a b c d e f g i w) as (C & N & _) end.
    split; [done|lia].
Qed.

(** [solve] keeps the cache sound: when the cached reference refers to a
    problem before the call, it does so after the call, whether the call
    returns or raises. *)
Theorem solve_keeps_references lib tb cp ws verbose opts (w : world) :
  wf_world w -> wf_world (solve lib tb cp ws verbose opts w).1.
Proof.
  intros Hwf. rewrite solve_eq.
  destruct (load_world tb cp ws w) as [Hc Hn].
  destruct (load tb cp ws w) as [w1 [h|e]] eqn:Hl; cbn [fst] in *.
  - destruct (load_valid _ _ _ _ _ _ Hwf Hl) as (Hh & _ & _).
    set (w2 := append_calls h (verbose_controls ++ option_calls lib opts) w1).
    assert (wf_world w2) as Hwf2.
    { intros prev Hp. unfold w2 in *. rewrite length_append_calls.
      simpl in Hp. rewrite Hc in Hp. specialize (Hwf prev Hp). lia. }
    assert (h < length (problems w2))%nat as Hh2
      by (unfold w2; by rewrite length_append_calls).
    clearbody w2. rewrite run_eq. cbv zeta. rewrite call_eq. cbn [fst].
    assert (wf_world (append_calls h [xpress.solve] w2)) as Hwf3.
    { intros prev Hp. rewrite length_append_calls. by apply Hwf2. }
    destruct (xpress.optimize lib _) as [o|e]; [|exact Hwf3].
    destruct (translate_status _ _) as [st|e]; [|exact Hwf3].
    rewrite format_results_eq. cbv zeta. rewrite results_dict_problem.
    destruct (xpress.getcoltype _ _ _) as [vartypes|e]; cbn [fst].
    + intros prev Hp. simpl in Hp. inversion Hp; subst. simpl.
      rewrite length_alter. exact Hh2.
    + intros prev Hp. simpl in *. rewrite length_alter. by apply Hwf2.
  - intros prev Hp. rewrite Hc in Hp. specialize (Hwf prev Hp). lia.
Qed.

(** ** The entries of the column-start array *)

Lemma cumsum_from_lookup (x : list Z) (acc : Z) (j : nat) :
  (j < length x)%nat ->
  numpy.cumsum_from acc x !! j = Some (acc + total (take (S j) x)).
Proof.
  revert acc j. induction x as [|v x IH]; intros acc j Hj; simpl in Hj; [lia|].
  destruct j as [|j].
  - simpl. unfold total. simpl. f_equal. lia.
  - change (numpy.cumsum_from acc (v :: x) !! S j)
      with (numpy.cumsum_from (acc + v) x !! j).
    rewrite IH by lia. f_equal.
    change (take (S (S j)) (v :: x)) with (v :: take (S j) x).
    unfold total. simpl. lia.
Qed.

Lemma total_take_replicate_0 (j m : nat) : total (take j (replicate m 0)) = 0.
Proof. rewrite take_replicate. apply total_replicate_0. Qed.

Lemma count_split (P Q : Z -> Prop) `{forall v, Decision (P v)}
  `{forall v, Decision (Q v)} `{forall v, Decision (P v \/ Q v)} (x : list Z) :
  (forall v, P v -> Q v -> False) ->
  len (filter (fun v => P v \/ Q v) x) = len (filter P x) + len (filter Q x).
Proof.
  intros Hd. unfold len. induction x as [|v x IH]; [done|].
  rewrite !filter_cons.
  destruct (decide (P v)) as [HP|HP], (decide (Q v)) as [HQ|HQ];
    destruct (decide (P v \/ Q v)) as [HPQ|HPQ]; simpl; try lia;
    try (exfalso; tauto); exfalso; eauto.
Qed.

Lemma len_filter_ext {A} (P Q : A -> Prop) `{forall v, Decision (P v)}
  `{forall v, Decision (Q v)} (x : list A) :
  Forall (fun v => P v <-> Q v) x -> len (filter P x) = len (filter Q x).
Proof.
  unfold len. induction 1 as [|v x Hv Hx IH]; [done|].
  rewrite !filter_cons.
  destruct (decide (P v)), (decide (Q v)); simpl; try lia; tauto.
Qed.

(** The counts of the values [0 .. m - 1] add up to the number of entries
    that lie in that range. *)
Lemma total_occurrences_below (x : list Z) (m : nat) :
  total (map (fun i => numpy.occurrences i x)
             (map (fun i => 0 + Z.of_nat i) (seq 0 m)))
  = len (filter (fun v => 0 <= v < Z.of_nat m) x).
Proof.
  induction x as [|v x IH].
  - unfold total. induction (seq 0 m); simpl; [done|].
    unfold numpy.occurrences in *. simpl. unfold len in *. simpl in *. lia.
  - erewrite map_ext; [|intros i; apply occurrences_cons].
    rewrite (total_map_add (fun i => if decide (v = i) then 1 else 0)).
    rewrite IH, total_indicator. unfold len. rewrite filter_cons.
    destruct (decide (0 <= v < Z.of_nat m)); simpl; lia.
Qed.

Lemma take_range (j : nat) (m : Z) :
  take j (range m)
  = map (fun i => 0 + Z.of_nat i) (seq 0 (Nat.min j (Z.to_nat m))).
Proof.
  unfold range, range2. rewrite Z.sub_0_r.
  by rewrite firstn_map, take_seq.
Qed.

(** What [makeMstart] returns, entry by entry. *)
Lemma column_starts_lookup (coords : list Z) (n j : Z) :
  Forall (fun v => 0 <= v) coords ->
  let mstart :=
    numpy.cumsum
      ([0] ++ map (fun i => numpy.occurrences i coords) (range (numpy.span coords))
           ++ Py.times 0 (n - Z.max 0 (numpy.span coords))) in
  0 <= j < len mstart ->
  getitem mstart j = Ok (len (filter (fun v => v < j) coords)).
Proof.
  intros Hx. cbv zeta. intros Hj.
  apply getitem_Ok; [lia|].
  unfold numpy.cumsum in *. unfold len in Hj. rewrite cumsum_from_length in Hj.
  rewrite cumsum_from_lookup by lia. f_equal. rewrite Z.add_0_l.
  set (counts := map (fun i => numpy.occurrences i coords) (range (numpy.span coords))).
  change (take (S (Z.to_nat j)) ([0] ++ ?l)) with (0 :: take (Z.to_nat j) l).
  change (total (0 :: ?l)) with (0 + total l).
  rewrite take_app, total_app. unfold Py.times at 1. rewrite total_take_replicate_0.
  unfold counts.
  rewrite firstn_map, take_range, total_occurrences_below.
  rewrite Z.add_0_l, Z.add_0_r.
  apply len_filter_ext.
  pose proof (span_bound coords) as Hb. pose proof (span_nonneg coords).
  rewrite Forall_forall in *. intros v Hv.
  specialize (Hx v Hv). specialize (Hb v Hv). simpl in *. lia.
Qed.

Lemma makeMstart_Ok_inv (A : spmatrix) (n ifCol : Z) (mstart : list Z) :
  makeMstart A n ifCol = Ok mstart ->
  exists coords,
    pair_getitem (nonzero A) ifCol = Ok coords
    /\ Forall (fun v => 0 <= v) coords
    /\ mstart
       = numpy.cumsum
           ([0] ++ map (fun i => numpy.occurrences i coords)
                       (range (numpy.span coords))
                ++ Py.times 0 (n - Z.max 0 (numpy.span coords))).
Proof.
  intros Hm. pose proof Hm as Hm'. unfold makeMstart in Hm.
  destruct (pair_getitem (nonzero A) ifCol) as [coords|e] eqn:Hc; [|done].
  simpl in Hm. exists coords. split; [done|].
  assert (Forall (fun v => 0 <= v) coords) as Hx.
  { apply Forall_forall. intros v Hv.
    destruct (Z.ltb_spec v 0) as [Hlt0|]; [|done].
    assert (existsb (fun v => v <? 0) coords = true) as E.
    { apply existsb_exists. exists v. split; [by apply list_elem_of_In|lia]. }
    unfold numpy.bincount in Hm. rewrite E in Hm. done. }
  split; [done|].
  rewrite (makeMstart_eq A n ifCol coords Hc Hx) in Hm'. by inversion Hm'.
Qed.

(** Every entry of the array that [makeMstart] returns: the entry at the
    position [j] is the number of coordinates below [j], so two neighbours
    differ by the number of coordinates that are [j]. *)
Theorem makeMstart_counts_below (A : spmatrix) (n ifCol : Z)
  (coords mstart : list Z) :
  pair_getitem (nonzero A) ifCol = Ok coords ->
  makeMstart A n ifCol = Ok mstart ->
  forall j, 0 <= j < len mstart ->
    getitem mstart j = Ok (len (filter (fun v => v < j) coords))
    /\ (j + 1 < len mstart ->
        getitem mstart (j + 1)
        = Ok (len (filter (fun v => v < j) coords) + numpy.occurrences j coords)).
Proof.
  intros Hc Hm j Hj.
  destruct (makeMstart_Ok_inv A n ifCol mstart Hm) as (coords' & Hc' & Hx & ->).
  rewrite Hc in Hc'. inversion Hc'; subst coords'.
  split; [by apply column_starts_lookup|].
  intros Hj1. rewrite column_starts_lookup by (done || lia). f_equal.
  unfold numpy.occurrences.
  rewrite <- (count_split (fun v => v < j) (fun v => v = j)) by lia.
  apply len_filter_ext, Forall_forall. intros v _. simpl. lia.
Qed.

(** ** The arrays of a compressed matrix *)

Section sorted_by_key.

Context {E : Type} (f : E -> Z).

Lemma sorted_split (es : list E) (j : Z) :
  StronglySorted (fun e e' => f e <= f e') es ->
  es = filter (fun e => f e < j) es ++ filter (fun e => j <= f e) es.
Proof.
  induction 1 as [|e es Hs IH He]; [done|].
  rewrite !filter_cons.
  destruct (decide (f e < j)) as [Hlt|Hge].
  - rewrite decide_False by lia. simpl. by rewrite <- IH.
  - rewrite decide_True by lia.
    assert (filter (fun e => f e < j) es = []) as ->.
    { clear IH Hs. induction es as [|e' es IH]; [done|].
      inversion He as [|? ? He' Hes]; subst.
      rewrite filter_cons, decide_False by lia. by apply IH. }
    assert (filter (fun e => j <= f e) es = es) as ->; [|done].
    clear IH Hs. induction es as [|e' es IH]; [done|].
    inversion He as [|? ? He' Hes]; subst.
    rewrite filter_cons, decide_True by lia. f_equal. by apply IH.
Qed.

Lemma sorted_filter (P : E -> Prop) `{forall e, Decision (P e)} (es : list E) :
  StronglySorted (fun e e' => f e <= f e') es ->
  StronglySorted (fun e e' => f e <= f e') (filter P es).
Proof.
  induction 1 as [|e es Hs IH He]; [constructor|].
  rewrite filter_cons. destruct (decide (P e)); [|done].
  constructor; [done|]. apply Forall_forall. intros e' He'.
  apply list_elem_of_filter in He' as [_ He'].
  rewrite Forall_forall in He. by apply He.
Qed.

(** In a list sorted by its key, the entries with the key [j] follow the
    entries with a smaller key, one after the other. *)
Lemma sorted_segment (es : list E) (j : Z) :
  StronglySorted (fun e e' => f e <= f e') es ->
  let a := len (filter (fun e => f e < j) es) in
  let b := len (filter (fun e => f e < j + 1) es) in
  a <= b <= len es
  /\ Py.slice es (Some a) (Some b) = filter (fun e => f e = j) es.
Proof.
  intros Hs. cbv zeta.
  set (lo := filter (fun e => f e < j) es).
  set (mid := filter (fun e => f e = j) es).
  set (hi := filter (fun e => j + 1 <= f e) es).
  assert (filter (fun e => j <= f e) es = mid ++ hi) as Hge.
  { rewrite (sorted_split (filter (fun e => j <= f e) es) (j + 1))
      by (by apply sorted_filter).
    rewrite !list_filter_filter. unfold mid, hi. f_equal.
    - apply list_filter_iff. intros e. lia.
    - apply list_filter_iff. intros e. lia. }
  assert (filter (fun e => f e < j + 1) es = lo ++ mid) as Hlt.
  { pose proof (sorted_split es (j + 1) Hs) as E1.
    pose proof (sorted_split es j Hs) as E2. rewrite Hge in E2.
    fold lo in E2. fold hi in E1.
    rewrite E2 in E1 at 1. rewrite app_assoc in E1.
    apply (f_equal (take (length (lo ++ mid)))) in E1.
    rewrite take_app_length in E1.
    assert (length (filter (fun e => f e < j + 1) es) = length (lo ++ mid)) as Hl.
    { apply (f_equal (@length E)) in E2.
      pose proof (sorted_split es (j + 1) Hs) as E3. fold hi in E3.
      apply (f_equal (@length E)) in E3. rewrite !length_app in *. lia. }
    rewrite <- Hl, take_app_length in E1. done. }
  pose proof (sorted_split es j Hs) as Hes. rewrite Hge in Hes. fold lo in Hes.
  rewrite Hlt. unfold len. rewrite length_app.
  assert (length es = length lo + length mid + length hi)%nat as Hlen.
  { rewrite Hes at 1. rewrite !length_app. lia. }
  split; [lia|].
  unfold Py.slice, slice_lo, slice_hi, slice_bound.
  destruct (Z.ltb_spec (Z.of_nat (length lo)) 0); [lia|].
  destruct (Z.ltb_spec (Z.of_nat (length lo + length mid)) 0); [lia|].
  fold (len es). unfold len.
  rewrite !Z.min_l by lia.
  replace (Z.to_nat (Z.of_nat (length lo + length mid) - Z.of_nat (length lo)))
    with (length mid) by lia.
  rewrite Nat2Z.id. rewrite Hes at 1.
  by rewrite drop_app_length, take_app_length.
Qed.

End sorted_by_key.

Lemma slice_map {A B} (g : A -> B) (l : list A) (lo hi : option Z) :
  Py.slice (map g l) lo hi = map g (Py.slice l lo hi).
Proof.
  unfold Py.slice, len. rewrite length_map.
  by rewrite skipn_map, firstn_map.
Qed.

Lemma nonzero_all (A : spmatrix) :
  Forall (fun e => e_val e <> 0) (sp_entries A) ->
  nonzero A = (map e_row (sp_entries A), map e_col (sp_entries A)).
Proof.
  intros H. unfold nonzero. by rewrite filter_all.
Qed.

Lemma major_coordinates (A : spmatrix) :
  Forall (fun e => e_val e <> 0) (sp_entries A) ->
  pair_getitem (nonzero A) (major_axis (sp_format A))
  = Ok (map (major (sp_format A)) (sp_entries A)).
Proof.
  intros H. rewrite nonzero_all by done.
  unfold major_axis, major. by destruct (sp_format A).
Qed.

Lemma indices_minor (A : spmatrix) :
  scipy.indices A = map (minor (sp_format A)) (sp_entries A).
Proof. unfold scipy.indices, minor. by destruct (sp_format A). Qed.

Lemma len_filter_map {A} (g : A -> Z) (P : Z -> Prop) `{forall v, Decision (P v)}
  (l : list A) :
  len (filter P (map g l)) = len (filter (fun e => P (g e)) l).
Proof.
  unfold len. induction l as [|a l IH]; [done|].
  simpl. rewrite !filter_cons. destruct (decide (P (g a))); simpl; lia.
Qed.

(** The arrays of a compressed matrix, decoded: when the stored entries are
    ordered along the compressed axis and none is zero, the values of
    [A.indices] and [A.data] between two neighbours of the array of
    [makeMstart] are those of the entries of one column (CSC) or row (CSR). *)
Lemma encoding_segments (A : spmatrix) (n : Z) :
  StronglySorted (fun e e' => major (sp_format A) e <= major (sp_format A) e')
                 (sp_entries A) ->
  Forall (fun e => 0 <= major (sp_format A) e < n /\ e_val e <> 0)
         (sp_entries A) ->
  0 <= n ->
  exists mstart,
    makeMstart A n (major_axis (sp_format A)) = Ok mstart
    /\ len mstart = n + 1
    /\ forall j, 0 <= j < n ->
         exists a b,
           getitem mstart j = Ok a
           /\ getitem mstart (j + 1) = Ok b
           /\ Py.slice (scipy.indices A) (Some a) (Some b)
              = map (minor (sp_format A)) (segment A j)
           /\ Py.slice (scipy.data A) (Some a) (Some b)
              = map e_val (segment A j).
Proof.
  intros Hs Hes Hn.
  assert (Forall (fun e => e_val e <> 0) (sp_entries A)) as Hnz
    by (eapply Forall_impl; [exact Hes|]; simpl; tauto).
  set (coords := map (major (sp_format A)) (sp_entries A)).
  assert (Forall (fun v => 0 <= v) coords) as Hx.
  { unfold coords. rewrite Forall_map. eapply Forall_impl; [exact Hes|].
    simpl. intros; lia. }
  assert (Forall (fun v => v < n) coords) as Hb.
  { unfold coords. rewrite Forall_map. eapply Forall_impl; [exact Hes|].
    simpl. intros; lia. }
  pose proof (makeMstart_eq A n _ coords (major_coordinates A Hnz) Hx) as Hm.
  destruct (column_starts_facts coords n Hx) as (Hl & _ & _).
  pose proof (span_le coords n Hn Hb). pose proof (span_nonneg coords).
  eexists. split; [exact Hm|]. split; [lia|].
  intros j Hj.
  exists (len (filter (fun v => v < j) coords)),
         (len (filter (fun v => v < j + 1) coords)).
  split; [apply column_starts_lookup; [done|lia]|].
  split; [apply column_starts_lookup; [done|lia]|].
  unfold coords. rewrite !len_filter_map.
  destruct (sorted_segment (major (sp_format A)) (sp_entries A) j Hs) as [_ Hseg].
  rewrite indices_minor. unfold scipy.data, segment.
  by rewrite !slice_map, Hseg.
Qed.

Lemma getrows_format (A : spmatrix) (lo hi : option Z) :
  sp_format (getrows A lo hi) = sp_format A.
Proof. reflexivity. Qed.

Lemma sorted_map_filter {E} (f : E -> Z) (g : E -> E) (P : E -> Prop)
  `{forall e, Decision (P e)} (es : list E) :
  (forall e, f (g e) = f e) ->
  StronglySorted (fun e e' => f e <= f e') es ->
  StronglySorted (fun e e' => f e <= f e') (map g (filter P es)).
Proof.
  intros Hg Hs. apply (sorted_filter f P) in Hs.
  induction Hs as [|e l Hs IH He]; simpl; constructor; [done|].
  rewrite Forall_map. eapply Forall_impl; [exact He|].
  simpl. intros e'. by rewrite !Hg.
Qed.

(** The linear part of the problem, as [loadproblem] receives it.  When
    [data[s.A]] is a CSC matrix whose stored entries are ordered by column,
    lie in the columns of the variables and are not zero, the values of
    [A.indices] and [A.data] between the entries [j] and [j + 1] of [mstart]
    are the row indices and the coefficients of the column [j] of the linear
    rows, and [mstart] has one entry more than there are variables. *)
Theorem loadproblem_column_encoding (data : problem_data) :
  let n := len (data_C data) in
  let A := getrows (data_A data) None
             (Some (dims_EQ_DIM data + dims_LEQ_DIM data)) in
  sp_format (data_A data) = CSC ->
  StronglySorted (fun e e' => e_col e <= e_col e') (sp_entries (data_A data)) ->
  Forall (fun e => 0 <= e_col e < n /\ e_val e <> 0) (sp_entries (data_A data)) ->
  exists mstart,
    makeMstart A n 1 = Ok mstart
    /\ len mstart = n + 1
    /\ forall j, 0 <= j < n ->
         exists a b,
           getitem mstart j = Ok a
           /\ getitem mstart (j + 1) = Ok b
           /\ Py.slice (scipy.indices A) (Some a) (Some b)
              = map e_row (filter (fun e => e_col e = j) (sp_entries A))
           /\ Py.slice (scipy.data A) (Some a) (Some b)
              = map e_val (filter (fun e => e_col e = j) (sp_entries A)).
Proof.
  cbv zeta. intros Hf Hs Hes.
  set (A := getrows (data_A data) None
              (Some (dims_EQ_DIM data + dims_LEQ_DIM data))).
  assert (sp_format A = CSC) as HfA by done.
  pose proof (encoding_segments A (len (data_C data))) as H.
  unfold segment in H. rewrite HfA in H. apply H; [| |apply len_nonneg].
  - unfold A, getrows. cbn [sp_entries major].
    by apply (sorted_map_filter e_col).
  - unfold A, getrows. cbn [sp_entries major]. rewrite Forall_map.
    apply Forall_forall. intros e He. apply list_elem_of_filter in He as [_ He].
    rewrite Forall_forall in Hes. apply (Hes e He).
Qed.

(** ** The rows of a cone *)

Lemma insert_by_row_sorted e l :
  StronglySorted (fun e e' => e_row e <= e_row e') l ->
  StronglySorted (fun e e' => e_row e <= e_row e') (insert_by_row e l).
Proof.
  induction 1 as [|e' l Hs IH He]; simpl.
  - repeat constructor.
  - destruct (Z.leb_spec (e_row e) (e_row e')).
    + constructor; [by constructor|]. constructor; [done|].
      eapply Forall_impl; [exact He|]. simpl. intros; lia.
    + constructor; [done|]. apply Forall_insert_by_row; [lia|done].
Qed.

Lemma tocsr_sorted (A : spmatrix) :
  StronglySorted (fun e e' => e_row e <= e_row e') (sp_entries (tocsr A)).
Proof.
  unfold tocsr. cbn [sp_entries].
  induction (sp_entries A) as [|e l IH]; simpl; [constructor|].
  by apply insert_by_row_sorted.
Qed.

(** Ordering the entries by row keeps the entries of a row in their
    order. *)
Lemma filter_insert_by_row (i : Z) e l :
  filter (fun e => e_row e = i) (insert_by_row e l)
  = filter (fun e => e_row e = i) (e :: l).
Proof.
  induction l as [|e' l IH]; [done|]. simpl.
  destruct (Z.leb_spec (e_row e) (e_row e')); [done|].
  rewrite filter_cons, IH, !filter_cons.
  destruct (decide (e_row e' = i)), (decide (e_row e = i)); try done; lia.
Qed.

Lemma filter_tocsr (i : Z) (A : spmatrix) :
  filter (fun e => e_row e = i) (sp_entries (tocsr A))
  = filter (fun e => e_row e = i) (sp_entries A).
Proof.
  unfold tocsr. cbn [sp_entries].
  induction (sp_entries A) as [|e l IH]; [done|]. simpl.
  by rewrite filter_insert_by_row, !filter_cons, IH.
Qed.

Lemma getrows_entries (A : spmatrix) (lo k : Z) :
  0 <= lo -> 0 <= k -> lo + k <= sp_nrow A ->
  sp_nrow (getrows A (Some lo) (Some (lo + k))) = k
  /\ sp_entries (getrows A (Some lo) (Some (lo + k)))
     = map (fun e => (e_row e - lo, e_col e, e_val e))
           (filter (fun e => lo <= e_row e < lo + k) (sp_entries A)).
Proof.
  intros Hlo Hk Hn. unfold getrows, slice_lo, slice_hi, slice_bound.
  cbn [sp_nrow sp_entries].
  destruct (Z.ltb_spec lo 0); [lia|]. destruct (Z.ltb_spec (lo + k) 0); [lia|].
  rewrite !Z.min_l by lia. split; [lia|done].
Qed.

Lemma filter_map_shift (lo i : Z) (es : list (Z * Z * Z)) :
  filter (fun e => e_row e = i)
         (map (fun e => (e_row e - lo, e_col e, e_val e)) es)
  = map (fun e => (e_row e - lo, e_col e, e_val e))
        (filter (fun e => e_row e = lo + i) es).
Proof.
  induction es as [|e es IH]; [done|]. simpl. rewrite !filter_cons, IH.
  unfold e_row at 1. simpl.
  destruct (decide (e_row e - lo = i)), (decide (e_row e = lo + i));
    try done; lia.
Qed.

(** The rows of a cone, as [addrows] receives them.  For a block of [k]
    rows of [data[s.A]] that stores no zero, the values of [A.indices] and
    [A.data] between the entries [i] and [i + 1] of [mstart] are the column
    indices and the coefficients of the row [currow + i] of [data[s.A]], in
    the order in which the matrix stores them, and [mstart] has [k + 1]
    entries. *)
Theorem addrows_row_encoding (data : problem_data) (currow k : Z) :
  let A := tocsr (getrows (data_A data) (Some currow) (Some (currow + k))) in
  0 <= currow -> 0 <= k -> currow + k <= sp_nrow (data_A data) ->
  Forall (fun e => currow <= e_row e < currow + k -> e_val e <> 0)
         (sp_entries (data_A data)) ->
  exists mstart,
    makeMstart A k 0 = Ok mstart
    /\ len mstart = k + 1
    /\ forall i, 0 <= i < k ->
         exists a b,
           getitem mstart i = Ok a
           /\ getitem mstart (i + 1) = Ok b
           /\ Py.slice (scipy.indices A) (Some a) (Some b)
              = map e_col (filter (fun e => e_row e = currow + i)
                                  (sp_entries (data_A data)))
           /\ Py.slice (scipy.data A) (Some a) (Some b)
              = map e_val (filter (fun e => e_row e = currow + i)
                                  (sp_entries (data_A data))).
Proof.
  cbv zeta. intros Hlo Hk Hn Hnz.
  set (B := getrows (data_A data) (Some currow) (Some (currow + k))).
  destruct (getrows_entries (data_A data) currow k Hlo Hk Hn) as [Hrows Hent].
  fold B in Hrows, Hent.
  assert (Forall (fun e => 0 <= major CSR e < k /\ e_val e <> 0)
                 (sp_entries (tocsr B))) as Hes.
  { apply Forall_tocsr. rewrite Hent, Forall_map. apply Forall_forall.
    intros e He. apply list_elem_of_filter in He as [Hr He].
    rewrite Forall_forall in Hnz. specialize (Hnz e He Hr).
    unfold major, e_row, e_val in *. simpl. lia. }
  destruct (encoding_segments (tocsr B) k (tocsr_sorted B) Hes Hk)
    as (mstart & Hm & Hl & Hseg).
  exists mstart. split; [exact Hm|]. split; [exact Hl|].
  intros i Hi. destruct (Hseg i Hi) as (a & b & Ha & Hb & Hind & Hdat).
  exists a, b. split; [exact Ha|]. split; [exact Hb|].
  assert (segment (tocsr B) i
          = map (fun e => (e_row e - currow, e_col e, e_val e))
                (filter (fun e => e_row e = currow + i) (sp_entries (data_A data))))
    as Hsegm.
  { unfold segment. change (major (sp_format (tocsr B))) with e_row.
    rewrite filter_tocsr, Hent, filter_map_shift. f_equal.
    rewrite list_filter_filter. apply list_filter_iff. intros e. lia. }
  rewrite Hind, Hdat, Hsegm, !map_map. split; apply map_ext; by intros [[r c] v].
Qed.

(** ** Loading a problem from scratch *)

Lemma alter_new {A} (f : A -> A) (l : list A) (x : A) :
  alter f (length l) (l ++ [x]) = l ++ [f x].
Proof.
  induction l as [|a l IH]; [done|]. simpl. by rewrite <- IH.
Qed.

Lemma getitem_item (c : list Z) (i : Z) :
  0 <= i < len c -> getitem c i = Ok (item c i).
Proof.
  intros Hi. unfold item. apply getitem_Ok; [lia|].
  destruct (lookup_lt_is_Some_2 c (Z.to_nat i)) as [v Hv]; [unfold len in Hi; lia|].
  by rewrite Hv.
Qed.

Lemma objective_expr_eq (c : list Z) :
  objective_expr c (map xpress.column (range (len c)))
  = Ok (xpress.Sum (map (objective_term c) (range (len c)))).
Proof.
  unfold objective_expr.
  rewrite (comprehension_Ok _ (objective_term c)); [done|].
  intros i Hi. apply elem_of_range in Hi.
  rewrite getitem_item by done. simpl.
  rewrite getitem_map_range by done. reflexivity.
Qed.

Lemma makeMstart_columns_Ok (A : spmatrix) (n : Z) :
  Forall (fun e => 0 <= e_col e) (sp_entries A) ->
  exists mstart, makeMstart A n 1 = Ok mstart.
Proof.
  intros H. eexists. apply (makeMstart_eq A n 1 (nonzero A).2 eq_refl).
  unfold nonzero. simpl. rewrite Forall_map.
  apply Forall_forall. intros e He. apply list_elem_of_filter in He as [_ He].
  rewrite Forall_forall in H. by apply H.
Qed.

Lemma getrows_columns (P : Z -> Prop) (A : spmatrix) (lo hi : option Z) :
  Forall (fun e => P (e_col e)) (sp_entries A) ->
  Forall (fun e => P (e_col e)) (sp_entries (getrows A lo hi)).
Proof.
  intros H. unfold getrows. cbn [sp_entries]. rewrite Forall_map.
  apply Forall_forall. intros e He. apply list_elem_of_filter in He as [_ He].
  rewrite Forall_forall in H. exact (H e He).
Qed.

(** The calls of a cold load, given the calls of the loop over the
    cones. *)
Lemma cold_load_calls tb data c A b nE nL nrows (w : world)
  (mstart : list Z) (cs : list xpress.call) (st : Z * Z) :
  let h := length (problems w) in
  let x := map xpress.column (range (len c)) in
  makeMstart A (len c) 1 = Ok mstart ->
  (forall w1, (h < length (problems w1))%nat ->
              problem_at w1 h
              = [ xpress.loadproblem "CVXproblem"
                    (Py.times "E"%char nE ++ Py.times "L"%char nL)
                    b c mstart (scipy.indices A) (scipy.data A)
                    (Py.times xpress.minus_infinity (len c))
                    (Py.times xpress.infinity (len c));
                  xpress.chgcoltype
                    (data_BOOL_IDX data ++ data_INT_IDX data)
                    (Py.times "B"%char (len (data_BOOL_IDX data))
                     ++ Py.times "I"%char (len (data_INT_IDX data))) ] ->
              for_ (dims_SOC_DIM data) (soc_block tb h data x) (nrows, 0) w1
              = (append_calls h cs w1, Ok st)) ->
  cold_load tb data c A b nE nL nrows w
  = ({| problems :=
          problems w
          ++ [[ xpress.loadproblem "CVXproblem"
                  (Py.times "E"%char nE ++ Py.times "L"%char nL)
                  b c mstart (scipy.indices A) (scipy.data A)
                  (Py.times xpress.minus_infinity (len c))
                  (Py.times xpress.infinity (len c));
                xpress.chgcoltype
                  (data_BOOL_IDX data ++ data_INT_IDX data)
                  (Py.times "B"%char (len (data_BOOL_IDX data))
                   ++ Py.times "I"%char (len (data_INT_IDX data))) ]
              ++ cs
              ++ [ xpress.setObjective
                     (xpress.Sum (map (objective_term c) (range (len c)))) ]];
        prob_ := Some h;
        prev_result := prev_result w |},
     Ok h).
Proof.
  cbv zeta. intros Hm Hloop. unfold cold_load.
  rewrite bind_new_problem, bind_set_prob. cbn [problems prob_ prev_result].
  set (h := length (problems w)).
  set (w1 := {| problems := problems w ++ [[]]; prob_ := Some h;
                prev_result := prev_result w |}).
  assert (h < length (problems w1))%nat as Hh
    by (unfold w1, h; simpl; rewrite length_app; simpl; lia).
  rewrite Hm. run_calls.
  rewrite problem_at_append by done.
  assert (problem_at w1 h = []) as Hp.
  { unfold problem_at, w1, h. simpl. by rewrite list_lookup_middle. }
  rewrite Hp. cbn [app].
  assert (xpress.getVariable
            [xpress.loadproblem "CVXproblem"
               (Py.times "E"%char nE ++ Py.times "L"%char nL)
               b c mstart (scipy.indices A) (scipy.data A)
               (Py.times xpress.minus_infinity (len c))
               (Py.times xpress.infinity (len c))]
          = map xpress.column (range (len c))) as Hx.
  { unfold xpress.getVariable, xpress.coltypes. simpl.
    unfold len at 1. by rewrite length_replicate. }
  rewrite Hx.
  unfold bind at 1. rewrite Hloop.
  2: { by rewrite length_append_calls. }
  2: { rewrite problem_at_append by done. fold h. by rewrite Hp. }
  rewrite objective_expr_eq. run_calls.
  unfold append_calls, w1. cbn [problems prob_ prev_result]. f_equal. f_equal.
  unfold h. rewrite alter_new. reflexivity.
Qed.

(** ** The loop over the cones, with auxiliary variables *)

Lemma total_cons (v : Z) (x : list Z) : total (v :: x) = v + total x.
Proof. reflexivity. Qed.

Lemma total_max_nonneg (ks : list Z) : 0 <= total (map (Z.max 0) ks).
Proof.
  induction ks as [|k ks IH]; [done|]. cbn [map]. rewrite total_cons.
  set (t := total _) in *. lia.
Qed.

Lemma take_drop_consecutive {A} (l : list A) (a b c : nat) :
  (a <= b <= c)%nat ->
  take (b - a) (drop a l) ++ take (c - b) (drop b l) = take (c - a) (drop a l).
Proof.
  intros H. replace (drop b l) with (drop (b - a) (drop a l)).
  2: { rewrite drop_drop. f_equal. lia. }
  rewrite take_take_drop. f_equal. lia.
Qed.

Lemma slice_consecutive {A} (l : list A) (a k m : Z) :
  0 <= a -> 0 <= k -> 0 <= m ->
  Py.slice l (Some a) (Some (a + k)) ++ Py.slice l (Some (a + k)) (Some (a + k + m))
  = Py.slice l (Some a) (Some (a + k + m)).
Proof.
  intros Ha Hk Hm. unfold Py.slice, slice_lo, slice_hi, slice_bound.
  destruct (Z.ltb_spec a 0); [lia|].
  destruct (Z.ltb_spec (a + k) 0); [lia|].
  destruct (Z.ltb_spec (a + k + m) 0); [lia|].
  pose proof (len_nonneg l) as Hl.
  set (n := len l) in *.
  replace (Z.to_nat (Z.min (a + k) n - Z.min a n))
    with (Z.to_nat (Z.min (a + k) n) - Z.to_nat (Z.min a n))%nat by lia.
  replace (Z.to_nat (Z.min (a + k + m) n - Z.min (a + k) n))
    with (Z.to_nat (Z.min (a + k + m) n) - Z.to_nat (Z.min (a + k) n))%nat by lia.
  replace (Z.to_nat (Z.min (a + k + m) n - Z.min a n))
    with (Z.to_nat (Z.min (a + k + m) n) - Z.to_nat (Z.min a n))%nat by lia.
  apply take_drop_consecutive. lia.
Qed.

Lemma length_new_cone_variables (iCone k : Z) :
  length (new_cone_variables iCone k) = Z.to_nat k.
Proof.
  unfold new_cone_variables. rewrite length_map.
  pose proof (len_range k) as H. unfold len in H. lia.
Qed.

(** The calls of the loop over the cones, and what they add to the problem:
    a continuous column for every row of a cone, a row for each of them, one
    more row for every cone of more than one row, and the right-hand sides
    of the rows of the cones in their order. *)
Lemma auxiliary_blocks (h : nat) (data : problem_data) (x : list xpress.var)
  (ks : list Z) :
  forall (currow iCone : Z) (p0 : xpress.problem),
  exists cs,
    (forall w, (h < length (problems w))%nat -> problem_at w h = p0 ->
               for_ ks (soc_block false h data x) (currow, iCone) w
               = (append_calls h cs w, Ok (currow + total ks, iCone + len ks)))
    /\ (ks = [] -> cs = [])
    /\ (forall ts, foldl xpress.coltypes_after ts cs
                   = ts ++ replicate (Z.to_nat (total (map (Z.max 0) ks))) "C"%char)
    /\ (forall r, foldl xpress.rows_after r cs
                  = r + total (map (Z.max 0) ks)
                    + len (filter (fun k => 1 < k) ks))
    /\ (0 <= currow -> Forall (fun k => 0 <= k) ks ->
        concat (map rhs_passed cs)
        = Py.slice (data_B data) (Some currow) (Some (currow + total ks))).
Proof.
  induction ks as [|k ks IH]; intros currow iCone p0.
  - exists []. split; [|split; [|split; [|split]]].
    + intros w _ _. rewrite append_calls_nil. simpl. unfold ret.
      do 2 f_equal. f_equal; unfold total, len; simpl; lia.
    + done.
    + intros ts. simpl. by rewrite app_nil_r.
    + intros r. unfold total, len. simpl. lia.
    + intros Hc _. unfold total. simpl. rewrite Z.add_0_r.
      unfold Py.slice, slice_lo, slice_hi. rewrite Z.sub_diag. done.
  - set (A := tocsr (getrows (data_A data) (Some currow) (Some (currow + k)))).
    set (b := Py.slice (data_B data) (Some currow) (Some (currow + k))).
    assert (exists mstart cone, forall w,
               (h < length (problems w))%nat -> problem_at w h = p0 ->
               soc_block false h data x (currow, iCone) k w
               = (append_calls h
                    ([ xpress.addVariable (new_cone_variables iCone k);
                       xpress.addrows (Py.times "E"%char k) b mstart
                         (scipy.indices A) (scipy.data A);
                       xpress.chgmcoef
                         (map (fun i => xpress.by_index (xpress.rows p0 + i))
                              (range k))
                         (map xpress.by_object (new_cone_variables iCone k))
                         (Py.times 1 k) ]
                     ++ (if 1 <? k then [xpress.addConstraint cone] else []))
                    w,
                  Ok (currow + k, iCone + 1))) as (mstart & cone & Hblock).
    { destruct (makeMstart_rows_Ok A k (cone_block_rows _ _ _)) as [mstart Hm].
      exists mstart.
      exists (match cone_constraint (new_cone_variables iCone k) iCone k with
              | Ok c => c
              | Raise _ => {| xpress.c_lhs := xpress.const 0;
                              xpress.c_rhs := xpress.const 0;
                              xpress.c_name := None |}
              end).
      intros w Hh Hp.
      unfold soc_block, auxiliary_variables. cbn [fst snd].
      run_calls. rewrite problem_at_append, rows_app, Hp by done.
      cbn [foldl xpress.rows_after]. fold A. rewrite Hm. run_calls.
      destruct (Z.ltb_spec 1 k) as [Hk1|Hk1].
      - rewrite cone_constraint_eq by lia. run_calls. reflexivity.
      - run_calls. reflexivity. }
    set (cs1 := [ xpress.addVariable (new_cone_variables iCone k);
                  xpress.addrows (Py.times "E"%char k) b mstart
                    (scipy.indices A) (scipy.data A);
                  xpress.chgmcoef
                    (map (fun i => xpress.by_index (xpress.rows p0 + i)) (range k))
                    (map xpress.by_object (new_cone_variables iCone k))
                    (Py.times 1 k) ]
                ++ (if 1 <? k then [xpress.addConstraint cone] else [])) in *.
    destruct (IH (currow + k) (iCone + 1) (p0 ++ cs1))
      as (cs2 & Hloop & _ & Hcol & Hrow & Hrhs).
    exists (cs1 ++ cs2). split; [|split; [|split; [|split]]].
    + intros w Hh Hp. cbn [for_]. unfold bind at 1. rewrite (Hblock w Hh Hp).
      rewrite Hloop.
      * rewrite append_calls_app. do 2 f_equal.
        f_equal; rewrite ?total_cons; unfold len; simpl length; lia.
      * by rewrite length_append_calls.
      * by rewrite problem_at_append, Hp.
    + done.
    + intros ts. rewrite foldl_app, Hcol.
      assert (foldl xpress.coltypes_after ts cs1
              = ts ++ replicate (Z.to_nat k) "C"%char) as ->.
      { unfold cs1. destruct (1 <? k); simpl;
          by rewrite length_new_cone_variables. }
      rewrite <- app_assoc, <- replicate_add. do 2 f_equal.
      cbn [map]. rewrite total_cons.
      pose proof (total_max_nonneg ks). set (t := total (map (Z.max 0) ks)) in *. lia.
    + intros r. rewrite foldl_app, Hrow.
      assert (foldl xpress.rows_after r cs1
              = r + Z.max 0 k + (if 1 <? k then 1 else 0)) as ->.
      { unfold cs1. destruct (1 <? k); simpl; rewrite len_times; lia. }
      cbn [map]. rewrite total_cons, filter_cons.
      set (t := total (map (Z.max 0) ks)).
      destruct (Z.ltb_spec 1 k); destruct (decide (1 < k)); try lia;
        unfold len; simpl length; lia.
    + intros Hc Hks. inversion Hks as [|? ? Hk Hks']; subst.
      rewrite map_app, concat_app, Hrhs by (done || lia).
      assert (concat (map rhs_passed cs1) = b) as ->.
      { unfold cs1. destruct (1 <? k); simpl; by rewrite app_nil_r. }
      rewrite total_cons. unfold b.
      assert (0 <= total ks) as Ht.
      { clear -Hks'. induction Hks' as [|k' ks' Hk' _ IH']; [done|].
        rewrite total_cons. lia. }
      rewrite Z.add_assoc. by apply slice_consecutive.
Qed.

(** The load phase of a cold load with auxiliary variables. *)
Lemma load_auxiliary (cp : canonical) (ws : bool) (w : world) :
  let data := problem_data_of cp in
  let c := data_C data in
  let nrows := dims_EQ_DIM data + dims_LEQ_DIM data in
  let b := Py.slice (data_B data) None (Some nrows) in
  let A := getrows (data_A data) None (Some nrows) in
  let ks := dims_SOC_DIM data in
  let h := length (problems w) in
  previous ws (prev_result w) data = None ->
  Forall (fun e => 0 <= e_col e) (sp_entries (data_A data)) ->
  exists mstart cs,
    makeMstart A (len c) 1 = Ok mstart
    /\ load false cp ws w
       = ({| problems :=
               problems w
               ++ [[ xpress.loadproblem "CVXproblem"
                       (Py.times "E"%char (dims_EQ_DIM data)
                        ++ Py.times "L"%char (dims_LEQ_DIM data))
                       b c mstart (scipy.indices A) (scipy.data A)
                       (Py.times xpress.minus_infinity (len c))
                       (Py.times xpress.infinity (len c));
                     xpress.chgcoltype
                       (data_BOOL_IDX data ++ data_INT_IDX data)
                       (Py.times "B"%char (len (data_BOOL_IDX data))
                        ++ Py.times "I"%char (len (data_INT_IDX data))) ]
                   ++ cs
                   ++ [ xpress.setObjective
                          (xpress.Sum (map (objective_term c) (range (len c)))) ]];
             prob_ := Some h;
             prev_result := prev_result w |},
          Ok h)
    /\ (ks = [] -> cs = [])
    /\ (forall ts, foldl xpress.coltypes_after ts cs
                   = ts ++ replicate (Z.to_nat (total (map (Z.max 0) ks))) "C"%char)
    /\ (forall r, foldl xpress.rows_after r cs
                  = r + total (map (Z.max 0) ks)
                    + len (filter (fun k => 1 < k) ks))
    /\ (0 <= nrows -> Forall (fun k => 0 <= k) ks ->
        concat (map rhs_passed cs)
        = Py.slice (data_B data) (Some nrows) (Some (nrows + total ks))).
Proof.
  cbv zeta. intros Hp Hcols.
  set (data := problem_data_of cp). fold data in Hp, Hcols.
  set (nrows := dims_EQ_DIM data + dims_LEQ_DIM data).
  set (A := getrows (data_A data) None (Some nrows)).
  destruct (makeMstart_columns_Ok A (len (data_C data))) as [mstart Hm].
  { by apply (getrows_columns (fun v => 0 <= v)). }
  set (x := map xpress.column (range (len (data_C data)))).
  set (p0 := [ xpress.loadproblem "CVXproblem"
                 (Py.times "E"%char (dims_EQ_DIM data)
                  ++ Py.times "L"%char (dims_LEQ_DIM data))
                 (Py.slice (data_B data) None (Some nrows)) (data_C data) mstart
                 (scipy.indices A) (scipy.data A)
                 (Py.times xpress.minus_infinity (len (data_C data)))
                 (Py.times xpress.infinity (len (data_C data)));
               xpress.chgcoltype
                 (data_BOOL_IDX data ++ data_INT_IDX data)
                 (Py.times "B"%char (len (data_BOOL_IDX data))
                  ++ Py.times "I"%char (len (data_INT_IDX data))) ]).
  destruct (auxiliary_blocks (length (problems w)) data x (dims_SOC_DIM data)
              nrows 0 p0) as (cs & Hloop & Hnil & Hcol & Hrow & Hrhs).
  exists mstart, cs.
  split; [exact Hm|]. split; [|done].
  pose proof (load_eq false cp ws w) as E. cbv zeta in E.
  fold data in E. rewrite Hp in E. rewrite E.
  apply (cold_load_calls false data (data_C data) A _ _ _ nrows w mstart cs
           (nrows + total (dims_SOC_DIM data), 0 + len (dims_SOC_DIM data)) Hm).
  intros w1 Hh Hp1. by apply Hloop.
Qed.

(** ** The problem that a cold solve leaves *)

Lemma solve_after_load lib tb cp ws verbose opts (w : world)
  (log : list xpress.call) :
  load tb cp ws w
  = ({| problems := problems w ++ [log];
        prob_ := Some (length (problems w));
        prev_result := prev_result w |},
     Ok (length (problems w))) ->
  problems (solve lib tb cp ws verbose opts w).1
  = problems w
    ++ [log ++ verbose_controls ++ option_calls lib opts ++ [xpress.solve]].
Proof.
  intros Hl. rewrite solve_eq, Hl, problems_run, call_eq. cbn [fst].
  rewrite append_calls_app. unfold append_calls. cbn [problems].
  rewrite alter_new. by rewrite <- !app_assoc.
Qed.

Lemma problem_at_new (w : world) (ps : list xpress.problem) (p : xpress.problem) :
  problems w = ps ++ [p] -> problem_at w (length ps) = p.
Proof.
  intros H. unfold problem_at. by rewrite H, list_lookup_middle.
Qed.

(** A cold solve of a problem without cones: the problem object that it
    creates receives [loadproblem] with the linear rows, [chgcoltype] for
    the boolean and the integer variables, [setObjective] with the sum of
    the terms [c[i] * x[i]], the three logging controls, the options and
    [solve], in this order, and no other call; the problems that existed
    stay as they are. *)
Theorem cold_solve_linear lib tb cp ws verbose opts (w : world) :
  let data := problem_data_of cp in
  let c := data_C data in
  let nrows := dims_EQ_DIM data + dims_LEQ_DIM data in
  let b := Py.slice (data_B data) None (Some nrows) in
  let A := getrows (data_A data) None (Some nrows) in
  previous ws (prev_result w) data = None ->
  dims_SOC_DIM data = [] ->
  Forall (fun e => 0 <= e_col e) (sp_entries (data_A data)) ->
  exists mstart,
    makeMstart A (len c) 1 = Ok mstart
    /\ problems (solve lib tb cp ws verbose opts w).1
       = problems w
         ++ [[ xpress.loadproblem "CVXproblem"
                 (Py.times "E"%char (dims_EQ_DIM data)
                  ++ Py.times "L"%char (dims_LEQ_DIM data))
                 b c mstart (scipy.indices A) (scipy.data A)
                 (Py.times xpress.minus_infinity (len c))
                 (Py.times xpress.infinity (len c));
               xpress.chgcoltype
                 (data_BOOL_IDX data ++ data_INT_IDX data)
                 (Py.times "B"%char (len (data_BOOL_IDX data))
                  ++ Py.times "I"%char (len (data_INT_IDX data)));
               xpress.setObjective
                 (xpress.Sum (map (objective_term c) (range (len c))));
               xpress.set_control "miplog" 2;
               xpress.set_control "lplog" 1;
               xpress.set_control "outputlog" 1 ]
             ++ option_calls lib opts ++ [xpress.solve]].
Proof.
  cbv zeta. intros Hp Hks Hcols.
  set (data := problem_data_of cp) in *.
  set (nrows := dims_EQ_DIM data + dims_LEQ_DIM data).
  set (A := getrows (data_A data) None (Some nrows)).
  destruct (makeMstart_columns_Ok A (len (data_C data))) as [mstart Hm].
  { by apply (getrows_columns (fun v => 0 <= v)). }
  exists mstart. split; [exact Hm|].
  pose proof (load_eq tb cp ws w) as E. cbv zeta in E.
  fold data in E. rewrite Hp in E.
  rewrite (cold_load_calls tb data (data_C data) A _ _ _ nrows w mstart []
             (nrows, 0) Hm) in E.
  2: { intros w1 _ _. rewrite Hks, append_calls_nil. reflexivity. }
  rewrite (solve_after_load lib tb cp ws verbose opts w _ E). reflexivity.
Qed.

Lemma tail_calls_keep (lib : xpress.library)
  (opts : list (string * xpress.optvalue)) (e : xpress.expr) :
  let rest := [xpress.setObjective e] ++ verbose_controls
              ++ option_calls lib opts ++ [xpress.solve] in
  (forall ts, foldl xpress.coltypes_after ts rest = ts)
  /\ (forall r, foldl xpress.rows_after r rest = r)
  /\ concat (map rhs_passed rest) = [].
Proof.
  cbv zeta. unfold option_calls, verbose_controls.
  destruct (opts_get opts "solver_opts"); repeat split; intros; reflexivity.
Qed.

Lemma length_set_coltypes (ts : list ascii) (mindex : list Z) (qctype : list ascii) :
  length (xpress.set_coltypes ts mindex qctype) = length ts.
Proof.
  unfold xpress.set_coltypes. generalize (zip mindex qctype). intros l.
  revert ts. induction l as [|[i t] l IH]; intros ts; [done|].
  simpl. rewrite IH. destruct (i <? 0); [done|]. apply length_insert.
Qed.

(** The problem that a cold solve with auxiliary variables leaves. *)
Lemma cold_solve_auxiliary lib (cp : canonical) (ws verbose : bool)
  (opts : list (string * xpress.optvalue)) (w : world) :
  let data := problem_data_of cp in
  let c := data_C data in
  let nrows := dims_EQ_DIM data + dims_LEQ_DIM data in
  let b := Py.slice (data_B data) None (Some nrows) in
  let A := getrows (data_A data) None (Some nrows) in
  let ks := dims_SOC_DIM data in
  let h := length (problems w) in
  previous ws (prev_result w) data = None ->
  Forall (fun e => 0 <= e_col e) (sp_entries (data_A data)) ->
  exists mstart cs,
    let load_log :=
      [ xpress.loadproblem "CVXproblem"
          (Py.times "E"%char (dims_EQ_DIM data)
           ++ Py.times "L"%char (dims_LEQ_DIM data))
          b c mstart (scipy.indices A) (scipy.data A)
          (Py.times xpress.minus_infinity (len c))
          (Py.times xpress.infinity (len c));
        xpress.chgcoltype
          (data_BOOL_IDX data ++ data_INT_IDX data)
          (Py.times "B"%char (len (data_BOOL_IDX data))
           ++ Py.times "I"%char (len (data_INT_IDX data))) ]
      ++ cs
      ++ [ xpress.setObjective
             (xpress.Sum (map (objective_term c) (range (len c)))) ] in
    let log := load_log ++ verbose_controls ++ option_calls lib opts
               ++ [xpress.solve] in
    load false cp ws w
    = ({| problems := problems w ++ [load_log];
          prob_ := Some h;
          prev_result := prev_result w |},
       Ok h)
    /\ problems (solve lib false cp ws verbose opts w).1 = problems w ++ [log]
    /\ xpress.coltypes log
       = xpress.set_coltypes (replicate (length c) "C"%char)
           (data_BOOL_IDX data ++ data_INT_IDX data)
           (Py.times "B"%char (len (data_BOOL_IDX data))
            ++ Py.times "I"%char (len (data_INT_IDX data)))
         ++ replicate (Z.to_nat (total (map (Z.max 0) ks))) "C"%char
    /\ xpress.rows log
       = len (Py.times "E"%char (dims_EQ_DIM data)
              ++ Py.times "L"%char (dims_LEQ_DIM data))
         + total (map (Z.max 0) ks) + len (filter (fun k => 1 < k) ks)
    /\ (0 <= nrows -> Forall (fun k => 0 <= k) ks ->
        concat (map rhs_passed log)
        = b ++ Py.slice (data_B data) (Some nrows) (Some (nrows + total ks))).
Proof.
  cbv zeta. intros Hp Hcols.
  destruct (load_auxiliary cp ws w Hp Hcols)
    as (mstart & cs & Hm & Hl & _ & Hcol & Hrow & Hrhs).
  exists mstart, cs.
  destruct (tail_calls_keep lib opts
              (xpress.Sum (map (objective_term (data_C (problem_data_of cp)))
                               (range (len (data_C (problem_data_of cp)))))))
    as (Kcol & Krow & Krhs).
  split; [exact Hl|]. split; [|split; [|split]].
  - by rewrite (solve_after_load lib false cp ws verbose opts w _ Hl).
  - rewrite <- !app_assoc. rewrite coltypes_app.
    by rewrite foldl_app, Hcol, Kcol.
  - rewrite <- !app_assoc. rewrite rows_app.
    by rewrite foldl_app, Hrow, Krow.
  - intros Hn Hks. rewrite <- !app_assoc.
    rewrite (map_app _ [_; _]), concat_app, (map_app _ cs), concat_app.
    rewrite Hrhs, Krhs, app_nil_r by done. f_equal. simpl. apply app_nil_r.
Qed.

Lemma total_max_id (ks : list Z) :
  Forall (fun k => 0 <= k) ks -> total (map (Z.max 0) ks) = total ks.
Proof.
  induction 1 as [|k ks Hk _ IH]; [done|]. cbn [map].
  rewrite !total_cons, IH. lia.
Qed.

Lemma total_nonneg (ks : list Z) : Forall (fun k => 0 <= k) ks -> 0 <= total ks.
Proof.
  induction 1 as [|k ks Hk _ IH]; [done|]. rewrite total_cons. lia.
Qed.

Lemma slice_from_start {A} (l : list A) (hi : option Z) :
  Py.slice l None hi = Py.slice l (Some 0) hi.
Proof.
  unfold Py.slice, slice_lo, slice_bound. simpl.
  pose proof (len_nonneg l). by rewrite Z.min_l by lia.
Qed.

(** The size of the problem that a cold solve with auxiliary variables
    builds, for cones of the sizes [ks]: the columns are the variables of
    the problem and one more for every row of a cone, all of these
    continuous; the rows are the equality and inequality rows, one row for
    every row of a cone, and one more for every cone of more than one
    row. *)
Theorem cold_solve_dimensions lib (cp : canonical) (ws verbose : bool)
  (opts : list (string * xpress.optvalue)) (w : world) :
  let data := problem_data_of cp in
  let ks := dims_SOC_DIM data in
  let n := len (data_C data) in
  let p := problem_at (solve lib false cp ws verbose opts w).1
             (length (problems w)) in
  previous ws (prev_result w) data = None ->
  Forall (fun e => 0 <= e_col e) (sp_entries (data_A data)) ->
  0 <= dims_EQ_DIM data -> 0 <= dims_LEQ_DIM data ->
  Forall (fun k => 0 <= k) ks ->
  len (xpress.coltypes p) = n + total ks
  /\ drop (Z.to_nat n) (xpress.coltypes p)
     = replicate (Z.to_nat (total ks)) "C"%char
  /\ xpress.rows p
     = dims_EQ_DIM data + dims_LEQ_DIM data + total ks
       + len (filter (fun k => 1 < k) ks).
Proof.
  cbv zeta. intros Hp Hcols HE HL Hks.
  destruct (cold_solve_auxiliary lib cp ws verbose opts w Hp Hcols)
    as (mstart & cs & _ & Hs & Hcol & Hrow & _).
  cbv zeta in Hs, Hcol, Hrow.
  rewrite (problem_at_new _ _ _ Hs), Hcol, Hrow.
  rewrite (total_max_id _ Hks). pose proof (total_nonneg _ Hks) as Ht.
  split; [|split].
  - unfold len. rewrite length_app, length_set_coltypes, !length_replicate. lia.
  - rewrite drop_app_length'; [done|].
    rewrite length_set_coltypes, length_replicate. unfold len. lia.
  - rewrite len_app, !len_times. lia.
Qed.

(** A cold solve with auxiliary variables passes every right-hand side
    once: when [data[s.B]] holds the equality and inequality rows and then
    the rows of the cones, the right-hand sides that [loadproblem] and the
    calls of [addrows] receive are, one after the other, [data[s.B]]. *)
Theorem right_hand_sides_passed_once lib (cp : canonical) (ws verbose : bool)
  (opts : list (string * xpress.optvalue)) (w : world) :
  let data := problem_data_of cp in
  let ks := dims_SOC_DIM data in
  let nrows := dims_EQ_DIM data + dims_LEQ_DIM data in
  let p := problem_at (solve lib false cp ws verbose opts w).1
             (length (problems w)) in
  previous ws (prev_result w) data = None ->
  Forall (fun e => 0 <= e_col e) (sp_entries (data_A data)) ->
  0 <= nrows ->
  Forall (fun k => 0 <= k) ks ->
  nrows + total ks = len (data_B data) ->
  concat (map rhs_passed p) = data_B data.
Proof.
  cbv zeta. intros Hp Hcols Hn Hks Hlen.
  destruct (cold_solve_auxiliary lib cp ws verbose opts w Hp Hcols)
    as (mstart & cs & _ & Hs & _ & _ & Hrhs).
  cbv zeta in Hs, Hrhs.
  rewrite (problem_at_new _ _ _ Hs), Hrhs by done.
  rewrite slice_from_start.
  pose proof (total_nonneg _ Hks) as Ht.
  pose proof (slice_consecutive (data_B (problem_data_of cp)) 0
                (dims_EQ_DIM (problem_data_of cp) + dims_LEQ_DIM (problem_data_of cp))
                (total (dims_SOC_DIM (problem_data_of cp)))
                ltac:(lia) Hn Ht) as E.
  rewrite !Z.add_0_l in E. rewrite E, Hlen, <- slice_from_start.
  apply slice_all.
Qed.

(** ** The variable types of a cold load *)

Lemma zip_types (bools ints : list Z) (tb ti : ascii) :
  zip (bools ++ ints)
      (replicate (length bools) tb ++ replicate (length ints) ti)
  = map (fun i => (i, tb)) bools ++ map (fun i => (i, ti)) ints.
Proof.
  induction bools as [|i bools IH]; simpl.
  - induction ints as [|i ints IH]; simpl; [done|]. by rewrite IH.
  - by rewrite IH.
Qed.

Lemma foldl_set_type (t : ascii) (idx : list Z) :
  forall (ts : list ascii) (j : nat),
    (j < length ts)%nat ->
    foldl (fun ts (it : Z * ascii) =>
             if it.1 <? 0 then ts else <[Z.to_nat it.1 := it.2]> ts)
          ts (map (fun i => (i, t)) idx) !! j
    = if bool_decide (Z.of_nat j ∈ idx) then Some t else ts !! j.
Proof.
  induction idx as [|i idx IH]; intros ts j Hj.
  - cbn [map foldl]. rewrite bool_decide_eq_false_2; [done|]. apply not_elem_of_nil.
  - cbn [map foldl fst snd]. rewrite IH.
    2: { destruct (i <? 0); [done|]. by rewrite length_insert. }
    destruct (decide (Z.of_nat j ∈ idx)) as [Hin|Hin].
    + rewrite !bool_decide_eq_true_2; [done| |done]. by apply list_elem_of_further.
    + rewrite (bool_decide_eq_false_2 _ Hin).
      destruct (Z.ltb_spec i 0) as [Hneg|Hpos].
      * rewrite bool_decide_eq_false_2; [done|].
        intros H. apply elem_of_cons in H as [H|H]; [lia|done].
      * destruct (decide (Z.to_nat i = j)) as [<-|Hne].
        -- rewrite list_lookup_insert_eq by done.
           rewrite bool_decide_eq_true_2; [done|].
           rewrite Z2Nat.id by done. apply list_elem_of_here.
        -- rewrite list_lookup_insert_ne by done.
           rewrite bool_decide_eq_false_2; [done|].
           intros H. apply elem_of_cons in H as [H|H]; [lia|done].
Qed.

(** The types of the columns after [chgcoltype] on the boolean and the
    integer variables of a problem loaded with [n] columns. *)
Lemma coltypes_lookup (n : nat) (bools ints : list Z) (j : nat) :
  (j < n)%nat ->
  xpress.set_coltypes (replicate n "C"%char) (bools ++ ints)
    (Py.times "B"%char (len bools) ++ Py.times "I"%char (len ints)) !! j
  = Some (if bool_decide (Z.of_nat j ∈ ints) then "I"%char
          else if bool_decide (Z.of_nat j ∈ bools) then "B"%char
          else "C"%char).
Proof.
  intros Hj. unfold xpress.set_coltypes, Py.times, len.
  rewrite !Nat2Z.id, zip_types, foldl_app.
  rewrite foldl_set_type.
  2: { assert (forall l (ts : list ascii),
                 length (foldl (fun ts (it : Z * ascii) =>
                                  if it.1 <? 0 then ts
                                  else <[Z.to_nat it.1 := it.2]> ts) ts l)
                 = length ts) as Hlen.
       { induction l as [|[i t] l IH]; intros ts; [done|]. simpl.
         rewrite IH. destruct (i <? 0); [done|]. apply length_insert. }
       by rewrite Hlen, length_replicate. }
  destruct (bool_decide (Z.of_nat j ∈ ints)); [done|].
  rewrite foldl_set_type by (by rewrite length_replicate).
  destruct (bool_decide (Z.of_nat j ∈ bools)); [done|].
  by rewrite lookup_replicate_2.
Qed.

(** ** A cold solve, from the data to the result *)

Lemma cold_solve_run lib (cp : canonical) (ws verbose : bool)
  (opts : list (string * xpress.optvalue)) (w : world) :
  let data := problem_data_of cp in
  let h := length (problems w) in
  let vartypes :=
    xpress.set_coltypes (replicate (length (data_C data)) "C"%char)
      (data_BOOL_IDX data ++ data_INT_IDX data)
      (Py.times "B"%char (len (data_BOOL_IDX data))
       ++ Py.times "I"%char (len (data_INT_IDX data))) in
  previous ws (prev_result w) data = None ->
  Forall (fun e => 0 <= e_col e) (sp_entries (data_A data)) ->
  1 <= len (data_C data) ->
  exists w2,
    solve lib false cp ws verbose opts w = run lib h data w2
    /\ problems (solve lib false cp ws verbose opts w).1
       = problems (append_calls h [xpress.solve] w2)
    /\ xpress.getcoltype (problem_at (append_calls h [xpress.solve] w2) h) 0
         (len (data_C data) - 1)
       = Ok vartypes.
Proof.
  cbv zeta. intros Hp Hcols Hn.
  destruct (cold_solve_auxiliary lib cp ws verbose opts w Hp Hcols)
    as (mstart & cs & Hl & Hs & Hcol & _).
  cbv zeta in Hl, Hs, Hcol.
  set (data := problem_data_of cp) in *.
  set (h := length (problems w)) in *.
  match type of Hs with _ = _ ++ [?l] => set (log := l) in * end.
  assert (problem_at (solve lib false cp ws verbose opts w).1 h = log) as Hlog
    by (by apply problem_at_new).
  pose proof (solve_eq lib false cp ws verbose opts w) as E. rewrite Hl in E.
  match type of E with _ = run _ _ _ ?w2' => set (w2 := w2') in * end.
  assert (problems (solve lib false cp ws verbose opts w).1
          = problems (append_calls h [xpress.solve] w2)) as Hps.
  { rewrite E, problems_run, call_eq. reflexivity. }
  exists w2. split; [exact E|]. split; [exact Hps|].
  assert (problem_at (append_calls h [xpress.solve] w2) h = log) as ->.
  { rewrite <- Hlog. unfold problem_at. by rewrite Hps. }
  unfold xpress.getcoltype. rewrite Hcol.
  match goal with |- context [?sc ++ replicate ?m "C"%char] =>
    set (types := sc); set (aux := replicate m "C"%char) end.
  assert (length types = length (data_C data)) as Hlen
    by (unfold types; by rewrite length_set_coltypes, length_replicate).
  assert ((0 <=? 0) = true) as -> by done.
  destruct (Z.leb_spec 0 (len (data_C data) - 1)); [|lia].
  destruct (Z.ltb_spec (len (data_C data) - 1) (len (types ++ aux))) as [_|Hge].
  2: { unfold len in *. rewrite length_app in Hge. lia. }
  cbn [andb]. f_equal. change (Z.to_nat 0) with 0%nat. rewrite drop_0.
  replace (Z.to_nat (len (data_C data) - 1 - 0 + 1)) with (length types)
    by (unfold len; lia).
  by rewrite take_app_length.
Qed.

Lemma translate_Ok (data : problem_data) (status : Z) (st : string) :
  translate_status data status = Ok st -> (status, st) ∈ status_map data.
Proof.
  unfold translate_status. intros H.
  destruct (dict_get_spec (status_map data) status) as [(v & Hv & Hin)|[Hr _]];
    congruence.
Qed.

Ltac table_entry H :=
  unfold status_map in H;
  destruct (is_mip _);
  unfold status_map_mip, status_map_lp, s.OPTIMAL, s.INFEASIBLE, s.UNBOUNDED,
    s.SOLVER_ERROR in H;
  repeat (apply elem_of_cons in H as [H|H]; [by inversion H|]);
  by apply elem_of_nil in H.

Lemma translate_optimal (data : problem_data) (status : Z) :
  translate_status data status = Ok s.OPTIMAL
  <-> status = (if is_mip data then xpress.mip_optimal else xpress.lp_optimal).
Proof.
  split.
  - intros H. apply translate_Ok in H. table_entry H.
  - intros ->. unfold translate_status, status_map. by destruct (is_mip data).
Qed.

Lemma translate_infeasible (data : problem_data) (status : Z) :
  translate_status data status = Ok s.INFEASIBLE
  <-> status = (if is_mip data then xpress.mip_infeas else xpress.lp_infeas).
Proof.
  split.
  - intros H. apply translate_Ok in H. table_entry H.
  - intros ->. unfold translate_status, status_map. by destruct (is_mip data).
Qed.

Lemma translate_Raise (data : problem_data) (status : Z) (e : exn) :
  translate_status data status = Raise e -> e = KeyError.
Proof.
  unfold translate_status. induction (status_map data) as [|[k v] d IH]; simpl.
  - by intros [= <-].
  - destruct (status =? k); [done|exact IH].
Qed.

(** A cold solve with auxiliary variables, from the data to the result.
    The load phase returns whenever no stored entry has a negative column;
    with at least one variable the variable types are read back, and the
    answer of the optimizer decides alone: for the optimal status the
    result holds the solution, the objective value and, unless the problem
    is mixed-integer, the duals; for the infeasible status it holds the
    evidence [1] and no value; for every other status, in the table or not,
    the call raises [KeyError]. *)
Theorem cold_solve_reports lib (cp : canonical) (ws verbose : bool)
  (opts : list (string * xpress.optvalue)) (w : world) (o : xpress.outcome) :
  let data := problem_data_of cp in
  let h := length (problems w) in
  let optimal := if is_mip data then xpress.mip_optimal else xpress.lp_optimal in
  let infeasible := if is_mip data then xpress.mip_infeas else xpress.lp_infeas in
  previous ws (prev_result w) data = None ->
  Forall (fun e => 0 <= e_col e) (sp_entries (data_A data)) ->
  1 <= len (data_C data) ->
  xpress.optimize lib
    (problem_at (solve lib false cp ws verbose opts w).1 h) = Ok o ->
  (xpress.ProbStatus o = optimal ->
   (solve lib false cp ws verbose opts w).2
   = Ok {| STATUS := Some s.OPTIMAL;
           PRIMAL := Some (xpress.Solution o);
           VALUE := Some (xpress.ObjVal o);
           EQ_DUAL := if is_mip data then None else Some (xpress.Dual o);
           IIS := Some PyNone |})
  /\ (xpress.ProbStatus o = infeasible ->
      (solve lib false cp ws verbose opts w).2
      = Ok {| STATUS := Some s.INFEASIBLE; PRIMAL := None; VALUE := None;
              EQ_DUAL := None; IIS := Some (PyInt 1) |})
  /\ (xpress.ProbStatus o <> optimal -> xpress.ProbStatus o <> infeasible ->
      (solve lib false cp ws verbose opts w).2 = Raise KeyError).
Proof.
  cbv zeta. intros Hp Hcols Hn Ho.
  destruct (cold_solve_run lib cp ws verbose opts w Hp Hcols Hn)
    as (w2 & E & Hps & Hg).
  set (data := problem_data_of cp) in *.
  set (h := length (problems w)) in *.
  assert (xpress.optimize lib (problem_at (append_calls h [xpress.solve] w2) h)
          = Ok o) as Ho2.
  { rewrite <- Ho. unfold problem_at. by rewrite Hps. }
  split; [|split].
  - intros Hst. apply translate_optimal in Hst.
    rewrite E, (run_reported lib h data w2 o _ _ Ho2 Hst Hg). reflexivity.
  - intros Hst. apply translate_infeasible in Hst.
    rewrite E, (run_reported lib h data w2 o _ _ Ho2 Hst Hg). reflexivity.
  - intros Hopt Hinf.
    destruct (translate_status data (xpress.ProbStatus o)) as [st|e] eqn:Hst.
    + rewrite E, (run_reported lib h data w2 o _ _ Ho2 Hst Hg). cbn [snd].
      pose proof (status_map_values data) as Hv.
      assert (st <> s.OPTIMAL) as H1
        by (intros ->; by apply translate_optimal in Hst).
      assert (st <> s.INFEASIBLE) as H2
        by (intros ->; by apply translate_infeasible in Hst).
      assert (st = s.UNBOUNDED \/ st = s.SOLVER_ERROR) as [-> | ->];
        [|reflexivity|reflexivity].
      apply translate_Ok in Hst.
      rewrite Forall_forall in Hv. specialize (Hv _ Hst). cbn [snd] in Hv.
      repeat (apply elem_of_cons in Hv as [Hv|Hv]; [tauto|]).
      by apply elem_of_nil in Hv.
    + apply translate_Raise in Hst as Hk. subst e.
      rewrite E, run_eq. cbv zeta. rewrite call_eq. cbn [fst].
      by rewrite Ho2, Hst.
Qed.

(** The variable types that a cold solve caches.  Once the optimizer has
    answered with a status of the table, the cache entry holds the problem
    created, the data, and the types read back for the variables of the
    problem: ['I'] for the variables of [data[s.INT_IDX]], ['B'] for those
    of [data[s.BOOL_IDX]] that are not there as well, and ['C'] for the
    others; the columns added for the cones are not among them. *)
Theorem cached_variable_types lib (cp : canonical) (ws verbose : bool)
  (opts : list (string * xpress.optvalue)) (w : world) (o : xpress.outcome)
  (st : string) :
  let data := problem_data_of cp in
  let h := length (problems w) in
  let n := len (data_C data) in
  previous ws (prev_result w) data = None ->
  Forall (fun e => 0 <= e_col e) (sp_entries (data_A data)) ->
  1 <= n ->
  xpress.optimize lib
    (problem_at (solve lib false cp ws verbose opts w).1 h) = Ok o ->
  translate_status data (xpress.ProbStatus o) = Ok st ->
  exists vartypes,
    prev_result (solve lib false cp ws verbose opts w).1
    = Some {| prev_problem := h;
              prev_obj := data_C data;
              prev_mat := data_A data;
              prev_rhs := data_B data;
              prev_cone_ind := dims_SOC_DIM data;
              prev_vartype := vartypes |}
    /\ len vartypes = n
    /\ forall i, 0 <= i < n ->
         getitem vartypes i
         = Ok (if bool_decide (i ∈ data_INT_IDX data) then "I"%char
               else if bool_decide (i ∈ data_BOOL_IDX data) then "B"%char
               else "C"%char).
Proof.
  cbv zeta. intros Hp Hcols Hn Ho Hst.
  destruct (cold_solve_run lib cp ws verbose opts w Hp Hcols Hn)
    as (w2 & E & Hps & Hg).
  set (data := problem_data_of cp) in *.
  set (h := length (problems w)) in *.
  assert (xpress.optimize lib (problem_at (append_calls h [xpress.solve] w2) h)
          = Ok o) as Ho2.
  { rewrite <- Ho. unfold problem_at. by rewrite Hps. }
  eexists. split; [|split].
  - rewrite E, (run_reported lib h data w2 o _ _ Ho2 Hst Hg). reflexivity.
  - unfold len. by rewrite length_set_coltypes, length_replicate.
  - intros i Hi. apply getitem_Ok; [lia|].
    rewrite coltypes_lookup by (unfold len in Hi; lia).
    by rewrite Z2Nat.id by lia.
Qed.

(** ** The differences that a warm start passes on *)

Lemma where_from_bound (k : Z) (mask : list bool) :
  Forall (fun i => k <= i < k + len mask) (numpy.where_from k mask).
Proof.
  revert k. induction mask as [|m mask IH]; intros k; simpl; [constructor|].
  assert (Forall (fun i => k <= i < k + len (m :: mask))
                 (numpy.where_from (k + 1) mask)) as H.
  { eapply Forall_impl; [apply IH|]. unfold len. simpl. intros; lia. }
  destruct m; [|done]. constructor; [|done]. unfold len. simpl. lia.
Qed.

Lemma where_from_sorted (k : Z) (mask : list bool) :
  StronglySorted Z.lt (numpy.where_from k mask).
Proof.
  revert k. induction mask as [|m mask IH]; intros k; simpl; [constructor|].
  destruct m; [|apply IH]. constructor; [apply IH|].
  eapply Forall_impl; [apply where_from_bound|]. simpl. intros; lia.
Qed.

Lemma where_from_spec (k i : Z) (mask : list bool) :
  i ∈ numpy.where_from k mask
  <-> k <= i /\ mask !! Z.to_nat (i - k) = Some true.
Proof.
  revert k. induction mask as [|m mask IH]; intros k; simpl.
  - split; [by intros ?%elem_of_nil|by intros [_ ?]].
  - assert (i ∈ numpy.where_from (k + 1) mask
            <-> k + 1 <= i /\ (m :: mask) !! Z.to_nat (i - k) = Some true) as IH'.
    { rewrite IH. split; intros [H1 H2]; (split; [done|]).
      - replace (Z.to_nat (i - k)) with (S (Z.to_nat (i - (k + 1)))) by lia. done.
      - replace (Z.to_nat (i - k)) with (S (Z.to_nat (i - (k + 1)))) in H2 by lia.
        done. }
    destruct m.
    + rewrite elem_of_cons, IH'. split.
      * intros [->|[H1 H2]]; [|split; [lia|done]].
        split; [lia|]. by rewrite Z.sub_diag.
      * intros [H1 H2]. destruct (decide (i = k)) as [->|Hne]; [by left|].
        right. split; [lia|done].
    + rewrite IH'. split; intros [H1 H2]; (split; [lia|done]) || idtac.
      split; [|done]. destruct (decide (i = k)) as [->|Hne]; [|lia].
      by rewrite Z.sub_diag in H2.
Qed.

Lemma lookup_zip_with_ne (x y : list Z) (j : nat) :
  zip_with (fun a b => bool_decide (a <> b)) x y !! j = Some true
  <-> exists a b, x !! j = Some a /\ y !! j = Some b /\ a <> b.
Proof.
  rewrite lookup_zip_with_Some. split.
  - intros (a & b & Hab & Ha & Hb). exists a, b.
    split; [done|]. split; [done|]. symmetry in Hab. by apply bool_decide_eq_true in Hab.
  - intros (a & b & Ha & Hb & Hab). exists a, b.
    split; [|done]. symmetry. by apply bool_decide_eq_true.
Qed.

(** The positions at which two arrays of one length differ. *)
Lemma differences_spec (x y : list Z) (i : Z) :
  length x = length y ->
  i ∈ numpy.where_ (zip_with (fun a b => bool_decide (a <> b)) x y)
  <-> 0 <= i < len x /\ item x i <> item y i.
Proof.
  intros Hl. unfold numpy.where_. rewrite where_from_spec, Z.sub_0_r.
  rewrite lookup_zip_with_ne. unfold item, len. split.
  - intros (Hi & a & b & Ha & Hb & Hab). rewrite Ha, Hb. simpl.
    apply lookup_lt_Some in Ha. split; [lia|done].
  - intros ([Hi Hlt] & Hne). split; [done|].
    destruct (lookup_lt_is_Some_2 x (Z.to_nat i)) as [a Ha]; [lia|].
    destruct (lookup_lt_is_Some_2 y (Z.to_nat i)) as [b Hb]; [lia|].
    rewrite Ha, Hb in Hne. simpl in Hne. by exists a, b.
Qed.

Lemma take_Ok (x : list Z) (idx : list Z) :
  Forall (fun i => 0 <= i < len x) idx ->
  numpy.take_ x idx = Ok (map (item x) idx).
Proof.
  intros H. unfold numpy.take_. apply comprehension_Ok.
  intros i Hi. rewrite Forall_forall in H. by apply getitem_item, H.
Qed.

Lemma written_map (l : list Z) (f : Z -> Z) (idx : list Z) :
  written l idx (map f idx)
  = foldl (fun acc i => <[Z.to_nat i := f i]> acc) l idx.
Proof.
  unfold written. revert l. induction idx as [|i idx IH]; intros l; [done|].
  simpl. apply IH.
Qed.

Lemma foldl_ext_in {A B} (f g : A -> B -> A) (l : list B) (a : A) :
  (forall a b, b ∈ l -> f a b = g a b) -> foldl f a l = foldl g a l.
Proof.
  revert a. induction l as [|b l IH]; intros a H; [done|]. simpl.
  rewrite H by apply list_elem_of_here. apply IH.
  intros a' b' Hb'. apply H. by apply list_elem_of_further.
Qed.

(** Writing the entries of [x] at the positions where [x] and [y] differ
    turns [y] into [x]. *)
Lemma written_differences (x y : list Z) :
  length x = length y ->
  let d := numpy.where_ (zip_with (fun a b => bool_decide (a <> b)) x y) in
  written y d (map (item x) d) = x.
Proof.
  intros Hl. cbv zeta. rewrite written_map.
  assert (forall (x y p : list Z),
            length x = length y ->
            foldl (fun acc i => <[Z.to_nat i := item (p ++ x) i]> acc) (p ++ y)
              (numpy.where_from (len p)
                 (zip_with (fun a b => bool_decide (a <> b)) x y))
            = p ++ x) as H.
  { clear. induction x as [|a x IH]; intros [|b y] p Hl; simpl in Hl; try lia.
    - done.
    - assert (len p + 1 = len (p ++ [a])) as Hp
        by (unfold len; rewrite length_app; simpl; lia).
      specialize (IH y (p ++ [a]) ltac:(lia)).
      rewrite <- Hp, <- !app_assoc in IH. simpl in IH.
      cbn [zip_with numpy.where_from].
      destruct (decide (a = b)) as [->|Hab].
      + rewrite bool_decide_eq_false_2 by (by intros ?). exact IH.
      + rewrite bool_decide_eq_true_2 by done. cbn [foldl].
        assert (<[Z.to_nat (len p) := item (p ++ a :: x) (len p)]> (p ++ b :: y)
                = p ++ a :: y) as ->; [|exact IH].
        unfold item, len. rewrite Nat2Z.id, list_lookup_middle by done. simpl.
        rewrite insert_app_r_alt by lia. by rewrite Nat.sub_diag. }
  apply (H x y [] Hl).
Qed.

(** The objective of a warm start.  When the objective has a parameter and
    as many coefficients as the cached one, [chgobj] is called once, with
    the positions at which the coefficients differ from the cached ones, in
    increasing order, and the coefficients at these positions; writing them
    into the cached objective gives the new one. *)
Theorem objective_update (h : nat) (cp : canonical) (c c0 : list Z) (w : world) :
  0 < objective_params cp ->
  length c = length c0 ->
  exists dci,
    update_objective h cp c c0 w
    = (append_calls h [xpress.chgobj dci (map (item c) dci)] w, Ok tt)
    /\ StronglySorted Z.lt dci
    /\ (forall i, i ∈ dci <-> 0 <= i < len c /\ item c i <> item c0 i)
    /\ written c0 dci (map (item c) dci) = c.
Proof.
  intros Hpar Hl.
  exists (numpy.where_ (zip_with (fun a b => bool_decide (a <> b)) c c0)).
  split; [|split; [|split]].
  - unfold update_objective.
    destruct (Z.ltb_spec 0 (objective_params cp)); [|lia].
    rewrite ne_same_length by done. run_calls.
    rewrite take_Ok.
    + run_calls. apply call_eq.
    + apply Forall_forall. intros i Hi. by apply differences_spec in Hi as [Hi _].
  - apply where_from_sorted.
  - intros i. by apply differences_spec.
  - by apply written_differences.
Qed.

(** ** The constraints of a warm start *)

Lemma insert_by_col_perm (p : Z * Z) (l : list (Z * Z)) :
  insert_by_col p l ≡ₚ p :: l.
Proof.
  induction l as [|q l IH]; simpl; [done|].
  destruct (_ || _); [done|]. rewrite IH. apply Permutation_swap.
Qed.

Lemma sorted_by_col_perm (l : list (Z * Z)) : foldr insert_by_col [] l ≡ₚ l.
Proof.
  induction l as [|p l IH]; simpl; [done|].
  by rewrite insert_by_col_perm, IH.
Qed.

Lemma get_absent (A : spmatrix) (i j : Z) :
  (i, j) ∉ coords A -> scipy.get A i j = 0.
Proof.
  unfold scipy.get, coords. intros H.
  assert (filter (fun e => e_row e = i /\ e_col e = j) (sp_entries A) = []) as ->;
    [|done].
  induction (sp_entries A) as [|e es IH]; [done|].
  rewrite filter_cons. simpl in H. apply not_elem_of_cons in H as [Hne Hes].
  destruct (decide (e_row e = i /\ e_col e = j)) as [[<- <-]|_]; [done|].
  by apply IH.
Qed.

(** The positions that [A != A0] reports for two matrices of one shape. *)
Lemma scipy_ne_spec (A A0 : spmatrix) :
  sp_nrow A = sp_nrow A0 -> sp_ncol A = sp_ncol A0 ->
  exists dAi,
    scipy.ne A A0 = Ok dAi
    /\ NoDup dAi
    /\ forall i j, (i, j) ∈ dAi <-> scipy.get A i j <> scipy.get A0 i j.
Proof.
  intros Hr Hc. unfold scipy.ne. rewrite Hr, Hc, !Z.eqb_refl. cbn [andb].
  eexists. split; [reflexivity|]. split.
  - rewrite sorted_by_col_perm. apply NoDup_filter, NoDup_remove_dups.
  - intros i j. rewrite sorted_by_col_perm, list_elem_of_filter.
    cbn [fst snd]. rewrite elem_of_remove_dups, elem_of_app. split; [tauto|].
    intros Hne. split; [done|].
    destruct (decide ((i, j) ∈ coords A)) as [|HA]; [by left|].
    destruct (decide ((i, j) ∈ coords A0)) as [|HA0]; [by right|].
    rewrite (get_absent A), (get_absent A0) in Hne; done.
Qed.

(** The constraints of a warm start.  When a constraint has a parameter,
    the matrix has the shape of the cached one and the right-hand side the
    length of the cached one: [chgmcoef] is called when an entry differs,
    with each position at which the two matrices differ, once, and the new
    entry at that position; then [chgrhs] is called when a right-hand side
    differs, with the positions at which the right-hand sides differ, in
    increasing order, and the new values, so that writing them into the
    cached right-hand side gives the new one.  No other call is made.
    Matrices of different shapes raise [AttributeError] before any call. *)
Theorem constraints_update (h : nat) (cp : canonical) (A A0 : spmatrix)
  (b b0 : list Z) (w : world) :
  Exists (fun k => 0 < k) (constraints_params cp) ->
  length b = length b0 ->
  (sp_nrow A = sp_nrow A0 -> sp_ncol A = sp_ncol A0 ->
   exists dAi dbi,
     update_constraints h cp A A0 b b0 w
     = (append_calls h
          ((if 0 <? len dAi then
              [xpress.chgmcoef (map (fun p => xpress.by_index p.1) dAi)
                 (map (fun p => xpress.by_index p.2) dAi)
                 (map (fun p => scipy.get A p.1 p.2) dAi)]
            else [])
           ++ (if 0 <? len dbi then [xpress.chgrhs dbi (map (item b) dbi)]
               else []))
          w,
        Ok tt)
     /\ NoDup dAi
     /\ (forall i j, (i, j) ∈ dAi <-> scipy.get A i j <> scipy.get A0 i j)
     /\ StronglySorted Z.lt dbi
     /\ (forall i, i ∈ dbi <-> 0 <= i < len b /\ item b i <> item b0 i)
     /\ written b0 dbi (map (item b) dbi) = b)
  /\ (sp_nrow A <> sp_nrow A0 \/ sp_ncol A <> sp_ncol A0 ->
      update_constraints h cp A A0 b b0 w = (w, Raise AttributeError)).
Proof.
  intros Hpar Hl.
  assert (existsb (fun k => 0 <? k) (constraints_params cp) = true) as Hex.
  { apply existsb_exists. apply Exists_exists in Hpar as (k & Hin & Hk).
    exists k. split; [by apply list_elem_of_In|lia]. }
  split.
  - intros Hr Hc.
    destruct (scipy_ne_spec A A0 Hr Hc) as (dAi & Hne & Hnd & HdA).
    exists dAi, (numpy.where_ (zip_with (fun a b => bool_decide (a <> b)) b b0)).
    split; [|split; [done|split; [done|split; [apply where_from_sorted|split]]]].
    + unfold update_constraints. rewrite Hex, Hne. run_calls.
      rewrite ne_same_length by done. run_calls.
      set (dbi := numpy.where_ _).
      assert (numpy.take_ b dbi = Ok (map (item b) dbi)) as Ht.
      { apply take_Ok, Forall_forall. intros i Hi.
        by apply differences_spec in Hi as [Hi _]. }
      destruct (0 <? len dAi); destruct (0 <? len dbi); run_calls;
        rewrite ?Ht; run_calls; rewrite ?call_eq, ?append_calls_app,
          ?append_calls_nil; reflexivity.
    + intros i. by apply differences_spec.
    + by apply written_differences.
  - intros Hshape. unfold update_constraints, scipy.ne. rewrite Hex.
    assert ((sp_nrow A =? sp_nrow A0) && (sp_ncol A =? sp_ncol A0) = false) as ->.
    { apply andb_false_iff. destruct Hshape; [left|right]; lia. }
    reflexivity.
Qed.

(** The variable types of a warm start are compared and never changed: the
    step leaves every problem as it is. *)
Lemma update_coltypes_pure (h : nat) (c : list Z) (vartype0 : list ascii) :
  pure (update_coltypes h c vartype0).
Proof.
  intros w. unfold update_coltypes. rewrite bind_read_problem.
  destruct (xpress.getcoltype (problem_at w h) 0 (len c - 1)) as [vartype|e];
    [|reflexivity].
  rewrite bind_lift_Ok.
  destruct (numpy.ne vartype vartype0) as [vti|e]; [|reflexivity].
  rewrite bind_lift_Ok. destruct (numpy.any vti); [|reflexivity].
  destruct (numpy.compress (range (len c)) vti) as [mindex|e]; reflexivity.
Qed.

(** A warm start without parameters.  When the previous problem is used
    again and neither the objective nor a constraint has a parameter, the
    load phase makes no call on any problem, whatever the new coefficients,
    matrix and right-hand sides are: they are not compared with the cached
    ones, and the cached problem is solved again as it is. *)
Theorem warm_start_without_parameters (tb : bool) (cp : canonical) (w : world)
  (prev : prev_result_dict) :
  previous true (prev_result w) (problem_data_of cp) = Some prev ->
  objective_params cp <= 0 ->
  Forall (fun k => k <= 0) (constraints_params cp) ->
  problems (load tb cp true w).1 = problems w
  /\ prev_result (load tb cp true w).1 = prev_result w
  /\ prob_ (load tb cp true w).1 = Some (prev_problem prev).
Proof.
  intros Hp Hobj Hcon.
  pose proof (load_eq tb cp true w) as E. cbv zeta in E. rewrite Hp in E.
  rewrite E. unfold warm_start_update. rewrite bind_set_prob.
  cbn [problems prob_ prev_result].
  assert (update_objective (prev_problem prev) cp
            (data_C (problem_data_of cp)) (prev_obj prev) = ret tt) as ->.
  { unfold update_objective. by destruct (Z.ltb_spec 0 (objective_params cp)); [lia|]. }
  rewrite bind_ret.
  match goal with |- context [update_constraints ?h ?cp ?A ?A0 ?b ?b0] =>
    assert (update_constraints h cp A A0 b b0 = ret tt) as -> end.
  { unfold update_constraints.
    assert (existsb (fun k => 0 <? k) (constraints_params cp) = false) as ->; [|done].
    apply not_true_is_false. intros H. apply existsb_exists in H as (k & Hin & Hk).
    rewrite Forall_forall in Hcon. apply list_elem_of_In, Hcon in Hin. lia. }
  rewrite bind_ret.
  match goal with |- context [bind (update_coltypes ?h ?c ?v) ?k ?w1] =>
    pose proof (update_coltypes_pure h c v w1) as Hpure;
    unfold bind; destruct (update_coltypes h c v w1) as [w2 [[]|e]] end;
    cbn [fst] in Hpure; subst w2; done.
Qed.

(** ** Options that the library does not know *)

Lemma opts_get_ignore (opts1 opts2 : list (string * xpress.optvalue))
  (k k' : string) (v : xpress.optvalue) :
  k <> k' ->
  opts_get (opts1 ++ (k, v) :: opts2) k' = opts_get (opts1 ++ opts2) k'.
Proof.
  intros Hk. induction opts1 as [|[k1 v1] opts1 IH]; simpl.
  - destruct (String.eqb_spec k' k); [congruence|done].
  - by rewrite IH.
Qed.

(** An option that is neither ['solver_opts'] nor the name of a control of
    the library, as is ['original_problem'], has no effect: [solve] does
    the same, and returns the same, with and without it. *)
Theorem unknown_option_ignored lib tb cp ws verbose
  (opts1 opts2 : list (string * xpress.optvalue)) (k : string)
  (v : xpress.optvalue) (w : world) :
  k <> "solver_opts" ->
  k ∉ xpress.control_names lib ->
  solve lib tb cp ws verbose (opts1 ++ (k, v) :: opts2) w
  = solve lib tb cp ws verbose (opts1 ++ opts2) w.
Proof.
  intros Hk Hnin. rewrite !solve_eq.
  assert (option_calls lib (opts1 ++ (k, v) :: opts2)
          = option_calls lib (opts1 ++ opts2)) as ->; [|done].
  unfold option_calls. rewrite opts_get_ignore by done.
  by rewrite !filter_app, filter_cons_False.
Qed.

(** ** The loop over the cones, with back-substitution *)

Lemma len_slice {A} (l : list A) (a k : Z) :
  0 <= a -> 0 <= k -> a + k <= len l ->
  len (Py.slice l (Some a) (Some (a + k))) = k.
Proof.
  intros Ha Hk Hl. unfold Py.slice, slice_lo, slice_hi, slice_bound.
  destruct (Z.ltb_spec a 0); [lia|]. destruct (Z.ltb_spec (a + k) 0); [lia|].
  rewrite !Z.min_l by lia. unfold len in *.
  rewrite length_take, length_drop. lia.
Qed.

Lemma back_substitution_blocks (h : nat) (data : problem_data) (n : Z)
  (ks : list Z) :
  Forall (fun e => 0 <= e_col e < n) (sp_entries (data_A data)) ->
  forall (currow iCone : Z),
    0 <= currow ->
    Forall (fun k => 1 <= k) ks ->
    currow + total ks <= sp_nrow (data_A data) ->
    currow + total ks <= len (data_B data) ->
    Forall (fun e => currow <= e_row e -> e_val e <> 0)
           (sp_entries (data_A data)) ->
    exists cons,
      length cons = length ks
      /\ forall w,
           for_ ks (soc_block true h data (map xpress.column (range n)))
             (currow, iCone) w
           = (append_calls h (map xpress.addConstraint cons) w,
              Ok (currow + total ks, iCone + len ks)).
Proof.
  intros Hcols. induction ks as [|k ks IH];
    intros currow iCone Hc Hks Hrows Hb Hnz.
  - exists []. split; [done|]. intros w. rewrite append_calls_nil. simpl.
    unfold ret. do 2 f_equal. f_equal; unfold total, len; simpl; lia.
  - inversion Hks as [|? ? Hk Hks']; subst. rewrite total_cons in Hrows, Hb.
    assert (0 <= total ks) as Ht.
    { apply total_nonneg. eapply Forall_impl; [exact Hks'|]. simpl. intros; lia. }
    destruct (IH (currow + k) (iCone + 1)) as (cons & Hlen & Hloop);
      [lia|done|lia|lia| |].
    { eapply Forall_impl; [exact Hnz|]. simpl. intros e He Hr. apply He. lia. }
    set (A := tocsr (getrows (data_A data) (Some currow) (Some (currow + k)))).
    set (b := Py.slice (data_B data) (Some currow) (Some (currow + k))).
    destruct (getrows_entries (data_A data) currow k) as [HrowsA Hent];
      [lia|lia|lia|].
    assert (back_substitution A b (map xpress.column (range n))
            = Ok (back_substitution_spec A b k)) as Hbs.
    { apply back_substitution_refines; [exact HrowsA| |done|].
      - apply len_slice; lia.
      - apply Forall_tocsr. rewrite Hent, Forall_map. apply Forall_forall.
        intros e He. apply list_elem_of_filter in He as [Hr He].
        rewrite Forall_forall in Hcols, Hnz.
        specialize (Hcols e He). specialize (Hnz e He).
        unfold e_row, e_col, e_val in *. simpl. split; [lia|]. split; [lia|].
        apply Hnz. lia. }
    exists (back_substitution_spec A b k :: cons).
    split; [simpl; by rewrite Hlen|].
    intros w. cbn [for_]. unfold bind at 1.
    unfold soc_block at 1. cbn [fst snd]. fold A b. rewrite Hbs.
    run_calls. unfold ret. rewrite Hloop, append_calls_app. do 2 f_equal.
    f_equal; rewrite ?total_cons; unfold len; simpl length; lia.
Qed.

(** A cold solve with back-substitution.  When every cone has at least one
    row, the rows of the cones lie in [data[s.A]] and [data[s.B]] after the
    linear rows and store no zero, and every stored entry lies in the column
    of a variable: the problem object receives [loadproblem], [chgcoltype],
    one [addConstraint] for every cone, [setObjective], the controls, the
    options and [solve], and no other call.  No column is added to the
    variables of the problem, and one row is added for every cone. *)
Theorem cold_solve_back_substitution lib (cp : canonical) (ws verbose : bool)
  (opts : list (string * xpress.optvalue)) (w : world) :
  let data := problem_data_of cp in
  let c := data_C data in
  let ks := dims_SOC_DIM data in
  let nrows := dims_EQ_DIM data + dims_LEQ_DIM data in
  let b := Py.slice (data_B data) None (Some nrows) in
  let A := getrows (data_A data) None (Some nrows) in
  let p := problem_at (solve lib true cp ws verbose opts w).1
             (length (problems w)) in
  previous ws (prev_result w) data = None ->
  0 <= dims_EQ_DIM data -> 0 <= dims_LEQ_DIM data ->
  Forall (fun k => 1 <= k) ks ->
  nrows + total ks <= sp_nrow (data_A data) ->
  nrows + total ks <= len (data_B data) ->
  Forall (fun e => 0 <= e_col e < len c) (sp_entries (data_A data)) ->
  Forall (fun e => nrows <= e_row e -> e_val e <> 0) (sp_entries (data_A data)) ->
  exists mstart cons,
    length cons = length ks
    /\ p = [ xpress.loadproblem "CVXproblem"
               (Py.times "E"%char (dims_EQ_DIM data)
                ++ Py.times "L"%char (dims_LEQ_DIM data))
               b c mstart (scipy.indices A) (scipy.data A)
               (Py.times xpress.minus_infinity (len c))
               (Py.times xpress.infinity (len c));
             xpress.chgcoltype
               (data_BOOL_IDX data ++ data_INT_IDX data)
               (Py.times "B"%char (len (data_BOOL_IDX data))
                ++ Py.times "I"%char (len (data_INT_IDX data))) ]
           ++ map xpress.addConstraint cons
           ++ [ xpress.setObjective
                  (xpress.Sum (map (objective_term c) (range (len c)))) ]
           ++ verbose_controls ++ option_calls lib opts ++ [xpress.solve]
    /\ len (xpress.coltypes p) = len c
    /\ xpress.rows p = nrows + len ks.
Proof.
  cbv zeta. intros Hp HE HL Hks Hrows Hb Hcols Hnz.
  set (data := problem_data_of cp) in *.
  set (nrows := dims_EQ_DIM data + dims_LEQ_DIM data) in *.
  set (A := getrows (data_A data) None (Some nrows)).
  destruct (makeMstart_columns_Ok A (len (data_C data))) as [mstart Hm].
  { apply (getrows_columns (fun v => 0 <= v)).
    eapply Forall_impl; [exact Hcols|]. simpl. intros; lia. }
  destruct (back_substitution_blocks (length (problems w)) data
              (len (data_C data)) (dims_SOC_DIM data) Hcols nrows 0
              ltac:(lia) Hks Hrows Hb Hnz) as (cons & Hlen & Hloop).
  exists mstart, cons. split; [exact Hlen|].
  pose proof (load_eq true cp ws w) as E. cbv zeta in E.
  fold data in E. rewrite Hp in E.
  rewrite (cold_load_calls true data (data_C data) A _ _ _ nrows w mstart
             (map xpress.addConstraint cons)
             (nrows + total (dims_SOC_DIM data), 0 + len (dims_SOC_DIM data)) Hm)
    in E.
  2: { intros w1 _ _. apply Hloop. }
  pose proof (solve_after_load lib true cp ws verbose opts w _ E) as Hs.
  rewrite (problem_at_new _ _ _ Hs).
  split; [by rewrite <- !app_assoc|].
  destruct (tail_calls_keep lib opts
              (xpress.Sum (map (objective_term (data_C data))
                               (range (len (data_C data))))))
    as (Kcol & Krow & _).
  assert (forall ts, foldl xpress.coltypes_after ts (map xpress.addConstraint cons)
                     = ts) as Ccol.
  { clear. induction cons as [|c cons IH]; intros ts; [done|]. simpl. apply IH. }
  assert (forall r, foldl xpress.rows_after r (map xpress.addConstraint cons)
                    = r + len cons) as Crow.
  { clear. induction cons as [|c cons IH]; intros r; simpl.
    - unfold len. simpl. lia.
    - rewrite IH. unfold len. simpl. lia. }
  split.
  - rewrite <- !app_assoc, coltypes_app, foldl_app, Ccol, Kcol.
    unfold xpress.coltypes. cbn [foldl xpress.coltypes_after].
    unfold len. by rewrite length_set_coltypes, length_replicate.
  - rewrite <- !app_assoc, rows_app, foldl_app, Crow, Krow.
    unfold xpress.rows. cbn [foldl xpress.rows_after].
    rewrite len_app, !len_times. unfold len. rewrite Hlen. lia.
Qed.

(** ** Reporting, for any solver output *)

(** What [format_results] returns, whatever the solver output it is given.
    When it returns, the record holds a status, which is the translation of
    the native status and one of the four canonical ones, and the evidence
    of the solver output; it holds the solution and the objective value
    exactly when the status is [OPTIMAL], and the duals exactly when, in
    addition, the problem is not mixed-integer.  [self.prob_] is the problem
    of the solver output, the cache entry is written for that problem and
    the data, and no problem receives a call. *)
Theorem format_results_record (rd : results_dict_t) (data : problem_data)
  (w w' : world) (r : results) :
  format_results rd data w = (w', Ok r) ->
  exists st,
    translate_status data (rd_status rd) = Ok st
    /\ st ∈ [s.OPTIMAL; s.INFEASIBLE; s.UNBOUNDED; s.SOLVER_ERROR]
    /\ STATUS r = Some st
    /\ IIS r = rd_IIS rd /\ IIS r <> None
    /\ (st = s.OPTIMAL ->
        PRIMAL r = rd_x rd /\ PRIMAL r <> None
        /\ VALUE r = Some (rd_obj_value rd)
        /\ EQ_DUAL r = (if is_mip data then None else rd_y rd)
        /\ (is_mip data = false -> EQ_DUAL r <> None))
    /\ (st <> s.OPTIMAL -> PRIMAL r = None /\ VALUE r = None /\ EQ_DUAL r = None)
    /\ problems w' = problems w
    /\ prob_ w' = Some (rd_problem rd)
    /\ exists vartypes,
         xpress.getcoltype (problem_at w (rd_problem rd)) 0
           (len (data_C data) - 1) = Ok vartypes
         /\ prev_result w'
            = Some {| prev_problem := rd_problem rd;
                      prev_obj := data_C data;
                      prev_mat := data_A data;
                      prev_rhs := data_B data;
                      prev_cone_ind := dims_SOC_DIM data;
                      prev_vartype := vartypes |}.
Proof.
  intros H. rewrite format_results_eq in H. cbv zeta in H.
  destruct (xpress.getcoltype _ _ _) as [vartypes|e] eqn:Hg; [|by inversion H].
  inversion H as [[Hw Hr]]. clear H.
  destruct (translate_status data (rd_status rd)) as [st|e] eqn:Hst; [|done].
  exists st. split; [done|].
  assert (st ∈ [s.OPTIMAL; s.INFEASIBLE; s.UNBOUNDED; s.SOLVER_ERROR]) as Hin.
  { pose proof (status_map_values data) as Hv. apply translate_Ok in Hst.
    rewrite Forall_forall in Hv. exact (Hv _ Hst). }
  split; [exact Hin|].
  assert (bool_decide (st ∈ s.SOLUTION_PRESENT) = bool_decide (st = s.OPTIMAL))
    as Hsp.
  { apply bool_decide_ext. unfold s.SOLUTION_PRESENT. split.
    - intros Hs. apply elem_of_cons in Hs as [Hs|Hs]; [done|].
      apply elem_of_cons in Hs as [->|Hs]; [|by apply elem_of_nil in Hs].
      repeat (apply elem_of_cons in Hin as [Hin|Hin]; [discriminate Hin|]).
      by apply elem_of_nil in Hin.
    - intros ->. apply list_elem_of_here. }
  cbn [rbind] in Hr. rewrite Hsp in Hr.
  destruct (decide (st = s.OPTIMAL)) as [Hopt|Hopt].
  - rewrite bool_decide_eq_true_2 in Hr by done.
    destruct (rd_x rd) as [x|]; [|done]. cbn [key rbind] in Hr.
    destruct (is_mip data) eqn:Hmip; cbn [negb] in Hr.
    + cbn [rbind] in Hr. destruct (rd_IIS rd) as [iis|]; [|done].
      cbn [key rbind fst snd] in Hr. inversion Hr; subst r. cbn.
      repeat split; try done; eauto.
    + destruct (rd_y rd) as [y|]; [|done]. cbn [key rbind] in Hr.
      destruct (rd_IIS rd) as [iis|]; [|done].
      cbn [key rbind fst snd] in Hr. inversion Hr; subst r. cbn.
      repeat split; try done; eauto.
  - rewrite bool_decide_eq_false_2 in Hr by done. cbn [rbind] in Hr.
    destruct (rd_IIS rd) as [iis|]; [|done].
    cbn [key rbind fst snd] in Hr. inversion Hr; subst r. cbn.
    repeat split; try done; eauto.
Qed.

(** ** The column-start array at the edges *)

(** The subscript of [A.nonzero ()] and the matrix without nonzeros: an
    axis other than [0], [1], [-1] and [-2] raises [IndexError]; when no
    stored value is different from zero, the array is [n + 1] zeros (one
    zero when [n] is negative). *)
Theorem makeMstart_edge_cases (A : spmatrix) (n ifCol : Z) :
  (ifCol ∉ [0; 1; -1; -2] -> makeMstart A n ifCol = Raise IndexError)
  /\ (ifCol ∈ [0; 1; -1; -2] ->
      Forall (fun e => e_val e = 0) (sp_entries A) ->
      makeMstart A n ifCol = Ok (replicate (Z.to_nat n + 1) 0)).
Proof.
  split.
  - intros H. unfold makeMstart, pair_getitem.
    destruct (Z.eqb_spec ifCol 0) as [->|]; [exfalso; apply H; repeat first [apply list_elem_of_here | apply list_elem_of_further]|].
    destruct (Z.eqb_spec ifCol (-2)) as [->|]; [exfalso; apply H; repeat first [apply list_elem_of_here | apply list_elem_of_further]|].
    destruct (Z.eqb_spec ifCol 1) as [->|]; [exfalso; apply H; repeat first [apply list_elem_of_here | apply list_elem_of_further]|].
    destruct (Z.eqb_spec ifCol (-1)) as [->|]; [exfalso; apply H; repeat first [apply list_elem_of_here | apply list_elem_of_further]|].
    reflexivity.
  - intros Hax Hz.
    assert (nonzero A = ([], [])) as Hnz.
    { unfold nonzero.
      assert (filter (fun e => e_val e <> 0) (sp_entries A) = []) as ->; [|done].
      induction Hz as [|e es He _ IH]; [done|].
      by rewrite filter_cons_False by (intros ?; done). }
    assert (pair_getitem (nonzero A) ifCol = Ok []) as Hc.
    { rewrite Hnz. unfold pair_getitem.
      repeat (apply elem_of_cons in Hax as [->|Hax]; [reflexivity|]).
      by apply elem_of_nil in Hax. }
    rewrite (makeMstart_eq A n ifCol [] Hc) by constructor.
    f_equal. unfold numpy.span, range, range2, Py.times. simpl.
    rewrite Z.sub_0_r. unfold numpy.cumsum.
    replace (Z.to_nat n + 1)%nat with (S (Z.to_nat n)) by lia.
    assert (forall m, numpy.cumsum_from 0 (replicate m 0) = replicate m 0) as Hz0.
    { induction m as [|m IH]; [done|]. cbn [replicate numpy.cumsum_from].
      change (0 + 0) with 0. by rewrite IH. }
    apply (Hz0 (S (Z.to_nat n))).
Qed.

(** ** A cold load that fails *)

(** A stored nonzero of the linear rows in a negative column.  The cold
    load creates the problem object, makes [self.prob_] refer to it, and
    raises [ValueError] when it counts the columns: the new problem has
    received no call, the optimizer is not called, the cache and the other
    problems are as before. *)
Theorem cold_solve_invalid_input lib tb cp ws verbose opts (w : world) :
  let data := problem_data_of cp in
  let nrows := dims_EQ_DIM data + dims_LEQ_DIM data in
  let A := getrows (data_A data) None (Some nrows) in
  previous ws (prev_result w) data = None ->
  Exists (fun e => e_val e <> 0 /\ e_col e < 0) (sp_entries A) ->
  solve lib tb cp ws verbose opts w
  = ({| problems := problems w ++ [[]];
        prob_ := Some (length (problems w));
        prev_result := prev_result w |},
     Raise ValueError).
Proof.
  cbv zeta. intros Hp Hneg. rewrite solve_eq.
  pose proof (load_eq tb cp ws w) as E. cbv zeta in E. rewrite Hp in E.
  rewrite E. unfold cold_load. rewrite bind_new_problem, bind_set_prob.
  cbn [problems prob_ prev_result].
  match goal with |- context [makeMstart ?A ?n 1] =>
    assert (makeMstart A n 1 = Raise ValueError) as -> end; [|reflexivity].
  unfold makeMstart.
  change (pair_getitem (nonzero ?A) 1) with (Ok (nonzero A).2).
  cbn [rbind]. rewrite bincount_negative; [done|].
  unfold nonzero. cbn [snd].
  apply Exists_exists in Hneg as (e & He & Hv & Hc).
  apply Exists_exists. exists (e_col e). split; [|done].
  apply list_elem_of_fmap. exists e. split; [done|].
  apply list_elem_of_filter. by split.
Qed.

(** ** The rows of a cone on auxiliary variables *)

(** The last entry that satisfies a predicate. *)
Lemma last_such {E} (P : E -> Prop) `{forall e, Decision (P e)} (l : list E) :
  Exists P l ->
  exists l1 e l2, l = l1 ++ e :: l2 /\ P e /\ Forall (fun e' => ~ P e') l2.
Proof.
  induction l as [|y l IH]; intros HE; [by inversion HE|].
  destruct (decide (Exists P l)) as [Hl|Hl].
  - destruct (IH Hl) as (l1 & e & l2 & -> & He & Hl2).
    by exists (y :: l1), e, l2.
  - inversion HE as [? ? Hy|? ? Hl']; subst; [|done].
    exists [], y, l. split; [done|]. split; [done|].
    by apply not_Exists_Forall.
Qed.

Lemma length_filter_le {E} (P : E -> Prop) `{forall e, Decision (P e)}
  (l : list E) :
  (length (filter P l) <= length l)%nat.
Proof.
  induction l as [|e l IH]; [done|]. rewrite filter_cons.
  destruct (decide (P e)); simpl; lia.
Qed.

Lemma filter_none {E} (P : E -> Prop) `{forall e, Decision (P e)} (l : list E) :
  Forall (fun e => ~ P e) l -> filter P l = [].
Proof.
  induction 1 as [|e l He _ IH]; [done|]. by rewrite filter_cons_False.
Qed.

(** When a stored zero is followed by a stored value that is not zero, one
    such value is stored at a position that the number of the nonzeros does
    not reach. *)
Lemma nonzero_beyond_count (es l1 l2 : list (Z * Z * Z)) (e0 : Z * Z * Z) :
  es = l1 ++ e0 :: l2 ->
  e_val e0 = 0 ->
  Exists (fun e => e_val e <> 0) l2 ->
  exists (p : nat) (e : Z * Z * Z),
    (length (filter (fun e => (e_val e <> 0)%Z) es) <= p)%nat
    /\ es !! p = Some e /\ e_val e <> 0.
Proof.
  intros -> H0 HE.
  destruct (last_such _ l2 HE) as (l2a & e & l2b & -> & He & Hz).
  exists (length (l1 ++ e0 :: l2a)), e. split; [|split; [|done]].
  - replace (l1 ++ e0 :: l2a ++ e :: l2b)
      with ((l1 ++ e0 :: l2a) ++ e :: l2b) by (by rewrite <- app_assoc).
    rewrite filter_app, (filter_cons _ e), decide_True by done.
    rewrite (filter_none _ l2b Hz).
    rewrite filter_app, (filter_cons _ e0), decide_False by (intros ?; done).
    rewrite !length_app. cbn [length].
    pose proof (length_filter_le (fun e => e_val e <> 0) l1).
    pose proof (length_filter_le (fun e => e_val e <> 0) l2a).
    lia.
  - replace (l1 ++ e0 :: l2a ++ e :: l2b)
      with ((l1 ++ e0 :: l2a) ++ e :: l2b) by (by rewrite <- app_assoc).
    apply list_lookup_middle. done.
Qed.

(** C7, where the code departs from it.  With auxiliary variables, the
    block of a cone of [k >= 1] rows makes these calls on the problem and no
    other: [addVariable] with [k] new variables, the first with lower bound
    [0] and the others with lower bound minus infinity; [addrows] with [k]
    equality rows, [k] right-hand sides and an array [mstart] of [k + 1]
    entries; [chgmcoef] with the coefficient [1] of each new variable in its
    row; and, unless [k = 1], [addConstraint] with the one constraint
    [sum (conevar[i]^2, i = 1 .. k-1) <= conevar[0]^2].  When the rows of
    the cone store no zero, the values of [A.indices] and [A.data] between
    the entries [i] and [i + 1] of [mstart] are the column indices and the
    coefficients of the row [currow + i] of [data[s.A]]: the rows added are
    the rows of the cone.  When they store a zero that a value other than
    zero follows, they are not: [mstart] counts the values that are not
    zero, [A.data] holds every stored value, and a coefficient that is not
    zero is stored at or after the position that the last entry of [mstart]
    gives, outside of every row. *)
Theorem cone_auxiliary_variables (h : nat) (data : problem_data)
  (x : list xpress.var) (currow iCone k : Z) (w : world) :
  (h < length (problems w))%nat ->
  0 <= currow ->
  1 <= k ->
  currow + k <= sp_nrow (data_A data) ->
  currow + k <= len (data_B data) ->
  let A := tocsr (getrows (data_A data) (Some currow) (Some (currow + k))) in
  let b := Py.slice (data_B data) (Some currow) (Some (currow + k)) in
  let conevar := fun i =>
    xpress.cone_var iCone i
      (if i =? 0 then xpress.finite 0 else xpress.minus_infinity) in
  let initrow := xpress.rows (problem_at w h) in
  exists mstart,
    makeMstart A k 0 = Ok mstart
    /\ soc_block false h data x (currow, iCone) k w
       = (append_calls h
            ([ xpress.addVariable (map conevar (range k));
               xpress.addrows (Py.times "E"%char k) b mstart
                 (scipy.indices A) (scipy.data A);
               xpress.chgmcoef
                 (map (fun i => xpress.by_index (initrow + i)) (range k))
                 (map (fun i => xpress.by_object (conevar i)) (range k))
                 (Py.times 1 k) ]
             ++ (if k =? 1 then []
                 else [ xpress.addConstraint
                          {| xpress.c_lhs :=
                               xpress.Sum
                                 (map (fun i => xpress.pow (xpress.term (conevar i)) 2)
                                      (range2 1 k));
                             xpress.c_rhs := xpress.pow (xpress.term (conevar 0)) 2;
                             xpress.c_name := Some ("cone_" +:+ pretty iCone) |} ]))
            w,
          Ok (currow + k, iCone + 1))
    /\ len (map conevar (range k)) = k
    /\ len (Py.times "E"%char k) = k
    /\ len b = k
    /\ len mstart = k + 1
    /\ (Forall (fun e => e_val e <> 0) (sp_entries A) ->
        forall i, 0 <= i < k ->
          exists lo hi,
            getitem mstart i = Ok lo
            /\ getitem mstart (i + 1) = Ok hi
            /\ Py.slice (scipy.indices A) (Some lo) (Some hi)
               = map e_col (filter (fun e => e_row e = currow + i)
                                   (sp_entries (data_A data)))
            /\ Py.slice (scipy.data A) (Some lo) (Some hi)
               = map e_val (filter (fun e => e_row e = currow + i)
                                   (sp_entries (data_A data))))
    /\ (forall l1 e0 l2,
          sp_entries A = l1 ++ e0 :: l2 ->
          e_val e0 = 0 ->
          Exists (fun e => e_val e <> 0) l2 ->
          exists nnz p v,
            last mstart = Some nnz
            /\ nnz < len (scipy.data A)
            /\ nnz <= p
            /\ getitem (scipy.data A) p = Ok v
            /\ v <> 0).
Proof.
  intros Hh Hc Hk Hrows Hb. cbv zeta.
  set (B := getrows (data_A data) (Some currow) (Some (currow + k))).
  set (A := tocsr B).
  destruct (getrows_entries (data_A data) currow k Hc ltac:(lia) Hrows)
    as [HrowsB Hent]. fold B in HrowsB, Hent.
  set (coords := map e_row (filter (fun e => e_val e <> 0) (sp_entries A))).
  assert (Forall (fun e => 0 <= e_row e < k) (sp_entries A)) as Hrange.
  { apply Forall_tocsr.
    pose proof (getrows_rows (data_A data) (Some currow) (Some (currow + k)))
      as Hr.
    fold B in Hr. by rewrite HrowsB in Hr. }
  assert (Forall (fun v => 0 <= v < k) coords) as Hx.
  { unfold coords. rewrite Forall_map. apply Forall_forall. intros e He.
    apply list_elem_of_filter in He as [_ He].
    rewrite Forall_forall in Hrange. by apply Hrange. }
  assert (Forall (fun v => 0 <= v) coords) as Hx0
    by (eapply Forall_impl; [exact Hx|]; simpl; intros; lia).
  assert (Forall (fun v => v < k) coords) as Hxk
    by (eapply Forall_impl; [exact Hx|]; simpl; intros; lia).
  pose proof (makeMstart_eq A k 0 coords eq_refl Hx0) as Hm.
  destruct (column_starts_facts coords k Hx0) as (Hl & _ & Hlast).
  pose proof (span_le coords k ltac:(lia) Hxk) as Hspan.
  pose proof (span_nonneg coords) as Hspan0.
  eexists. split; [exact Hm|].
  match type of Hm with _ = Ok ?m => set (mstart := m) in * end.
  assert (new_cone_variables iCone k
          = map (fun i => xpress.cone_var iCone i
                            (if i =? 0 then xpress.finite 0 else xpress.minus_infinity))
                (range k)) as Hv.
  { unfold new_cone_variables. apply map_ext_in. intros i Hi.
    apply list_elem_of_In, elem_of_range in Hi.
    destruct (Z.ltb_spec 0 i), (Z.eqb_spec i 0); try lia; done. }
  split; [|split; [|split; [|split; [|split; [|split]]]]].
  - unfold soc_block, auxiliary_variables. cbn [fst snd]. fold B A.
    run_calls. rewrite problem_at_append, rows_app by done.
    cbn [foldl xpress.rows_after]. rewrite Hm. run_calls.
    destruct (Z.ltb_spec 1 k) as [Hk1|Hk1].
    + rewrite cone_constraint_eq by lia. run_calls.
      destruct (Z.eqb_spec k 1) as [->|_]; [lia|].
      assert (map (fun i => xpress.pow
                              (xpress.term
                                 (xpress.cone_var iCone i xpress.minus_infinity)) 2)
                  (range2 1 k)
              = map (fun i => xpress.pow
                                (xpress.term
                                   (xpress.cone_var iCone i
                                      (if i =? 0 then xpress.finite 0
                                       else xpress.minus_infinity))) 2)
                    (range2 1 k)) as Hs.
      { apply map_ext_in. intros i Hi. apply list_elem_of_In, elem_of_range2 in Hi.
        destruct (Z.eqb_spec i 0); [lia|done]. }
      rewrite Hs, Hv, map_map. reflexivity.
    + assert (k = 1) as -> by lia. run_calls.
      rewrite Hv, map_map. reflexivity.
  - unfold len. rewrite length_map. fold (len (range k)). rewrite len_range. lia.
  - rewrite len_times. lia.
  - apply len_slice; lia.
  - rewrite Hl. lia.
  - intros Hnz i Hi.
    assert (Forall (fun e => 0 <= major (sp_format A) e < k /\ e_val e <> 0)
                   (sp_entries A)) as Hes.
    { apply Forall_forall. intros e He. rewrite Forall_forall in Hrange, Hnz.
      split; [exact (Hrange e He)|exact (Hnz e He)]. }
    destruct (encoding_segments A k (tocsr_sorted B) Hes ltac:(lia))
      as (mstart' & Hm' & _ & Hseg).
    change (major_axis (sp_format A)) with 0 in Hm'. rewrite Hm in Hm'.
    inversion Hm' as [Heq]. rewrite <- Heq in Hseg. clear Hm' Heq.
    destruct (Hseg i Hi) as (lo & hi & Hlo & Hhi & Hind & Hdat).
    exists lo, hi. split; [exact Hlo|]. split; [exact Hhi|].
    assert (segment A i
            = map (fun e => (e_row e - currow, e_col e, e_val e))
                  (filter (fun e => e_row e = currow + i)
                          (sp_entries (data_A data)))) as Hsegm.
    { unfold segment. change (major (sp_format A)) with e_row.
      unfold A. rewrite filter_tocsr, Hent, filter_map_shift. f_equal.
      rewrite list_filter_filter. apply list_filter_iff. intros e. lia. }
    rewrite Hind, Hdat, Hsegm, !map_map. split; apply map_ext; by intros [[r c] v].
  - intros l1 e0 l2 Hsplit H0 HE.
    destruct (nonzero_beyond_count (sp_entries A) l1 l2 e0 Hsplit H0 HE)
      as (p & e & Hp & He & Hv0).
    exists (len coords), (Z.of_nat p), (e_val e).
    split; [exact Hlast|].
    assert (len coords = Z.of_nat (length (filter (fun e => e_val e <> 0)
                                                  (sp_entries A)))) as Hcount
      by (unfold coords, len; by rewrite length_map).
    apply lookup_lt_Some in He as Hlt.
    split; [|split; [|split; [|done]]].
    + rewrite Hcount. unfold scipy.data, len. rewrite length_map. lia.
    + rewrite Hcount. lia.
    + apply getitem_lookup. unfold scipy.data.
      rewrite list_lookup_fmap, He. reflexivity.
Qed.

(** ** The statements at the examples *)

(** C5 as stated fails: the only stored value of [ex_row] is in column 3, and
    for the target length 1 the array has five entries, not two. *)
Lemma makeMstart_length_counterexample :
  exists (A : spmatrix) (n ifCol : Z) (mstart : list Z),
    makeMstart A n ifCol = Ok mstart /\ len mstart <> n + 1.
Proof.
  exists ex_row, 1, 1, [0; 0; 0; 0; 1]. split; [reflexivity|]. vm_compute. discriminate.
Qed.

(** [makeMstart] on the columns of [ex_matrix]: unsorted coordinates, a
    column without nonzeros, five entries for four columns. *)
Lemma makeMstart_column_starts_witness :
  exists mstart,
    makeMstart ex_matrix 4 1 = Ok mstart
    /\ len mstart = 4 + 1
    /\ StronglySorted Z.le mstart
    /\ last mstart = Some 4.
Proof.
  destruct (makeMstart_column_starts ex_matrix 4 1 [2; 0; 0; 3] eq_refl)
    as [H _].
  destruct H as (mstart & Hm & _ & Hlen & Hsorted & Hlast).
  { repeat constructor; lia. }
  exists mstart. split; [exact Hm|]. split.
  - apply Hlen; [lia|]. repeat constructor; lia.
  - split; [exact Hsorted|exact Hlast].
Defined.

(** The statuses [lp_unbounded] of the problem [ex_lp] and [mip_solution]
    of the mixed-integer problem [ex_mip] are translated; the status 99 is
    in neither table. *)
Lemma status_translation_total_witness :
  translate_status ex_lp xpress.lp_unbounded = Ok s.UNBOUNDED
  /\ translate_status ex_mip xpress.mip_solution = Ok s.SOLVER_ERROR
  /\ translate_status ex_lp 99 = Raise KeyError
  /\ (run (ex_library 99) 0 ex_lp ex_world_types).2 = Raise KeyError.
Proof.
  split; [|split; [|split]].
  - destruct (status_translation_total ex_lp xpress.lp_unbounded)
      as (_ & _ & Hlp & _).
    destruct (Hlp eq_refl) as [H _]. apply H.
    unfold xpress.lp_unstarted, xpress.lp_unbounded, xpress.lp_nonconvex. lia.
  - destruct (status_translation_total ex_mip xpress.mip_solution)
      as (_ & _ & _ & Hmip & _).
    destruct (Hmip eq_refl) as [H _]. apply H.
    unfold xpress.mip_not_loaded, xpress.mip_solution, xpress.mip_unbounded. lia.
  - destruct (status_translation_total ex_lp 99) as (_ & _ & Hlp & _).
    destruct (Hlp eq_refl) as [_ H]. apply H. right.
    unfold xpress.lp_nonconvex. lia.
  - destruct (status_translation_total ex_lp 99) as (_ & _ & _ & _ & _ & Hrun).
    apply (Hrun (ex_library 99) 0%nat ex_world_types
             {| xpress.ProbStatus := 99; xpress.ObjVal := 1;
                xpress.Solution := [1; 0]; xpress.Dual := [1] |}).
    + reflexivity.
    + vm_compute. intros H. repeat (apply elem_of_cons in H as [H|H]; [discriminate|]).
      by apply elem_of_nil in H.
Defined.

(** A warm start on the cached problem of [ex_world_types], and a cold load
    on the empty cache. *)
Lemma warm_start_eligibility_witness :
  length (problems (solve (ex_library 1) false ex_lp_problem true false []
                      ex_world_types).1) = 1%nat
  /\ length (problems (solve (ex_library 1) false ex_lp_problem true false []
                         ex_world).1) = 1%nat.
Proof.
  split.
  - destruct (warm_start_eligibility (ex_library 1) false ex_lp_problem true
                false [] ex_world_types) as (_ & Hwarm & _).
    destruct (Hwarm {| prev_problem := 0;
                       prev_obj := [1; 1];
                       prev_mat := data_A ex_lp;
                       prev_rhs := [1];
                       prev_cone_ind := [];
                       prev_vartype := ["C"%char; "B"%char] |} eq_refl)
      as (_ & Hn & _).
    exact Hn.
  - destruct (warm_start_eligibility (ex_library 1) false ex_lp_problem true
                false [] ex_world) as (_ & _ & Hcold).
    destruct (Hcold eq_refl) as (_ & Hn & _). exact Hn.
Defined.

(** The calls of a first solve of [ex_lp], whatever [verbose] is. *)
Lemma verbose_is_overwritten_witness :
  problem_at (solve (ex_library 1) false ex_lp_problem false false []
                ex_world).1 0
  = problem_at (load false ex_lp_problem false ex_world).1 0
    ++ [ xpress.set_control "miplog" 2;
         xpress.set_control "lplog" 1;
         xpress.set_control "outputlog" 1 ]
    ++ option_calls (ex_library 1) [] ++ [xpress.solve].
Proof.
  destruct (verbose_is_overwritten (ex_library 1) false ex_lp_problem false
              false []) as [_ H].
  apply (H ex_world).
  - intros prev Hp. discriminate Hp.
  - reflexivity.
Defined.

(** The status [lp_unfinished] is translated into [SOLVER_ERROR], and the
    cache, empty before, holds the problem afterwards. *)
Lemma cache_written_for_every_status_witness :
  translate_status ex_lp xpress.lp_unfinished = Ok s.SOLVER_ERROR
  /\ prev_result ex_world = None
  /\ prev_result
       (run (ex_library xpress.lp_unfinished) 0 ex_lp
          (load false ex_lp_problem false ex_world).1).1
     = Some {| prev_problem := 0;
               prev_obj := data_C ex_lp;
               prev_mat := data_A ex_lp;
               prev_rhs := data_B ex_lp;
               prev_cone_ind := dims_SOC_DIM ex_lp;
               prev_vartype := ["C"%char; "C"%char] |}
  /\ prev_result
       (solve (ex_library xpress.lp_unfinished) false ex_lp_problem false
          false [] ex_world).1
     <> None.
Proof.
  split; [reflexivity|]. split; [reflexivity|]. split; [|discriminate].
  destruct (cache_written_for_every_status (ex_library xpress.lp_unfinished) 0
              ex_lp (load false ex_lp_problem false ex_world).1) as [H _].
  apply (H {| xpress.ProbStatus := xpress.lp_unfinished; xpress.ObjVal := 1;
              xpress.Solution := [1; 0]; xpress.Dual := [1] |} s.SOLVER_ERROR);
    reflexivity.
Defined.

(** The status [lp_unbounded] is translated into [UNBOUNDED], and no result
    is returned. *)
Lemma infeasibility_evidence_witness :
  translate_status ex_lp xpress.lp_unbounded = Ok s.UNBOUNDED
  /\ (run (ex_library xpress.lp_unbounded) 0 ex_lp
        (load false ex_lp_problem false ex_world).1).2 = Raise KeyError
  /\ (solve (ex_library xpress.lp_unbounded) false ex_lp_problem false false
        [] ex_world).2 = Raise KeyError.
Proof.
  split; [reflexivity|]. split; [|reflexivity].
  destruct (infeasibility_evidence (ex_library xpress.lp_unbounded) 0 ex_lp
              (load false ex_lp_problem false ex_world).1
              {| xpress.ProbStatus := xpress.lp_unbounded; xpress.ObjVal := 1;
                 xpress.Solution := [1; 0]; xpress.Dual := [1] |}
              s.UNBOUNDED ["C"%char; "C"%char] eq_refl eq_refl eq_refl)
    as (_ & _ & H).
  apply H. by left.
Defined.

(** The cone of size three of [ex_socp], on a problem that holds the linear
    row: three variables, three rows, and one constraint.  The cone of size
    two of [ex_stored_zero], whose second row stores a zero before the
    coefficient [-3]: [mstart] ends with 2, and the coefficient is the third
    of the values passed. *)
Lemma cone_auxiliary_variables_witness :
  (exists mstart,
     soc_block false 0 ex_socp [] (1, 0) 3 ex_world_types
     = (append_calls 0
          [ xpress.addVariable
              [ xpress.cone_var 0 0 (xpress.finite 0);
                xpress.cone_var 0 1 xpress.minus_infinity;
                xpress.cone_var 0 2 xpress.minus_infinity ];
            xpress.addrows ["E"; "E"; "E"]%char [0; 0; 0] mstart
              [0; 1; 2] [-1; -1; -1];
            xpress.chgmcoef
              [xpress.by_index 1; xpress.by_index 2; xpress.by_index 3]
              [ xpress.by_object (xpress.cone_var 0 0 (xpress.finite 0));
                xpress.by_object (xpress.cone_var 0 1 xpress.minus_infinity);
                xpress.by_object (xpress.cone_var 0 2 xpress.minus_infinity) ]
              [1; 1; 1];
            xpress.addConstraint
              {| xpress.c_lhs :=
                   xpress.Sum
                     [ xpress.pow
                         (xpress.term (xpress.cone_var 0 1 xpress.minus_infinity)) 2;
                       xpress.pow
                         (xpress.term (xpress.cone_var 0 2 xpress.minus_infinity)) 2 ];
                 xpress.c_rhs :=
                   xpress.pow
                     (xpress.term (xpress.cone_var 0 0 (xpress.finite 0))) 2;
                 xpress.c_name := Some "cone_0" |} ]
          ex_world_types,
        Ok (4, 1))
     /\ len mstart = 3 + 1)
  /\ (exists mstart nnz p v,
        soc_block false 0 ex_stored_zero [] (0, 0) 2 ex_world_types
        = (append_calls 0
             [ xpress.addVariable
                 [ xpress.cone_var 0 0 (xpress.finite 0);
                   xpress.cone_var 0 1 xpress.minus_infinity ];
               xpress.addrows ["E"; "E"]%char [0; 0] mstart
                 [0; 0; 1] [-1; 0; -3];
               xpress.chgmcoef
                 [xpress.by_index 1; xpress.by_index 2]
                 [ xpress.by_object (xpress.cone_var 0 0 (xpress.finite 0));
                   xpress.by_object (xpress.cone_var 0 1 xpress.minus_infinity) ]
                 [1; 1];
               xpress.addConstraint
                 {| xpress.c_lhs :=
                      xpress.Sum
                        [ xpress.pow
                            (xpress.term
                               (xpress.cone_var 0 1 xpress.minus_infinity)) 2 ];
                    xpress.c_rhs :=
                      xpress.pow
                        (xpress.term (xpress.cone_var 0 0 (xpress.finite 0))) 2;
                    xpress.c_name := Some "cone_0" |} ]
             ex_world_types,
           Ok (2, 1))
        /\ last mstart = Some nnz
        /\ nnz < len [-1; 0; -3]
        /\ nnz <= p
        /\ getitem [-1; 0; -3] p = Ok v
        /\ v <> 0).
Proof.
  split.
  - destruct (cone_auxiliary_variables 0 ex_socp [] 1 0 3 ex_world_types)
      as (mstart & _ & H & _ & _ & _ & Hl & _).
    + simpl. lia.
    + lia.
    + lia.
    + simpl. lia.
    + unfold len. simpl. lia.
    + exists mstart. split; [exact H|exact Hl].
  - destruct (cone_auxiliary_variables 0 ex_stored_zero [] 0 0 2 ex_world_types)
      as (mstart & _ & H & _ & _ & _ & _ & _ & Hbad).
    + simpl. lia.
    + lia.
    + lia.
    + simpl. lia.
    + unfold len. simpl. lia.
    + destruct (Hbad [(0, 0, -1)] (1, 0, 0) [(1, 1, -3)]) as (nnz & p & v & Hd).
      * reflexivity.
      * reflexivity.
      * apply Exists_cons_hd. discriminate.
      * exists mstart, nnz, p, v. split; [exact H|exact Hd].
Defined.

(** The cached types of [ex_world_types] say that the second column is
    binary, the problem says that it is continuous. *)
Lemma type_change_raises_witness :
  update_coltypes 0 [1; 1] ["C"; "B"]%char ex_world_types
  = (ex_world_types, Raise TypeError)
  /\ (solve (ex_library xpress.lp_optimal) false ex_lp_problem true false []
        ex_world_types).2 = Raise TypeError.
Proof.
  split; [|reflexivity].
  destruct (type_change_raises 0 [1; 1] ["C"; "B"]%char ["C"; "C"]%char
              ex_world_types eq_refl eq_refl) as (H & _).
  apply H. exists 1%nat, "C"%char, "B"%char. repeat split; discriminate.
Defined.

(** The leg row of [ex_stored_zero] stores a zero. *)
Lemma back_substitution_stored_zero_witness :
  back_substitution
    (tocsr (getrows (data_A ex_stored_zero) (Some 0) (Some 2)))
    [0; 0] [xpress.column 0; xpress.column 1]
  = Raise IndexError
  /\ (solve (ex_library xpress.lp_optimal) true ex_stored_zero_problem false
        false [] ex_world).2 = Raise IndexError.
Proof.
  split; [|reflexivity].
  apply back_substitution_stored_zero.
  apply Exists_exists. exists (0, 0, 0). split; [|reflexivity].
  vm_compute. apply list_elem_of_here.
Defined.

(** A first solve of [ex_lp], then a warm start on the same problem: the
    objective has a parameter, and the only call is [chgobj] with no index. *)
Lemma warm_start_round_trip_witness :
  (exists cs,
     problem_at (load false ex_lp_problem true ex_world_solved).1 0
     = problem_at ex_world_solved 0 ++ cs
     /\ (cs = [] \/ cs = [xpress.chgobj [] []]))
  /\ previous true (prev_result ex_world_solved) ex_lp
     = prev_result ex_world_solved
  /\ scipy.ne (getrows (data_A ex_lp) None (Some 1)) (data_A ex_lp) = Ok [].
Proof.
  destruct (warm_start_round_trip (ex_library xpress.lp_optimal) false
              ex_lp_problem false false [] ex_world ex_world_solved
              (solve (ex_library xpress.lp_optimal) false ex_lp_problem false
                 false [] ex_world).2
              {| prev_problem := 0;
                 prev_obj := [1; 1];
                 prev_mat := data_A ex_lp;
                 prev_rhs := [1];
                 prev_cone_ind := [];
                 prev_vartype := ["C"; "C"]%char |})
    as (Hcalls & Heligible & _).
  - reflexivity.
  - reflexivity.
  - reflexivity.
  - reflexivity.
  - simpl. repeat (apply Forall_cons; split; [unfold e_row; simpl; lia|]).
    apply Forall_nil_2.
  - split; [exact Hcalls|].
    destruct (Heligible eq_refl) as (Hp & _ & HA & _).
    split; [exact Hp|exact HA].
Defined.

(** The cone of [ex_cone] by back-substitution: one constraint
    [(0 - (-3) * x1)^2 <= (0 - (-1) * x0)^2]. *)
Lemma cone_back_substitution_witness :
  soc_block true 0 ex_cone [xpress.column 0; xpress.column 1] (0, 0) 2
    ex_world_types
  = (append_calls 0
       [ xpress.addConstraint
           {| xpress.c_lhs :=
                xpress.Sum
                  [ xpress.pow
                      (xpress.sub (xpress.const 0)
                         (xpress.mul (xpress.const (-3))
                            (xpress.term (xpress.column 1)))) 2 ];
              xpress.c_rhs :=
                xpress.pow
                  (xpress.sub (xpress.const 0)
                     (xpress.mul (xpress.const (-1))
                        (xpress.term (xpress.column 0)))) 2;
              xpress.c_name := None |} ]
       ex_world_types,
     Ok (2, 1)).
Proof.
  destruct (cone_back_substitution 0 ex_cone 2 0 0 2 ex_world_types) as [H _].
  - reflexivity.
  - reflexivity.
  - lia.
  - match goal with |- Forall _ ?l =>
      let l' := eval vm_compute in l in change l with l' end.
    repeat (apply Forall_cons; split;
            [unfold e_row, e_col, e_val; simpl; lia|]).
    apply Forall_nil_2.
  - exact H.
Defined.

(** The linear part of a problem that stores a zero: [mstart] ends with 2,
    and three values are passed. *)
Lemma stored_zero_column_starts_witness :
  exists nnz,
    last [0; 1; 2] = Some nnz
    /\ nnz < len (scipy.data (data_A ex_stored_zero)).
Proof.
  destruct (stored_zero_column_starts (data_A ex_stored_zero) 2 1 [0; 1; 2])
    as (nnz & Hlast & Hlt & _).
  - apply Exists_exists. exists (1, 0, 0). split; [|reflexivity].
    simpl. apply list_elem_of_further, list_elem_of_here.
  - reflexivity.
  - exists nnz. by split.
Defined.

(** The empty cache is sound, and so is the cache after the first solve. *)
Lemma solve_keeps_references_witness :
  wf_world ex_world /\ wf_world ex_world_solved.
Proof.
  assert (wf_world ex_world) as H by (intros prev Hp; discriminate Hp).
  split; [exact H|].
  exact (solve_keeps_references (ex_library xpress.lp_optimal) false
           ex_lp_problem false false [] ex_world H).
Defined.

(** The column starts of [ex_matrix]: two nonzeros lie in the columns below
    2, and one in the column 2. *)
Lemma makeMstart_counts_below_witness :
  getitem [0; 2; 2; 3; 4] 2 = Ok (len (filter (fun v => v < 2) [2; 0; 0; 3]))
  /\ getitem [0; 2; 2; 3; 4] (2 + 1)
     = Ok (len (filter (fun v => v < 2) [2; 0; 0; 3])
           + numpy.occurrences 2 [2; 0; 0; 3]).
Proof.
  destruct (makeMstart_counts_below ex_matrix 4 1 [2; 0; 0; 3] [0; 2; 2; 3; 4]
              eq_refl eq_refl 2) as [H1 H2].
  - unfold len. simpl. lia.
  - split; [exact H1|]. apply H2. unfold len. simpl. lia.
Defined.

(** The linear row of [ex_socp], as [loadproblem] receives it. *)
Lemma loadproblem_column_encoding_witness :
  exists mstart,
    makeMstart (getrows (data_A ex_socp) None (Some 1)) 3 1 = Ok mstart
    /\ len mstart = 3 + 1.
Proof.
  destruct (loadproblem_column_encoding ex_socp) as (mstart & Hm & Hl & _).
  - reflexivity.
  - simpl. repeat (apply SSorted_cons; [|repeat (apply Forall_cons; split;
                                                  [unfold e_col; simpl; lia|]);
                                         apply Forall_nil_2]).
    apply SSorted_nil.
  - simpl. repeat (apply Forall_cons; split;
                   [unfold e_col, e_val, len; simpl; lia|]).
    apply Forall_nil_2.
  - exists mstart. split; [exact Hm|exact Hl].
Defined.

(** The rows of the cone of [ex_socp], as [addrows] receives them. *)
Lemma addrows_row_encoding_witness :
  exists mstart,
    makeMstart (tocsr (getrows (data_A ex_socp) (Some 1) (Some (1 + 3)))) 3 0
    = Ok mstart
    /\ len mstart = 3 + 1.
Proof.
  destruct (addrows_row_encoding ex_socp 1 3) as (mstart & Hm & Hl & _).
  - lia.
  - lia.
  - simpl. lia.
  - simpl. repeat (apply Forall_cons; split;
                   [unfold e_row, e_val; simpl; lia|]).
    apply Forall_nil_2.
  - exists mstart. split; [exact Hm|exact Hl].
Defined.

(** A first solve of [ex_lp]. *)
Lemma cold_solve_linear_witness :
  exists mstart,
    problems (solve (ex_library 1) false ex_lp_problem false false []
                ex_world).1
    = [[ xpress.loadproblem "CVXproblem" ["E"%char] [1] [1; 1] mstart
           [0; 0] [1; 1]
           [xpress.minus_infinity; xpress.minus_infinity]
           [xpress.infinity; xpress.infinity];
         xpress.chgcoltype [] [];
         xpress.setObjective
           (xpress.Sum [ objective_term [1; 1] 0; objective_term [1; 1] 1 ]);
         xpress.set_control "miplog" 2;
         xpress.set_control "lplog" 1;
         xpress.set_control "outputlog" 1;
         xpress.setControl_dict [];
         xpress.solve ]].
Proof.
  destruct (cold_solve_linear (ex_library 1) false ex_lp_problem false false []
              ex_world) as (mstart & _ & H).
  - reflexivity.
  - reflexivity.
  - simpl. repeat (apply Forall_cons; split; [unfold e_col; simpl; lia|]).
    apply Forall_nil_2.
  - exists mstart. exact H.
Defined.

(** The problem built for [ex_socp]: three variables and three more for the
    cone, one linear row, three rows and one constraint for the cone. *)
Lemma cold_solve_dimensions_witness :
  len (xpress.coltypes
         (problem_at (solve (ex_library 1) false ex_socp_problem false false
                        [] ex_world).1 0)) = 3 + 3
  /\ xpress.rows
       (problem_at (solve (ex_library 1) false ex_socp_problem false false
                      [] ex_world).1 0) = 1 + 0 + 3 + 1.
Proof.
  destruct (cold_solve_dimensions (ex_library 1) ex_socp_problem false false []
              ex_world) as (Hc & _ & Hr).
  - reflexivity.
  - simpl. repeat (apply Forall_cons; split; [unfold e_col; simpl; lia|]).
    apply Forall_nil_2.
  - simpl. lia.
  - simpl. lia.
  - simpl. repeat (apply Forall_cons; split; [lia|]). apply Forall_nil_2.
  - split; [exact Hc|exact Hr].
Defined.

(** The right-hand sides passed for [ex_socp]. *)
Lemma right_hand_sides_passed_once_witness :
  concat (map rhs_passed
            (problem_at (solve (ex_library 1) false ex_socp_problem false
                           false [] ex_world).1 0))
  = [1; 0; 0; 0].
Proof.
  apply (right_hand_sides_passed_once (ex_library 1) ex_socp_problem false
           false [] ex_world).
  - reflexivity.
  - simpl. repeat (apply Forall_cons; split; [unfold e_col; simpl; lia|]).
    apply Forall_nil_2.
  - simpl. lia.
  - simpl. repeat (apply Forall_cons; split; [lia|]). apply Forall_nil_2.
  - reflexivity.
Defined.

(** A first solve of [ex_mip] that the optimizer reports as optimal: a
    result without duals. *)
Lemma cold_solve_reports_witness :
  (solve (ex_library xpress.mip_optimal) false ex_mip_problem false false []
     ex_world).2
  = Ok {| STATUS := Some s.OPTIMAL;
          PRIMAL := Some [1; 0];
          VALUE := Some 1;
          EQ_DUAL := None;
          IIS := Some PyNone |}.
Proof.
  destruct (cold_solve_reports (ex_library xpress.mip_optimal) ex_mip_problem
              false false [] ex_world
              {| xpress.ProbStatus := xpress.mip_optimal; xpress.ObjVal := 1;
                 xpress.Solution := [1; 0]; xpress.Dual := [1] |})
    as (H & _).
  - reflexivity.
  - simpl. repeat (apply Forall_cons; split; [unfold e_col; simpl; lia|]).
    apply Forall_nil_2.
  - unfold len. simpl. lia.
  - reflexivity.
  - apply H. reflexivity.
Defined.

(** The types cached for [ex_mip]: continuous, boolean, integer. *)
Lemma cached_variable_types_witness :
  exists vartypes,
    prev_result (solve (ex_library xpress.mip_optimal) false ex_mip_problem
                   false false [] ex_world).1
    = Some {| prev_problem := 0;
              prev_obj := data_C ex_mip;
              prev_mat := data_A ex_mip;
              prev_rhs := data_B ex_mip;
              prev_cone_ind := [];
              prev_vartype := vartypes |}
    /\ getitem vartypes 0 = Ok "C"%char
    /\ getitem vartypes 1 = Ok "B"%char
    /\ getitem vartypes 2 = Ok "I"%char.
Proof.
  destruct (cached_variable_types (ex_library xpress.mip_optimal) ex_mip_problem
              false false [] ex_world
              {| xpress.ProbStatus := xpress.mip_optimal; xpress.ObjVal := 1;
                 xpress.Solution := [1; 0]; xpress.Dual := [1] |}
              s.OPTIMAL)
    as (vartypes & Hc & _ & Ht).
  - reflexivity.
  - simpl. repeat (apply Forall_cons; split; [unfold e_col; simpl; lia|]).
    apply Forall_nil_2.
  - unfold len. simpl. lia.
  - reflexivity.
  - reflexivity.
  - exists vartypes. split; [exact Hc|].
    split; [|split].
    + rewrite (Ht 0) by (unfold len; simpl; lia). reflexivity.
    + rewrite (Ht 1) by (unfold len; simpl; lia). reflexivity.
    + rewrite (Ht 2) by (unfold len; simpl; lia). reflexivity.
Defined.

(** The first coefficient of the objective changes from 1 to 5. *)
Lemma objective_update_witness :
  exists dci,
    update_objective 0 ex_lp_problem [5; 1] [1; 1] ex_world_types
    = (append_calls 0 [xpress.chgobj dci (map (item [5; 1]) dci)]
         ex_world_types, Ok tt)
    /\ written [1; 1] dci (map (item [5; 1]) dci) = [5; 1].
Proof.
  destruct (objective_update 0 ex_lp_problem [5; 1] [1; 1] ex_world_types)
    as (dci & Hu & _ & _ & Hw).
  - simpl. lia.
  - reflexivity.
  - exists dci. split; [exact Hu|exact Hw].
Defined.

(** The matrix and the right-hand side of [ex_lp] change to those of
    [ex_lp_fixed]. *)
Lemma constraints_update_witness :
  exists dAi dbi,
    update_constraints 0 ex_lp_problem
      (data_A (problem_data_of ex_lp_fixed)) (data_A ex_lp) [4] [1]
      ex_world_types
    = (append_calls 0
         ((if 0 <? len dAi then
             [xpress.chgmcoef (map (fun p => xpress.by_index p.1) dAi)
                (map (fun p => xpress.by_index p.2) dAi)
                (map (fun p => scipy.get (data_A (problem_data_of ex_lp_fixed))
                                 p.1 p.2) dAi)]
           else [])
          ++ (if 0 <? len dbi then [xpress.chgrhs dbi (map (item [4]) dbi)]
              else []))
         ex_world_types,
       Ok tt)
    /\ written [1] dbi (map (item [4]) dbi) = [4].
Proof.
  destruct (constraints_update 0 ex_lp_problem
              (data_A (problem_data_of ex_lp_fixed)) (data_A ex_lp) [4] [1]
              ex_world_types) as [H _].
  - apply Exists_cons_hd. lia.
  - reflexivity.
  - destruct (H eq_refl eq_refl) as (dAi & dbi & Hu & _ & _ & _ & _ & Hw).
    exists dAi, dbi. split; [exact Hu|exact Hw].
Defined.

(** A warm start of [ex_lp_fixed] on the cached problem of [ex_lp]: other
    coefficients, no parameter, no call. *)
Lemma warm_start_without_parameters_witness :
  problems (load false ex_lp_fixed true ex_world_types).1
  = problems ex_world_types.
Proof.
  destruct (warm_start_without_parameters false ex_lp_fixed ex_world_types
              {| prev_problem := 0;
                 prev_obj := [1; 1];
                 prev_mat := data_A ex_lp;
                 prev_rhs := [1];
                 prev_cone_ind := [];
                 prev_vartype := ["C"%char; "B"%char] |}) as (H & _).
  - reflexivity.
  - simpl. lia.
  - simpl. repeat (apply Forall_cons; split; [lia|]). apply Forall_nil_2.
  - exact H.
Defined.

(** The option ['original_problem'] is not a control of the library. *)
Lemma unknown_option_ignored_witness :
  solve (ex_library 1) false ex_lp_problem false false
    ([] ++ [("original_problem", xpress.opt_object)]) ex_world
  = solve (ex_library 1) false ex_lp_problem false false ([] ++ []) ex_world.
Proof.
  apply unknown_option_ignored.
  - discriminate.
  - simpl. intros H.
    repeat (apply elem_of_cons in H as [H|H]; [discriminate H|]).
    by apply elem_of_nil in H.
Defined.

(** The problem built for [ex_cone] by back-substitution: the two variables
    and one row, for the cone. *)
Lemma cold_solve_back_substitution_witness :
  len (xpress.coltypes
         (problem_at (solve (ex_library 1) true ex_cone_problem false false []
                        ex_world).1 0)) = 2
  /\ xpress.rows
       (problem_at (solve (ex_library 1) true ex_cone_problem false false []
                      ex_world).1 0) = 0 + 0 + 1.
Proof.
  destruct (cold_solve_back_substitution (ex_library 1) ex_cone_problem false
              false [] ex_world) as (mstart & cons & _ & _ & Hc & Hr).
  - reflexivity.
  - simpl. lia.
  - simpl. lia.
  - simpl. repeat (apply Forall_cons; split; [lia|]). apply Forall_nil_2.
  - simpl. unfold total. simpl. lia.
  - unfold len, total. simpl. lia.
  - simpl. repeat (apply Forall_cons; split;
                   [unfold e_col, len; simpl; lia|]).
    apply Forall_nil_2.
  - simpl. repeat (apply Forall_cons; split;
                   [unfold e_row, e_val; simpl; lia|]).
    apply Forall_nil_2.
  - split; [exact Hc|exact Hr].
Defined.

(** The record for [ex_results_dict], on the problem of [ex_world_types]. *)
Lemma format_results_record_witness :
  exists st,
    translate_status ex_lp xpress.lp_optimal = Ok st
    /\ STATUS {| STATUS := Some s.OPTIMAL; PRIMAL := Some [1; 0];
                 VALUE := Some 1; EQ_DUAL := Some [1];
                 IIS := Some PyNone |} = Some st
    /\ prob_ (format_results ex_results_dict ex_lp ex_world_types).1
       = Some 0%nat.
Proof.
  destruct (format_results_record ex_results_dict ex_lp ex_world_types
              (format_results ex_results_dict ex_lp ex_world_types).1
              {| STATUS := Some s.OPTIMAL; PRIMAL := Some [1; 0];
                 VALUE := Some 1; EQ_DUAL := Some [1];
                 IIS := Some PyNone |})
    as (st & Hst & _ & Hs & _ & _ & _ & _ & _ & Hp & _).
  - reflexivity.
  - exists st. split; [exact Hst|]. split; [exact Hs|exact Hp].
Defined.

(** An axis that the pair of [nonzero] does not have, and a matrix whose
    only stored value is a zero. *)
Lemma makeMstart_edge_cases_witness :
  makeMstart ex_row 4 2 = Raise IndexError
  /\ makeMstart {| sp_format := CSC; sp_nrow := 1; sp_ncol := 3;
                   sp_entries := [(0, 1, 0)] |} 3 1
     = Ok [0; 0; 0; 0].
Proof.
  split.
  - destruct (makeMstart_edge_cases ex_row 4 2) as [H _]. apply H.
    intros Hin.
    repeat (apply elem_of_cons in Hin as [Hin|Hin]; [discriminate Hin|]).
    by apply elem_of_nil in Hin.
  - destruct (makeMstart_edge_cases
                {| sp_format := CSC; sp_nrow := 1; sp_ncol := 3;
                   sp_entries := [(0, 1, 0)] |} 3 1) as [_ H].
    apply H.
    + apply list_elem_of_further, list_elem_of_here.
    + simpl. apply Forall_cons. split; [reflexivity|]. apply Forall_nil_2.
Defined.

(** The first stored entry of [ex_negative_column] is in the column [-1]. *)
Lemma cold_solve_invalid_input_witness :
  solve (ex_library 1) false ex_negative_column false false [] ex_world
  = ({| problems := [[]]; prob_ := Some 0%nat; prev_result := None |},
     Raise ValueError).
Proof.
  apply (cold_solve_invalid_input (ex_library 1) false ex_negative_column false
           false [] ex_world).
  - reflexivity.
  - apply Exists_cons_hd. split; [discriminate|]. unfold e_col. simpl. lia.
Defined.
